(** * A shallow embedding of the file-manager command interpreter

    The development follows [src/cli/file-manager/fileManager.js]: the
    bracket-aware tokenizer, the path validators, the operation handlers
    and the dispatch loop of class [FileManager].

    Conventions of the model.
    - A JavaScript string is a Rocq [string]; a character is one code unit
      restricted to the Latin-1 range (0..255), so [ascii] is read as the
      code unit and not as a UTF-8 byte.
    - File contents are lists of bytes, a byte being a [Z] in 0..255.
    - Node's [path] module is modelled in its POSIX flavour.
    - A command is executed atomically: the interleaving of two pending
      asynchronous handlers is outside the model. *)

From Stdlib Require Import String Ascii List ZArith Lia Bool Arith Sorted.
From stdpp Require Import gmap strings.
Import ListNotations.

Local Open Scope string_scope.
Local Open Scope list_scope.

(** ** JavaScript strings *)

Module JsString.

(** The characters the tokenizer and the path functions single out. *)
Definition SPACE : ascii := " "%char.
Definition SQUOTE : ascii := "'"%char.
Definition DQUOTE : ascii := Eval cbv in ascii_of_nat 34.
Definition SLASH : ascii := "/"%char.
Definition DOT : ascii := "."%char.

Definition isEmpty (s : string) : bool :=
  match s with EmptyString => true | String _ _ => false end.

(** [str.length] being truthy. *)
Definition nonEmpty (s : string) : bool := negb (isEmpty s).

(** White space and line terminators removed by [String.prototype.trim],
    within the Latin-1 range: TAB, LF, VT, FF, CR, SP and NBSP. *)
Definition isWhiteSpace (c : ascii) : bool :=
  let n := nat_of_ascii c in
  (((9 <=? n) && (n <=? 13)) || (n =? 32) || (n =? 160))%nat.

Fixpoint trimStart (s : string) : string :=
  match s with
  | EmptyString => EmptyString
  | String c s' => if isWhiteSpace c then trimStart s' else s
  end.

Fixpoint trimEnd (s : string) : string :=
  match s with
  | EmptyString => EmptyString
  | String c s' =>
      let t := trimEnd s' in
      if isWhiteSpace c && isEmpty t then EmptyString else String c t
  end.

Definition trim (s : string) : string := trimEnd (trimStart s).

(** [String.prototype.toLowerCase] on Latin-1 code units: A-Z and the
    upper-case letters U+00C0..U+00DE (U+00D7 is the multiplication sign). *)
Definition lowerChar (c : ascii) : ascii :=
  let n := nat_of_ascii c in
  if (((65 <=? n) && (n <=? 90))
      || ((192 <=? n) && (n <=? 222) && negb (n =? 215)))%nat
  then ascii_of_nat (n + 32) else c.

Fixpoint toLowerCase (s : string) : string :=
  match s with
  | EmptyString => EmptyString
  | String c s' => String (lowerChar c) (toLowerCase s')
  end.

(** [s.startsWith(p)]. *)
Definition startsWith (s p : string) : bool := String.prefix p s.

(** [s.slice(a)] and [s.slice(a, b)] for indices within [0 .. length]. *)
Definition sliceFrom (s : string) (a : nat) : string :=
  substring a (String.length s - a) s.

Definition slice (s : string) (a b : nat) : string :=
  substring a (b - a) s.

(** [s[i]]; [None] stands for [undefined]. *)
Definition charAt (s : string) (i : nat) : option ascii := String.get i s.

(** [tmp += c]. *)
Definition snoc (s : string) (c : ascii) : string :=
  s +:+ String c EmptyString.

End JsString.

Import JsString.

(** ** The tokenizer *)

(** [#charIsBracket]: membership in the two-element array of quotes. *)
Definition charIsBracket (charSymbol : ascii) : bool :=
  Ascii.eqb charSymbol SQUOTE || Ascii.eqb charSymbol DQUOTE.

(** The body of the [for] loop of [#getCommandWithParameters], one
    iteration per character; the arguments are the loop's variables
    [params], [tmp] and [paramInBracketsStarted].  The last equation is the
    code after the loop. *)
Fixpoint scanParameters (stringToParse : string) (params : list string)
    (tmp : string) (paramInBracketsStarted : bool) : list string :=
  match stringToParse with
  | EmptyString => if nonEmpty tmp then params ++ [tmp] else params
  | String nextSymbol rest =>
      let started :=
        if charIsBracket nextSymbol then negb paramInBracketsStarted
        else paramInBracketsStarted in
      if negb (Ascii.eqb nextSymbol SPACE) then
        scanParameters rest params (snoc tmp nextSymbol) started
      else if started then
        scanParameters rest params (snoc tmp nextSymbol) started
      else if nonEmpty tmp then
        scanParameters rest (params ++ [tmp]) EmptyString started
      else
        scanParameters rest params tmp started
  end.

(** [#getCommandWithParameters]. *)
Definition getCommandWithParameters (input : string) : list string :=
  if isEmpty input then []
  else scanParameters (trim input) [] EmptyString false.

(** [#unbraketString]. *)
Definition unbraketString (str : string) : string :=
  if isEmpty str then str
  else
    let res := str in
    match charAt res 0 with
    | None => res
    | Some first =>
        if negb (charIsBracket first) then res
        else if negb (bool_decide
                        (charAt res 0 = charAt res (String.length res - 1)))
        then res
        else
          let res := sliceFrom res 1 in
          if isEmpty res then res
          else slice res 0 (String.length res - 1)
    end.

(** ** Node's [path] module, POSIX flavour

    [path] is a library of the platform, not of this repository.  The
    functions below follow the algorithms of [path.posix]: [dirname] and
    [isAbsolute] character by character, [normalizeString] segment by
    segment (empty and [.] segments dropped, [..] cancelling the segment
    before it). *)

Module Path.

Definition isAbsolute (p : string) : bool :=
  match p with
  | EmptyString => false
  | String c _ => Ascii.eqb c SLASH
  end.

(** The segments between the separators; never the empty list. *)
Fixpoint splitSlash (s : string) : list string :=
  match s with
  | EmptyString => [EmptyString]
  | String c s' =>
      let r := splitSlash s' in
      if Ascii.eqb c SLASH then EmptyString :: r
      else String c (hd EmptyString r) :: tl r
  end.

Definition joinSlash (segs : list string) : string := String.concat "/" segs.

(** One separator met by [normalizeString]; [stack] holds the segments
    kept so far, the last one first. *)
Definition pushSegment (allowAboveRoot : bool) (stack : list string)
    (seg : string) : list string :=
  if isEmpty seg || String.eqb seg "." then stack
  else if String.eqb seg ".." then
    match stack with
    | top :: below =>
        if String.eqb top ".." then
          (if allowAboveRoot then seg :: stack else stack)
        else below
    | [] => if allowAboveRoot then [seg] else []
    end
  else seg :: stack.

Definition normalizeSegments (allowAboveRoot : bool) (segs : list string)
    : list string :=
  rev (fold_left (pushSegment allowAboveRoot) segs []).

Definition normalizeString (p : string) (allowAboveRoot : bool) : string :=
  joinSlash (normalizeSegments allowAboveRoot (splitSlash p)).

(** The loop of [path.resolve]: the arguments from the last to the first,
    then the working directory of the process, until an absolute one. *)
Fixpoint resolveLoop (args : list string) (resolvedPath : string)
    : string * bool :=
  match args with
  | [] => (resolvedPath, false)
  | p :: more =>
      if isEmpty p then resolveLoop more resolvedPath
      else
        let resolvedPath' := p +:+ "/" +:+ resolvedPath in
        if isAbsolute p then (resolvedPath', true)
        else resolveLoop more resolvedPath'
  end.

(** [path.resolve(...paths)] in a process whose working directory is
    [cwd]. *)
Definition resolve (cwd : string) (paths : list string) : string :=
  let '(resolvedPath, resolvedAbsolute) :=
    resolveLoop (rev paths ++ [cwd]) EmptyString in
  let n := normalizeString resolvedPath (negb resolvedAbsolute) in
  if resolvedAbsolute then "/" +:+ n
  else if nonEmpty n then n else ".".

(** [path.normalize]. *)
Definition normalize (p : string) : string :=
  if isEmpty p then "."
  else
    let absolute := isAbsolute p in
    let trailingSeparator :=
      bool_decide (charAt p (String.length p - 1) = Some SLASH) in
    let n := normalizeString p (negb absolute) in
    if isEmpty n then
      (if absolute then "/" else if trailingSeparator then "./" else ".")
    else
      let n := if trailingSeparator then n +:+ "/" else n in
      if absolute then "/" +:+ n else n.

(** [path.join(a, b)]. *)
Definition join (a b : string) : string :=
  match isEmpty a, isEmpty b with
  | true, true => "."
  | false, true => normalize a
  | true, false => normalize b
  | false, false => normalize (a +:+ "/" +:+ b)
  end.

(** The backward scan of [path.dirname] over the characters after the
    first one, given last first; [Some r] when a separator ends the scan,
    [r] being what precedes it (still reversed). *)
Fixpoint dirnameScan (r : list ascii) (matchedSlash : bool)
    : option (list ascii) :=
  match r with
  | [] => None
  | c :: r' =>
      if Ascii.eqb c SLASH then
        (if matchedSlash then dirnameScan r' true else Some r')
      else dirnameScan r' false
  end.

(** [path.dirname]. *)
Definition dirname (p : string) : string :=
  match p with
  | EmptyString => "."
  | String c rest =>
      let hasRoot := Ascii.eqb c SLASH in
      match dirnameScan (rev (list_ascii_of_string rest)) true with
      | None => if hasRoot then "/" else "."
      | Some r =>
          if hasRoot && bool_decide (r = []) then "//"
          else String c (string_of_list_ascii (rev r))
      end
  end.

(** The last segment of a normalized path ([path.basename] on the paths
    the file system model stores). *)
Definition basename (p : string) : string :=
  List.last (splitSlash p) EmptyString.

End Path.

(** ** UTF-8 text streams

    [fs.createReadStream(path, 'utf-8')] hands its consumer strings: the
    bytes of the file go through a UTF-8 decoder that replaces every
    ill-formed sequence by U+FFFD, and a writable stream that receives a
    string encodes it again as UTF-8.  The decoder is the one of the
    Encoding standard ("maximal subpart" replacement), on code points. *)

Module Utf8.

Local Open Scope Z_scope.

Definition REPLACEMENT : Z := 0xFFFD.

(** A sequence under way: the bits read so far, the number of continuation
    bytes still expected and the range allowed for the next one. *)
Record Pending := mkPending
  { codePoint : Z; bytesNeeded : nat; lower : Z; upper : Z }.

(** A byte met between two characters: a character of its own, the start
    of a sequence, or an ill-formed byte. *)
Definition startSequence (b : Z) : option Z * option Pending :=
  if b <=? 0x7F then (Some b, None)
  else if (0xC2 <=? b) && (b <=? 0xDF) then
    (None, Some (mkPending (b - 0xC0) 1 0x80 0xBF))
  else if (0xE0 <=? b) && (b <=? 0xEF) then
    (None, Some (mkPending (b - 0xE0) 2
                   (if b =? 0xE0 then 0xA0 else 0x80)
                   (if b =? 0xED then 0x9F else 0xBF)))
  else if (0xF0 <=? b) && (b <=? 0xF4) then
    (None, Some (mkPending (b - 0xF0) 3
                   (if b =? 0xF0 then 0x90 else 0x80)
                   (if b =? 0xF4 then 0x8F else 0xBF)))
  else (Some REPLACEMENT, None).

Definition emitted (e : option Z) : list Z :=
  match e with Some c => [c] | None => [] end.

Fixpoint decodeFrom (pending : option Pending) (bytes : list Z) : list Z :=
  match bytes with
  | [] => match pending with None => [] | Some _ => [REPLACEMENT] end
  | b :: rest =>
      match pending with
      | None =>
          let '(e, p) := startSequence b in emitted e ++ decodeFrom p rest
      | Some p =>
          if (lower p <=? b) && (b <=? upper p) then
            let cp := codePoint p * 64 + (b - 0x80) in
            match bytesNeeded p with
            | S (S n) => decodeFrom (Some (mkPending cp (S n) 0x80 0xBF)) rest
            | _ => cp :: decodeFrom None rest
            end
          else
            let '(e, p') := startSequence b in
            REPLACEMENT :: emitted e ++ decodeFrom p' rest
      end
  end.

Definition decode (bytes : list Z) : list Z := decodeFrom None bytes.

(** The decoder fed one buffer of a stream: the text it returns, and the
    sequence under way it holds back for the next buffer. *)
Fixpoint decodeBuffer (pending : option Pending) (bytes : list Z)
    : list Z * option Pending :=
  match bytes with
  | [] => ([], pending)
  | b :: rest =>
      match pending with
      | None =>
          let '(e, p) := startSequence b in
          let '(text, held) := decodeBuffer p rest in
          (emitted e ++ text, held)
      | Some p =>
          if (lower p <=? b) && (b <=? upper p) then
            let cp := codePoint p * 64 + (b - 0x80) in
            match bytesNeeded p with
            | S (S n) => decodeBuffer (Some (mkPending cp (S n) 0x80 0xBF)) rest
            | _ =>
                let '(text, held) := decodeBuffer None rest in
                (cp :: text, held)
            end
          else
            let '(e, p') := startSequence b in
            let '(text, held) := decodeBuffer p' rest in
            (REPLACEMENT :: emitted e ++ text, held)
      end
  end.

(** The end of the stream: a sequence held back is ill-formed. *)
Definition flush (pending : option Pending) : list Z :=
  match pending with None => [] | Some _ => [REPLACEMENT] end.

Definition isSurrogate (c : Z) : bool := (0xD800 <=? c) && (c <=? 0xDFFF).

Definition encodeCodePoint (c : Z) : list Z :=
  if c <? 0x80 then [c]
  else if c <? 0x800 then [0xC0 + c / 64; 0x80 + c mod 64]
  else if c <? 0x10000 then
    (if isSurrogate c then [0xEF; 0xBF; 0xBD]
     else [0xE0 + c / 4096; 0x80 + (c / 64) mod 64; 0x80 + c mod 64])
  else [0xF0 + c / 262144; 0x80 + (c / 4096) mod 64;
        0x80 + (c / 64) mod 64; 0x80 + c mod 64].

Definition encode (text : list Z) : list Z := flat_map encodeCodePoint text.

(** What a writable stream receives from a read stream opened with the
    ['utf-8'] encoding. *)
Definition recode (bytes : list Z) : list Z := encode (decode bytes).

(** A Unicode scalar value. *)
Definition isScalar (c : Z) : Prop :=
  0 <= c <= 0x10FFFF /\ isSurrogate c = false.

End Utf8.

(** ** JavaScript values, objects and [Array.prototype.sort] *)

Module Js.

Inductive Value :=
  | VUndefined
  | VBool (b : bool)
  | VString (s : string).

(** An object literal: its own properties. *)
Abbreviation Object := (gmap string Value).

(** [o.k]: a property the object does not have reads as [undefined]. *)
Definition getProp (o : Object) (k : string) : Value :=
  default VUndefined (o !! k).

Definition truthy (v : Value) : bool :=
  match v with
  | VUndefined => false
  | VBool b => b
  | VString s => nonEmpty s
  end.

(** [ToNumber]; [None] is NaN.  The conversion of a string is not
    modelled (no comparison of the program compares a string with a
    value of another type) and stands as NaN. *)
Definition toNumber (v : Value) : option Z :=
  match v with
  | VUndefined => None
  | VBool b => Some (if b then 1 else 0)%Z
  | VString _ => None
  end.

(** [x < y]: two strings are compared code unit by code unit, anything
    else as numbers, a NaN making the comparison false. *)
Definition lessThan (x y : Value) : bool :=
  match x, y with
  | VString s, VString t => String.ltb s t
  | _, _ =>
      match toNumber x, toNumber y with
      | Some n, Some m => (n <? m)%Z
      | _, _ => false
      end
  end.

(** [x > y]. *)
Definition greaterThan (x y : Value) : bool := lessThan y x.

Section Sort.
Context {A : Type} (comparefn : A -> A -> Z).

(** [x] goes before the first element it does not exceed: elements the
    comparator calls equal keep their order. *)
Fixpoint insertSorted (x : A) (l : list A) : list A :=
  match l with
  | [] => [x]
  | y :: l' =>
      if (comparefn x y <=? 0)%Z then x :: l
      else y :: insertSorted x l'
  end.

(** [array.sort(comparefn)]: the sort is stable (ECMAScript 2019), so
    for a consistent comparator its result is the one of the stable
    insertion sort. *)
Definition sort (l : list A) : list A := fold_right insertSorted [] l.
End Sort.

End Js.

(** ** The file system and the process environment

    Nodes are stored under their absolute, normalized path.  A directory
    node carries the names [readdir] reports, in the order the operating
    system reports them (Node does not sort them).  Symbolic links,
    permissions and special files are outside the model. *)

Module Fs.

Inductive Node :=
  | File (content : list Z)
  | Directory (entries : list string).

Record System := mkSystem
  { nodes : gmap string Node;
    cwd : string;                      (* process.cwd() *)
    cpus : list (string * string);     (* os.cpus(): model, speed in digits *)
    arch : string }.                   (* os.arch() *)

Definition withNodes (w : System) (m : gmap string Node) : System :=
  mkSystem m (cwd w) (cpus w) (arch w).

Inductive Errno := ENOENT | EISDIR | ENOTDIR | EPERM.

(** The way the operating system reads a path given to a system call. *)
Definition key (w : System) (p : string) : string :=
  Path.resolve (cwd w) [p].

(** [fsp.stat]; [None] is the rejection the callers turn into [false]. *)
Definition stat (w : System) (p : string) : option Node :=
  nodes w !! key w p.

(** The names of a directory as [fsp.readdir] returns them on a POSIX
    system: libuv reads them with [scandir] and a [strcmp] comparator, so
    they come in ascending order, code unit by code unit. *)
Fixpoint insertName (name : string) (names : list string) : list string :=
  match names with
  | [] => [name]
  | n :: rest =>
      if String.leb name n then name :: names
      else n :: insertName name rest
  end.

Definition sortNames (names : list string) : list string :=
  fold_right insertName [] names.

Definition readdir (w : System) (p : string) : Errno + list string :=
  match stat w p with
  | Some (Directory entries) => inr (sortNames entries)
  | Some (File _) => inl ENOTDIR
  | None => inl ENOENT
  end.

(** The whole content a read stream delivers. *)
Definition readFile (w : System) (p : string) : Errno + list Z :=
  match stat w p with
  | Some (File content) => inr content
  | Some (Directory _) => inl EISDIR
  | None => inl ENOENT
  end.

Definition addEntry (name : string) (parent : Node) : Node :=
  match parent with
  | Directory entries =>
      if bool_decide (name ∈ entries) then parent
      else Directory (entries ++ [name])
  | File _ => parent
  end.

Definition removeEntry (name : string) (parent : Node) : Node :=
  match parent with
  | Directory entries =>
      Directory (filter (fun e => e ≠ name) entries)
  | File _ => parent
  end.

(** Opening [p] for writing (flag [w]) and writing [content]: the file is
    created, with its name added to its directory, or truncated. *)
Definition writeFile (w : System) (p : string) (content : list Z)
    : Errno + System :=
  let k := key w p in
  match nodes w !! k with
  | Some (Directory _) => inl EISDIR
  | Some (File _) => inr (withNodes w (<[k := File content]> (nodes w)))
  | None =>
      let parent := Path.dirname k in
      match stat w parent with
      | Some (Directory _) =>
          inr (withNodes w
                 (<[k := File content]>
                    (alter (addEntry (Path.basename k)) (key w parent)
                       (nodes w))))
      | Some (File _) => inl ENOTDIR
      | None => inl ENOENT
      end
  end.

Definition unlink (w : System) (p : string) : Errno + System :=
  let k := key w p in
  match nodes w !! k with
  | Some (File _) =>
      inr (withNodes w
             (delete k
                (alter (removeEntry (Path.basename k))
                   (key w (Path.dirname k)) (nodes w))))
  | Some (Directory _) => inl EISDIR
  | None => inl ENOENT
  end.

(** [fsp.rename] of a regular file.  Renaming a directory would move a
    subtree; the handlers rename only what [isFile] has accepted, and the
    model answers [EPERM] for a directory. *)
Definition rename (w : System) (from to : string) : Errno + System :=
  match nodes w !! key w from with
  | None => inl ENOENT
  | Some (Directory _) => inl EPERM
  | Some (File content) =>
      if bool_decide (key w from = key w to) then inr w
      else
        match unlink w from with
        | inl e => inl e
        | inr w' => writeFile w' to content
        end
  end.

End Fs.

(** ** The collaborators the program delegates to *)

(** [zlib]'s Brotli streams: the compressor is total, the decompressor
    fails on input that is not a Brotli stream. *)
Class Codec := mkCodec
  { brotliCompress : list Z -> list Z;
    brotliDecompress : list Z -> option (list Z) }.

(** The codec gives back what it was given. *)
Definition CodecInverts (codec : Codec) : Prop :=
  forall data, brotliDecompress (brotliCompress data) = Some data.

(** [crypto.createHash('sha256')], digest in hexadecimal. *)
Class Digest := mkDigest { sha256Hex : list Z -> string }.

(** A read stream opened with the ['utf-8'] encoding and read by a
    ['data'] listener: the pieces of text of the events, in their order,
    for the content of the file.  Where the stream cuts the text is the
    platform's business (the size of its buffer, the bytes its decoder
    holds back at the end of a buffer). *)
Class ReadStream := mkReadStream { dataEvents : list Z -> list (list Z) }.

(** No event is empty and the events together are the decoded content. *)
Definition DeliversText (stream : ReadStream) : Prop :=
  forall content,
    List.concat (dataEvents content) = Utf8.decode content
    /\ Forall (fun chunk => chunk <> []) (dataEvents content).

(** ** Errors *)

(** The errors a handler can end with: the ones the validators throw
    (by their message) and the rejections of the platform. *)
Inductive Err :=
  | PathToFileNotSet
  | FileDoesNotExist (fullFilePath : string)
  | FileAlreadyExists (fullFilePath : string)
  | PathToDirNotSet
  | PathNotAbsolute (absolutePath : string)
  | DirDoesNotExist (absolutePath : string)
  | UpperThanRoot
  | SysError (errno : Fs.Errno) (syscall path : string)
  | SysErrorTwoPaths (errno : Fs.Errno) (syscall path dest : string)
  | DecompressionFailed.

Definition errnoText (e : Fs.Errno) : string :=
  match e with
  | Fs.ENOENT => "ENOENT: no such file or directory"
  | Fs.EISDIR => "EISDIR: illegal operation on a directory"
  | Fs.ENOTDIR => "ENOTDIR: not a directory"
  | Fs.EPERM => "EPERM: operation not permitted"
  end.

(** [error.message]. *)
Definition message (e : Err) : string :=
  match e with
  | PathToFileNotSet => "Path to file is not set"
  | FileDoesNotExist p => "File '" +:+ p +:+ "' does not exist"
  | FileAlreadyExists p => "File '" +:+ p +:+ "' already exists"
  | PathToDirNotSet => "Path to directory is not set"
  | PathNotAbsolute p => "Path '" +:+ p +:+ "' is not absolute"
  | DirDoesNotExist p => "Directory '" +:+ p +:+ "' does not exist"
  | UpperThanRoot => "You can't go upper than root directory"
  | SysError e syscall p =>
      errnoText e +:+ ", " +:+ syscall +:+ " '" +:+ p +:+ "'"
  | SysErrorTwoPaths e syscall p d =>
      errnoText e +:+ ", " +:+ syscall +:+ " '" +:+ p +:+ "' -> '" +:+ d
      +:+ "'"
  | DecompressionFailed => "Decompression failed"
  end.

(** The error kinds of the specification, for the errors of the
    validators. *)
Inductive ErrorKind :=
  | InvalidArgument | NotFound | AlreadyExists | OutsideRoot
  | OperationFailed.

Definition kindOf (e : Err) : ErrorKind :=
  match e with
  | PathToFileNotSet | PathToDirNotSet | PathNotAbsolute _ => InvalidArgument
  | FileDoesNotExist _ | DirDoesNotExist _ => NotFound
  | FileAlreadyExists _ => AlreadyExists
  | UpperThanRoot => OutsideRoot
  | SysError _ _ _ | SysErrorTwoPaths _ _ _ _ | DecompressionFailed =>
      OperationFailed
  end.

(** ** Command names *)

Module COMMANDS.
Definition goUpper := "up".
Definition exit := ".exit".
Definition changeDir := "cd".
Definition listDir := "ls".
Definition printFileContent := "cat".
Definition createEmptyFile := "add".
Definition renameFile := "rn".
Definition copyFile := "cp".
Definition moveFile := "mv".
Definition deleteFile := "rm".
Definition os := "os".
Definition getFileHash := "hash".
Definition compressFile := "compress".
Definition decompressFile := "decompress".
End COMMANDS.

Module OS_COMMANDS.
Definition getDefaultSystemEOL := "--EOL".
Definition getSystemCPUsInfo := "--cpus".
Definition getHomeDir := "--homedir".
Definition getUserName := "--username".
Definition getCPUArchitecture := "--architecture".
(** [Object.values(OS_COMMANDS)]. *)
Definition values : list string :=
  [getDefaultSystemEOL; getSystemCPUsInfo; getHomeDir; getUserName;
   getCPUArchitecture].
End OS_COMMANDS.

(** Modelled from the spec: [types/outputMessageTypes.js] is not among the
    sources; the writer has three rendering modes, plain, error and
    current-directory status. *)
Inductive OUTPUT_MESSAGE_TYPES := none | error | currDirMessage.

(** ** The session *)

(** The private fields of [FileManager]. *)
Record Session := mkSession
  { rootWorkDir : string;
    currentWorkDir : string;
    ignoreStdin : bool;
    userName : string }.

(** What reaches the terminal. *)
Inductive Output :=
  | Written (outputString : string)          (* rl.write of a string *)
  | WrittenText (text : list Z)              (* rl.write of decoded file text *)
  | ConsoleTable (data : list Js.Object) (properties : list string).

(** The cells [console.table] prints for an output: one row per object,
    one cell per selected property. *)
Definition tableCells (o : Output) : list (list Js.Value) :=
  match o with
  | ConsoleTable data properties =>
      map (fun object : Js.Object => map (Js.getProp object) properties) data
  | _ => []
  end.

Record State := mkState
  { session : Session;
    system : Fs.System;
    terminal : list Output }.

(** How a handler ends: it returns (its promise is fulfilled), it throws
    (or its promise is rejected), a stream emits ['error'] with no listener
    registered, which Node raises as an uncaught exception that ends the
    process, or the process exits. *)
Inductive Outcome (A : Type) :=
  | Returned (a : A)
  | Thrown (e : Err)
  | Uncaught (e : Err)
  | Exited.

Arguments Returned {A} a.
Arguments Thrown {A} e.
Arguments Uncaught {A} e.
Arguments Exited {A}.

(** Computations over the state of the session. *)
Definition M (A : Type) : Type := State -> State * Outcome A.

Definition ret {A} (a : A) : M A := fun st => (st, Returned a).

Definition bind {A B} (m : M A) (k : A -> M B) : M B :=
  fun st =>
    match m st with
    | (st', Returned a) => k a st'
    | (st', Thrown e) => (st', Thrown e)
    | (st', Uncaught e) => (st', Uncaught e)
    | (st', Exited) => (st', Exited)
    end.

Declare Scope session_scope.
Delimit Scope session_scope with session.
Notation "x <- m ;; k" := (bind m (fun x => k))
  (at level 100, m at next level, right associativity) : session_scope.
Notation "m ;;; k" := (bind m (fun _ => k))
  (at level 100, right associativity) : session_scope.
Local Open Scope session_scope.

Definition throw {A} (e : Err) : M A := fun st => (st, Thrown e).
Definition uncaught {A} (e : Err) : M A := fun st => (st, Uncaught e).
Definition exitProcess {A} : M A := fun st => (st, Exited).

Definition getSession : M Session := fun st => (st, Returned (session st)).
Definition getSystem : M Fs.System := fun st => (st, Returned (system st)).

Definition setSystem (w : Fs.System) : M unit :=
  fun st => (mkState (session st) w (terminal st), Returned tt).

Definition setCurrentWorkDir (dir : string) : M unit :=
  fun st =>
    let s := session st in
    (mkState (mkSession (rootWorkDir s) dir (ignoreStdin s) (userName s))
       (system st) (terminal st), Returned tt).

Definition setIgnoreStdin (b : bool) : M unit :=
  fun st =>
    let s := session st in
    (mkState (mkSession (rootWorkDir s) (currentWorkDir s) b (userName s))
       (system st) (terminal st), Returned tt).

Definition emit (o : Output) : M unit :=
  fun st => (mkState (session st) (system st) (terminal st ++ [o]),
             Returned tt).

(** [try { body } catch (error) { handler(error) } finally { final }]:
    an uncaught exception or the exit of the process ends everything,
    the [finally] block included. *)
Definition tryCatchFinally (body : M unit) (handler : Err -> M unit)
    (final : M unit) : M unit :=
  fun st =>
    match body st with
    | (st', Returned _) => final st'
    | (st', Thrown e) => (handler e ;;; final) st'
    | (st', Uncaught e) => (st', Uncaught e)
    | (st', Exited) => (st', Exited)
    end.

(** A rejected call of [fs/promises]. *)
Definition liftFs {A} (syscall path : string) (r : Fs.Errno + A) : M A :=
  match r with
  | inr a => ret a
  | inl e => throw (SysError e syscall path)
  end.

(** A rejected call that takes two paths: the error names both. *)
Definition liftFsTwoPaths {A} (syscall path dest : string)
    (r : Fs.Errno + A) : M A :=
  match r with
  | inr a => ret a
  | inl e => throw (SysErrorTwoPaths e syscall path dest)
  end.

(** A listener called once per event, in the order of the events. *)
Fixpoint forEach {A} (events : list A) (listener : A -> M unit) : M unit :=
  match events with
  | [] => ret tt
  | event :: later => listener event ;;; forEach later listener
  end.

(** ** The class [FileManager] *)

Section FileManager.

Context {codec : Codec} {digest : Digest} {stream : ReadStream}.

Definition ESC : ascii := Eval cbv in ascii_of_nat 27.
Definition LF : ascii := Eval cbv in ascii_of_nat 10.

(** The string [write] passes to the terminal. *)
Definition outputStringOf (data : string) (messageType : OUTPUT_MESSAGE_TYPES)
    (newLine : bool) : string :=
  let outputString :=
    match messageType with
    | error => String ESC "[31m" +:+ data +:+ String ESC "[0m"
    | currDirMessage => String ESC "[33m" +:+ data +:+ String ESC "[0m"
    | none => data
    end in
  if newLine then outputString +:+ String LF EmptyString else outputString.

(** [write]: the flag is raised while the interface is written to, so that
    the line events the write itself provokes are dropped by
    [handleUserInput]. *)
Definition write (data : string) (messageType : OUTPUT_MESSAGE_TYPES)
    (newLine : bool) : M unit :=
  setIgnoreStdin true ;;;
  emit (Written (outputStringOf data messageType newLine)) ;;;
  setIgnoreStdin false.

Definition writeln (data : string) (messageType : OUTPUT_MESSAGE_TYPES)
    : M unit :=
  write data messageType true.

(** [write(chunk.toString())] for the text of a file. *)
Definition writeText (text : list Z) : M unit :=
  setIgnoreStdin true ;;; emit (WrittenText text) ;;; setIgnoreStdin false.

Definition printTable (data : list Js.Object) (properties : list string)
    : M unit :=
  emit (ConsoleTable data properties).

Definition printCurrentWorkDir : M unit :=
  s <- getSession ;;
  writeln ("You are currently in " +:+ currentWorkDir s) currDirMessage.

Definition printProptForCommand : M unit := writeln "> Print command:" none.

Definition showInvalidInputMessage : M unit := writeln "Invalid input" error.

Definition showOperationFailedMessage (errorMessage : string) : M unit :=
  writeln ("Operation failed: " +:+ errorMessage) error.

(** [close]: the farewell, then the ['close'] event, on which the program
    ends the process with status 0. *)
Definition close : M unit :=
  s <- getSession ;;
  writeln ("Thank you for using File Manager, " +:+ userName s
           +:+ ", goodbye!") none ;;;
  exitProcess.

(** [new FileManager(currentWorkDir, userName)]. *)
Definition start (w : Fs.System) (workDir name : string) : State * Outcome unit :=
  (writeln ("Welcome to the File Manager, " +:+ name +:+ "!") none ;;;
   printCurrentWorkDir ;;;
   printProptForCommand)
    (mkState (mkSession workDir workDir false name) w []).

Definition isDirectory (w : Fs.System) (pathToDir : string) : bool :=
  match Fs.stat w pathToDir with
  | Some (Fs.Directory _) => true
  | _ => false
  end.

Definition isFile (w : Fs.System) (pathToFile : string) : bool :=
  match Fs.stat w pathToFile with
  | Some (Fs.File _) => true
  | _ => false
  end.

(** [#ifAbsolutePathOK]. *)
Definition ifAbsolutePathOK (absolutePath : string)
    (checkDirectoryExistance : bool) : M unit :=
  s <- getSession ;;
  w <- getSystem ;;
  if isEmpty absolutePath then throw PathToDirNotSet
  else if negb (Path.isAbsolute absolutePath) then
    throw (PathNotAbsolute absolutePath)
  else if checkDirectoryExistance && negb (isDirectory w absolutePath) then
    throw (DirDoesNotExist absolutePath)
  else if negb (startsWith (toLowerCase absolutePath)
                  (toLowerCase (rootWorkDir s))) then
    throw UpperThanRoot
  else ret tt.

(** [#ifFileOK]. *)
Definition ifFileOK (pathToFile : string)
    (checkFileExistance checkFileNonExistance : bool) : M unit :=
  s <- getSession ;;
  w <- getSystem ;;
  if isEmpty pathToFile then throw PathToFileNotSet
  else
    let fullFilePath :=
      Path.resolve (Fs.cwd w) [currentWorkDir s; pathToFile] in
    let fullFileDirname := Path.dirname fullFilePath in
    if checkFileExistance && negb (isFile w fullFilePath) then
      throw (FileDoesNotExist fullFilePath)
    else if checkFileNonExistance && isFile w fullFilePath then
      throw (FileAlreadyExists fullFilePath)
    else ifAbsolutePathOK fullFileDirname true.

(** The guard every handler starts with:
    [!p?.length || p.length !== n || p[0] !== command]. *)
Definition badCall (commandWithParams : list string) (n : nat)
    (command : string) : bool :=
  (length commandWithParams =? 0)%nat
  || negb (length commandWithParams =? n)%nat
  || negb (bool_decide (commandWithParams !! 0%nat = Some command)).

(** [commandWithParams[i]], read below the length the guard has checked. *)
Definition param (commandWithParams : list string) (i : nat) : string :=
  default EmptyString (commandWithParams !! i).

(** [path.resolve(this.#currentWorkDir, this.#unbraketString(p[i]))]. *)
Definition resolveParam (commandWithParams : list string) (i : nat)
    : M string :=
  s <- getSession ;;
  w <- getSystem ;;
  ret (Path.resolve (Fs.cwd w)
         [currentWorkDir s; unbraketString (param commandWithParams i)]).

(** *** General operations *)

Definition exit (commandWithParams : list string) : M unit :=
  if badCall commandWithParams 1 COMMANDS.exit then showInvalidInputMessage
  else close.

(** *** Directory operations *)

Definition goUpper (commandWithParams : list string) : M unit :=
  if badCall commandWithParams 1 COMMANDS.goUpper then
    showInvalidInputMessage
  else
    s <- getSession ;;
    w <- getSystem ;;
    if String.eqb (currentWorkDir s) (rootWorkDir s) then ret tt
    else
      setCurrentWorkDir (Path.resolve (Fs.cwd w) [currentWorkDir s; ".."]).

Definition changeDir (commandWithParams : list string) : M unit :=
  if badCall commandWithParams 2 COMMANDS.changeDir then
    showInvalidInputMessage
  else
    nextDir <- resolveParam commandWithParams 1 ;;
    ifAbsolutePathOK nextDir true ;;;
    setCurrentWorkDir nextDir.

(** The comparator given to [sort] in [#listDir]. *)
Definition compareListed (a b : Js.Object) : Z :=
  if Js.truthy (Js.getProp a "isDirectory")
     && negb (Js.truthy (Js.getProp b "isDirectory")) then (-1)%Z
  else if negb (Js.truthy (Js.getProp a "isDirectory"))
          && Js.truthy (Js.getProp b "isDirectory") then 1%Z
  else if Js.lessThan (Js.getProp a "name") (Js.getProp b "name") then (-1)%Z
  else if Js.greaterThan (Js.getProp a "name") (Js.getProp b "name") then 1%Z
  else 0%Z.

(** The objects [#listDir] builds, sorts and completes with [Type]. *)
Definition listedObjects (w : Fs.System) (dir : string)
    (elements : list string) : list Js.Object :=
  let objects :=
    map (fun element : string =>
           <["Name" := Js.VString element]>
             (<["isDirectory" :=
                  Js.VBool (isDirectory w (Path.join dir element))]>
                (∅ : Js.Object)))
        elements in
  let objects := Js.sort compareListed objects in
  map (fun object : Js.Object =>
         let objectType :=
           if Js.truthy (Js.getProp object "isDirectory")
           then "directory" else "file" in
         <["Type" := Js.VString objectType]> object)
      objects.

Definition listDir (commandWithParams : list string) : M unit :=
  if badCall commandWithParams 1 COMMANDS.listDir then
    showInvalidInputMessage
  else
    s <- getSession ;;
    w <- getSystem ;;
    elements <- liftFs "scandir" (currentWorkDir s)
                  (Fs.readdir w (currentWorkDir s)) ;;
    printTable (listedObjects w (currentWorkDir s) elements)
      ["Name"; "Type"].

(** *** File operations *)

Definition printFileContent (commandWithParams : list string) : M unit :=
  if badCall commandWithParams 2 COMMANDS.printFileContent then
    showInvalidInputMessage
  else
    pathToFile <- resolveParam commandWithParams 1 ;;
    ifFileOK pathToFile true false ;;;
    w <- getSystem ;;
    (* the read stream: its error rejects the promise, each of its
       ['data'] events is written, its end writes the end of line *)
    content <- liftFs "open" pathToFile (Fs.readFile w pathToFile) ;;
    forEach (dataEvents content) writeText ;;;
    writeln EmptyString none.

Definition createEmptyFile (commandWithParams : list string) : M unit :=
  if badCall commandWithParams 2 COMMANDS.createEmptyFile then
    showInvalidInputMessage
  else
    pathToFile <- resolveParam commandWithParams 1 ;;
    ifFileOK pathToFile false true ;;;
    w <- getSystem ;;
    w' <- liftFs "open" pathToFile (Fs.writeFile w pathToFile []) ;;
    setSystem w'.

Definition renameFile (commandWithParams : list string) : M unit :=
  if badCall commandWithParams 3 COMMANDS.renameFile then
    showInvalidInputMessage
  else
    filePath <- resolveParam commandWithParams 1 ;;
    newFilePath <- resolveParam commandWithParams 2 ;;
    ifFileOK filePath true false ;;;
    ifFileOK newFilePath false true ;;;
    w <- getSystem ;;
    w' <- liftFsTwoPaths "rename" filePath newFilePath
            (Fs.rename w filePath newFilePath) ;;
    setSystem w'.

(** A stream that fails with no ['error'] listener registered on it. *)
Definition unhandled {A} (syscall path : string) (r : Fs.Errno + A) : M A :=
  match r with
  | inr a => ret a
  | inl e => uncaught (SysError e syscall path)
  end.

(** [#createCopyingPromise]: a read stream with the ['utf-8'] encoding
    piped into a write stream; the promise is fulfilled on ['finish'] and
    no ['error'] listener is registered on either stream. *)
Definition createCopyingPromise (filePath newFilePath : string) : M unit :=
  w <- getSystem ;;
  content <- unhandled "open" filePath (Fs.readFile w filePath) ;;
  w' <- unhandled "open" newFilePath
          (Fs.writeFile w newFilePath (Utf8.recode content)) ;;
  setSystem w'.

Definition copyFile (commandWithParams : list string) : M unit :=
  if badCall commandWithParams 3 COMMANDS.copyFile then
    showInvalidInputMessage
  else
    filePath <- resolveParam commandWithParams 1 ;;
    newFilePath <- resolveParam commandWithParams 2 ;;
    ifFileOK filePath true false ;;;
    ifFileOK newFilePath false true ;;;
    createCopyingPromise filePath newFilePath.

Definition moveFile (commandWithParams : list string) : M unit :=
  if badCall commandWithParams 3 COMMANDS.moveFile then
    showInvalidInputMessage
  else
    filePath <- resolveParam commandWithParams 1 ;;
    newFilePath <- resolveParam commandWithParams 2 ;;
    ifFileOK filePath true false ;;;
    ifFileOK newFilePath false true ;;;
    createCopyingPromise filePath newFilePath ;;;
    w <- getSystem ;;
    w' <- liftFs "unlink" filePath (Fs.unlink w filePath) ;;
    setSystem w'.

Definition deleteFile (commandWithParams : list string) : M unit :=
  if badCall commandWithParams 2 COMMANDS.deleteFile then
    showInvalidInputMessage
  else
    pathToFile <- resolveParam commandWithParams 1 ;;
    ifFileOK pathToFile true false ;;;
    w <- getSystem ;;
    w' <- liftFs "unlink" pathToFile (Fs.unlink w pathToFile) ;;
    setSystem w'.

(** *** System operations *)

(** [#getOSCommandParameter]; [None] is [null]. *)
Definition getOSCommandParameter (commandWithParams : list string)
    : option string :=
  if (length commandWithParams =? 0)%nat
     || (2 <? length commandWithParams)%nat
     || negb (bool_decide (commandWithParams !! 0%nat = Some COMMANDS.os))
  then None
  else
    match commandWithParams !! 1%nat with
    | Some p => if bool_decide (p ∈ OS_COMMANDS.values) then Some p else None
    | None => None
    end.

(** [JSON.stringify(os.EOL)], the end of line of a POSIX system. *)
Definition getEOL : M unit :=
  writeln (String DQUOTE ("\n" +:+ String DQUOTE EmptyString)) none.

Definition getCPUsInfo : M unit :=
  w <- getSystem ;;
  printTable
    (map (fun el : string * string =>
            <["speed" := Js.VString (snd el +:+ " GHz")]>
              (<["model" := Js.VString (fst el)]> (∅ : Js.Object)))
         (Fs.cpus w))
    ["model"; "speed"].

Definition getHomeDir : M unit :=
  s <- getSession ;; writeln (rootWorkDir s) none.

Definition getUserName : M unit :=
  s <- getSession ;; writeln (userName s) none.

Definition getCPUArchitecture : M unit :=
  w <- getSystem ;; writeln (Fs.arch w) none.

(** The [os] case of the dispatcher's [switch]. *)
Definition osCommand (commandWithParams : list string) : M unit :=
  match getOSCommandParameter commandWithParams with
  | Some commandParameter =>
      if String.eqb commandParameter OS_COMMANDS.getDefaultSystemEOL then
        getEOL
      else if String.eqb commandParameter OS_COMMANDS.getSystemCPUsInfo then
        getCPUsInfo
      else if String.eqb commandParameter OS_COMMANDS.getHomeDir then
        getHomeDir
      else if String.eqb commandParameter OS_COMMANDS.getUserName then
        getUserName
      else if String.eqb commandParameter OS_COMMANDS.getCPUArchitecture then
        getCPUArchitecture
      else showInvalidInputMessage
  | None => showInvalidInputMessage
  end.

(** *** Hash operations *)

Definition getFileHash (commandWithParams : list string) : M unit :=
  if badCall commandWithParams 2 COMMANDS.getFileHash then
    showInvalidInputMessage
  else
    pathToFile <- resolveParam commandWithParams 1 ;;
    ifFileOK pathToFile true false ;;;
    w <- getSystem ;;
    content <- liftFs "open" pathToFile (Fs.readFile w pathToFile) ;;
    writeln (sha256Hex content) none.

(** *** Compress and decompress operations *)

(** The source is read with the ['utf-8'] encoding; only the write stream
    has an ['error'] listener, which rejects the promise. *)
Definition compressFile (commandWithParams : list string) : M unit :=
  if badCall commandWithParams 3 COMMANDS.compressFile then
    showInvalidInputMessage
  else
    initialFilePath <- resolveParam commandWithParams 1 ;;
    compressedFilePath <- resolveParam commandWithParams 2 ;;
    ifFileOK initialFilePath true false ;;;
    ifFileOK compressedFilePath false true ;;;
    w <- getSystem ;;
    content <- unhandled "open" initialFilePath
                 (Fs.readFile w initialFilePath) ;;
    w' <- liftFs "open" compressedFilePath
            (Fs.writeFile w compressedFilePath
               (brotliCompress (Utf8.recode content))) ;;
    setSystem w'.

(** The source is read as bytes.  A failure of the decompressor is an
    ['error'] of the transform stream, which has no listener; the
    destination has been opened by then, and what was written to it
    before the failure is not modelled. *)
Definition decompressFile (commandWithParams : list string) : M unit :=
  if badCall commandWithParams 3 COMMANDS.decompressFile then
    showInvalidInputMessage
  else
    compressedFilePath <- resolveParam commandWithParams 1 ;;
    decompressedFilePath <- resolveParam commandWithParams 2 ;;
    ifFileOK compressedFilePath true false ;;;
    ifFileOK decompressedFilePath false true ;;;
    w <- getSystem ;;
    content <- unhandled "open" compressedFilePath
                 (Fs.readFile w compressedFilePath) ;;
    match brotliDecompress content with
    | Some data =>
        w' <- liftFs "open" decompressedFilePath
                (Fs.writeFile w decompressedFilePath data) ;;
        setSystem w'
    | None =>
        match Fs.writeFile w decompressedFilePath [] with
        | inr w' => setSystem w' ;;; uncaught DecompressionFailed
        | inl _ => uncaught DecompressionFailed
        end
    end.

(** *** The dispatcher *)

(** The [switch] of [#handleUserInput] on [_commandWithParams[0]]. *)
Definition dispatch (commandWithParams : list string) : M unit :=
  let command := commandWithParams !! 0%nat in
  let selects (name : string) := bool_decide (command = Some name) in
  if selects COMMANDS.exit then exit commandWithParams
  else if selects COMMANDS.goUpper then goUpper commandWithParams
  else if selects COMMANDS.changeDir then changeDir commandWithParams
  else if selects COMMANDS.listDir then listDir commandWithParams
  else if selects COMMANDS.printFileContent then printFileContent commandWithParams
  else if selects COMMANDS.createEmptyFile then createEmptyFile commandWithParams
  else if selects COMMANDS.renameFile then renameFile commandWithParams
  else if selects COMMANDS.copyFile then copyFile commandWithParams
  else if selects COMMANDS.moveFile then moveFile commandWithParams
  else if selects COMMANDS.deleteFile then deleteFile commandWithParams
  else if selects COMMANDS.os then osCommand commandWithParams
  else if selects COMMANDS.getFileHash then getFileHash commandWithParams
  else if selects COMMANDS.compressFile then compressFile commandWithParams
  else if selects COMMANDS.decompressFile then decompressFile commandWithParams
  else showInvalidInputMessage.

(** [#handleUserInput]. *)
Definition handleUserInput (inputs : string) : M unit :=
  s <- getSession ;;
  if ignoreStdin s then ret tt
  else
    let _commandWithParams := getCommandWithParameters inputs in
    if (length _commandWithParams =? 0)%nat then ret tt
    else
      tryCatchFinally
        (dispatch _commandWithParams)
        (fun e => showOperationFailedMessage (message e))
        (printCurrentWorkDir ;;; printProptForCommand).

(** The lines of a session, one after the other; the session goes on as
    long as the handling of a line returns. *)
Fixpoint handleLines (lines : list string) : M unit :=
  match lines with
  | [] => ret tt
  | inputs :: more => handleUserInput inputs ;;; handleLines more
  end.

End FileManager.

(** ** A concrete system, for examples

    The home directory [/home/user] holds two files and a directory and
    has a sibling directory [/home/user2]. *)

Module Sample.

(** A codec that frames the data with one leading byte. *)
Definition frameCodec : Codec :=
  mkCodec (fun data => 206%Z :: data)
          (fun data =>
             match data with
             | 206%Z :: rest => Some rest
             | _ => None
             end).

(** A digest that renders the length of the content in unary. *)
Definition lengthDigest : Digest :=
  mkDigest (fun content => string_of_list_ascii (map (fun _ => "1"%char) content)).

(** A stream that delivers the text of the sequences that are complete
    in one event and, when the content ends inside a sequence, the
    replacement character in another. *)
Definition event (text : list Z) : list (list Z) :=
  match text with [] => [] | _ => [text] end.

Definition flushingStream : ReadStream :=
  mkReadStream (fun content =>
                  let '(text, held) := Utf8.decodeBuffer None content in
                  event text ++ event (Utf8.flush held)).

Definition home : string := "/home/user".

Definition nodes : gmap string Fs.Node :=
  list_to_map
    [("/", Fs.Directory ["home"]);
     ("/home", Fs.Directory ["user"; "user2"]);
     ("/home/user", Fs.Directory ["b.txt"; "sub"; "a.txt"; "raw.bin"]);
     ("/home/user/a.txt", Fs.File [104; 105]%Z);
     ("/home/user/b.txt", Fs.File []);
     ("/home/user/raw.bin", Fs.File [255]%Z);
     ("/home/user/sub", Fs.Directory []);
     ("/home/user2", Fs.Directory [])].

Definition system : Fs.System :=
  Fs.mkSystem nodes "/" [("cpu", "2400")] "x64".

(** The session right after its creation, the terminal cleared. *)
Definition initial : State :=
  mkState (mkSession home home false "tester") system [].

(** The session after the given lines. *)
Definition after (lines : list string) : State * Outcome unit :=
  @handleLines frameCodec lengthDigest flushingStream lines initial.

End Sample.

(** ** Vocabulary of the properties

    The definitions below are not translations of the source: they state
    what the specification says, to be compared with the code. *)

Module TokenizerSpec.

(** The bracket mode after the character [c], read in mode [q]. *)
Definition toggle (c : ascii) (q : bool) : bool :=
  if charIsBracket c then negb q else q.

(** A space read outside brackets separates tokens. *)
Definition separates (c : ascii) (q : bool) : bool :=
  Ascii.eqb c SPACE && negb (toggle c q).

(** The line without its separating spaces. *)
Fixpoint dropUnquotedSpaces (s : string) (q : bool) : string :=
  match s with
  | EmptyString => EmptyString
  | String c rest =>
      if separates c q then dropUnquotedSpaces rest (toggle c q)
      else String c (dropUnquotedSpaces rest (toggle c q))
  end.

(** Every space of [t], read from mode [q], is inside brackets. *)
Fixpoint spacesQuoted (t : string) (q : bool) : bool :=
  match t with
  | EmptyString => true
  | String c rest => negb (separates c q) && spacesQuoted rest (toggle c q)
  end.

Definition consNonEmpty (t : string) (l : list string) : list string :=
  if nonEmpty t then t :: l else l.

(** Splitting on the separating spaces, from the right: the token under
    way at the head of [s] and the tokens after it. *)
Fixpoint tokensFrom (s : string) (q : bool) : string * list string :=
  match s with
  | EmptyString => (EmptyString, [])
  | String c rest =>
      let '(cur, later) := tokensFrom rest (toggle c q) in
      if separates c q then (EmptyString, consNonEmpty cur later)
      else (String c cur, later)
  end.

Definition splitOnUnquotedSpaces (s : string) : list string :=
  let '(cur, later) := tokensFrom s false in consNonEmpty cur later.

End TokenizerSpec.

(** The characters of [str] between the first and the last one. *)
Definition withoutFirstAndLast (str : string) : string :=
  substring 1 (String.length str - 2) str.

(** The test of [#unbraketString] as the specification words it: the first
    character is a quote and the last character equals it. *)
Definition wrappedInQuotes (str : string) : bool :=
  match str with
  | EmptyString => false
  | String first _ =>
      charIsBracket first
      && bool_decide (String.get (String.length str - 1) str = Some first)
  end.

(** The arity of each command in the table of the specification: the
    number of arguments after the command name. *)
Definition arityTable : list (string * nat) :=
  [(".exit", 0); ("up", 0); ("cd", 1); ("ls", 0); ("cat", 1); ("add", 1);
   ("rn", 2); ("cp", 2); ("mv", 2); ("rm", 1); ("os", 1); ("hash", 1);
   ("compress", 2); ("decompress", 2)]%nat.

(** The state with more written on the terminal and nothing else changed. *)
Definition appendTerminal (st : State) (outputs : list Output) : State :=
  mkState (session st) (system st) (terminal st ++ outputs).

(** The state with another file system and nothing else changed. *)
Definition onSystem (st : State) (w : Fs.System) : State :=
  mkState (session st) w (terminal st).

(** The path a handler makes of an argument. *)
Definition pathOf (st : State) (token : string) : string :=
  Path.resolve (Fs.cwd (system st))
    [currentWorkDir (session st); unbraketString token].

(** The preconditions of the handlers that write [dst] from [src]: both
    paths pass the validation and nothing exists at the destination. *)
Definition readyToWrite (st : State) (src dst : string) : Prop :=
  ifFileOK src true false st = (st, Returned tt)
  /\ ifFileOK dst false true st = (st, Returned tt)
  /\ Fs.stat (system st) dst = None.

(** The lines the dispatcher writes. *)
Definition invalidInputLine : Output :=
  Written (outputStringOf "Invalid input" error true).

Definition operationFailedLine (e : Err) : Output :=
  Written (outputStringOf ("Operation failed: " +:+ message e) error true).

Definition currentDirLine (dir : string) : Output :=
  Written (outputStringOf ("You are currently in " +:+ dir) currDirMessage true).

Definition promptLine : Output :=
  Written (outputStringOf "> Print command:" none true).

(** The object [#listDir] makes of a directory entry. *)
Definition entryObject (name : string) (directory : bool) : Js.Object :=
  <["Name" := Js.VString name]>
    (<["isDirectory" := Js.VBool directory]> (∅ : Js.Object)).

Definition entriesOf (l : list (string * bool)) : list Js.Object :=
  map (fun e => entryObject (fst e) (snd e)) l.

(** What the handlers leave alone.  [Quiet]: the input flag is lowered
    again, root and user name are kept; [KeepsDir]: the current directory
    is kept; [Caught]: no stream fails without a listener. *)
Definition Quiet {A} (m : M A) : Prop :=
  forall st,
    ignoreStdin (session st) = false ->
    ignoreStdin (session (fst (m st))) = false
    /\ rootWorkDir (session (fst (m st))) = rootWorkDir (session st)
    /\ userName (session (fst (m st))) = userName (session st).

Definition KeepsDir {A} (m : M A) : Prop :=
  forall st,
    currentWorkDir (session (fst (m st))) = currentWorkDir (session st).

Definition Caught {A} (m : M A) : Prop :=
  forall st e, snd (m st) <> Uncaught e.

(** The commands that navigate, and the commands that pipe one file into
    another. *)
Definition navigationCommands : list string :=
  [COMMANDS.goUpper; COMMANDS.changeDir].

Definition pipingCommands : list string :=
  [COMMANDS.copyFile; COMMANDS.moveFile; COMMANDS.compressFile;
   COMMANDS.decompressFile].

(** The command of a line: its first token. *)
Definition commandOf (inputs : string) : option string :=
  getCommandWithParameters inputs !! 0%nat.

(** ** The start of the program *)

(** [src/cli/program-arguments/getUserName.js]. *)
Module ProgramArguments.

Definition WRONG_COMMAND_LINE_ARGUMENTS : string :=
  "Wrong command line arguments!".
Definition USERNAME_COMMAND_LINE_ARG_NAME : string := "username".
Definition UNKNOWN_USERNAME : string := "Unknown".
Definition EQUALS : ascii := "="%char.

(** [s.split(sep)] for a separator of one character; never the empty
    list. *)
Fixpoint split (sep : ascii) (s : string) : list string :=
  match s with
  | EmptyString => [EmptyString]
  | String c s' =>
      let r := split sep s' in
      if Ascii.eqb c sep then EmptyString :: r
      else String c (hd EmptyString r) :: tl r
  end.

(** A parsed argument, [{ name, value }]. *)
Record Argument := mkArgument { name : string; value : string }.

(** The function mapped over the arguments by [parseCommandLineArgs];
    [inl] is the message of the error thrown. *)
Definition parseArgument (el : string) : string + Argument :=
  let nameAndValue := split EQUALS el in
  let name0 := default EmptyString (nameAndValue !! 0%nat) in
  if negb (length nameAndValue =? 2)%nat
     || negb (startsWith name0 "--")
     || (String.length name0 =? 2)%nat
  then inl WRONG_COMMAND_LINE_ARGUMENTS
  else inr (mkArgument (sliceFrom name0 2)
              (default EmptyString (nameAndValue !! 1%nat))).

(** [argsArray.map(...)], ended by the first error thrown. *)
Fixpoint mapArguments (els : list string) : string + list Argument :=
  match els with
  | [] => inr []
  | el :: rest =>
      match parseArgument el with
      | inl e => inl e
      | inr a =>
          match mapArguments rest with
          | inl e => inl e
          | inr l => inr (a :: l)
          end
      end
  end.

Definition parseCommandLineArgs (args : list string) : string + list Argument :=
  if (length args =? 0)%nat then inr []
  else
    let argsArray := drop 2 args in
    if (length argsArray =? 0)%nat then inr []
    else mapArguments argsArray.

Definition checkParsedCommandLineArgs (argsArray : list Argument)
    : string + unit :=
  if negb (length argsArray =? 1)%nat
     || negb (bool_decide (name <$> argsArray !! 0%nat
                           = Some USERNAME_COMMAND_LINE_ARG_NAME))
  then inl WRONG_COMMAND_LINE_ARGUMENTS
  else inr tt.

Definition getUserName (args : list string) : string + string :=
  match parseCommandLineArgs args with
  | inl e => inl e
  | inr argsArray =>
      match checkParsedCommandLineArgs argsArray with
      | inl e => inl e
      | inr _ =>
          inr (match List.find
                       (fun el => String.eqb (name el)
                                    USERNAME_COMMAND_LINE_ARG_NAME)
                       argsArray with
               | Some el =>
                   if nonEmpty (value el) then value el else UNKNOWN_USERNAME
               | None => UNKNOWN_USERNAME
               end)
      end
  end.

End ProgramArguments.

(** The main script: the user name is taken from the arguments of the
    process, an error of [getUserName] is written in red on the standard
    output and leaves the name unknown, and the file manager is created in
    the home directory ([os.homedir()]). *)
Definition main (argv : list string) (homedir : string) (w : Fs.System)
    : State * Outcome unit :=
  let '(written, name) :=
    match ProgramArguments.getUserName argv with
    | inr name => ([], name)
    | inl errorMessage =>
        ([Written (outputStringOf errorMessage error true)],
         ProgramArguments.UNKNOWN_USERNAME)
    end in
  let '(st, outcome) := start w homedir name in
  (mkState (session st) (system st) (written ++ terminal st), outcome).

(** ** More vocabulary *)

(** [KeepsRoot]: root directory and user name are kept; [KeepsSystem]: the
    file system is kept. *)
Definition KeepsRoot {A} (m : M A) : Prop :=
  forall st,
    rootWorkDir (session (fst (m st))) = rootWorkDir (session st)
    /\ userName (session (fst (m st))) = userName (session st).

Definition KeepsSystem {A} (m : M A) : Prop :=
  forall st, system (fst (m st)) = system st.

(** The commands that write to the file system. *)
Definition writingCommands : list string :=
  [COMMANDS.createEmptyFile; COMMANDS.renameFile; COMMANDS.copyFile;
   COMMANDS.moveFile; COMMANDS.deleteFile; COMMANDS.compressFile;
   COMMANDS.decompressFile].

(** The names the dispatcher knows. *)
Definition commandNames : list string := map fst arityTable.

(** The farewell of [close]. *)
Definition farewellLine (name : string) : Output :=
  Written (outputStringOf
             ("Thank you for using File Manager, " +:+ name +:+ ", goodbye!")
             none true).

(** A character occurs in a string. *)
Fixpoint occurs (c : ascii) (s : string) : bool :=
  match s with
  | EmptyString => false
  | String a s' => Ascii.eqb a c || occurs c s'
  end.

(** A path segment [normalizeString] keeps as it is: not empty, neither
    [.] nor [..], and free of separators. *)
Definition plainSegment (seg : string) : Prop :=
  isEmpty seg = false /\ seg <> "." /\ seg <> ".." /\ occurs SLASH seg = false.

(** The validations each file command makes, in the order its handler
    makes them: the index of the argument and the flags
    [checkFileExistance] and [checkFileNonExistance]. *)
Definition validationTable : list (string * list (nat * bool * bool)) :=
  [("cat", [(1, true, false)]);
   ("add", [(1, false, true)]);
   ("rn", [(1, true, false); (2, false, true)]);
   ("cp", [(1, true, false); (2, false, true)]);
   ("mv", [(1, true, false); (2, false, true)]);
   ("rm", [(1, true, false)]);
   ("hash", [(1, true, false)]);
   ("compress", [(1, true, false); (2, false, true)]);
   ("decompress", [(1, true, false); (2, false, true)])]%nat.

(** The error of the first validation that fails, if one does. *)
Fixpoint firstRejection (st : State) (params : list string)
    (checks : list (nat * bool * bool)) : option Err :=
  match checks with
  | [] => None
  | (i, ce, cne) :: rest =>
      match snd (ifFileOK (pathOf st (param params i)) ce cne st) with
      | Thrown e => Some e
      | _ => firstRejection st params rest
      end
  end.

(** The state with another current directory. *)
Definition withCurrentWorkDir (st : State) (dir : string) : State :=
  mkState (mkSession (rootWorkDir (session st)) dir
             (ignoreStdin (session st)) (userName (session st)))
    (system st) (terminal st).

(** What [cat] writes for a content: the text of each event of the
    stream, and an end of line. *)
Definition shownContent {stream : ReadStream} (content : list Z)
    : list Output :=
  map WrittenText (dataEvents content)
  ++ [Written (outputStringOf EmptyString none true)].

(** The text of the file among the outputs, the writes put end to end. *)
Fixpoint textWritten (outputs : list Output) : list Z :=
  match outputs with
  | [] => []
  | WrittenText text :: later => text ++ textWritten later
  | _ :: later => textWritten later
  end.


(** Words and quoted arguments, for the tokenizer. *)

(** No character of [s] is white space or a quote. *)
Fixpoint plainChars (s : string) : bool :=
  match s with
  | EmptyString => true
  | String c s' =>
      negb (isWhiteSpace c) && negb (charIsBracket c) && plainChars s'
  end.

(** A word: not empty, free of white space and of quote characters. *)
Definition plainWord (t : string) : Prop :=
  t <> EmptyString /\ plainChars t = true.

(** No character of [s] is a quote. *)
Fixpoint quoteFree (s : string) : bool :=
  match s with
  | EmptyString => true
  | String c s' => negb (charIsBracket c) && quoteFree s'
  end.

(** [body] between two quote characters [q]. *)
Definition quoted (q : ascii) (body : string) : string :=
  String q (body +:+ String q EmptyString).

(** The last character of [s], if there is one, is not white space. *)
Fixpoint lastNotWhite (s : string) : bool :=
  match s with
  | EmptyString => true
  | String c s' =>
      if isEmpty s' then negb (isWhiteSpace c) else lastNotWhite s'
  end.

(** An argument as a user types it: a word, or a body between quotes. *)
Inductive LineArgument :=
| Word (t : string)
| Quoted (q : ascii) (body : string).

(** The characters typed for the argument, and the text it stands for. *)
Definition typed (a : LineArgument) : string :=
  match a with
  | Word t => t
  | Quoted q body => quoted q body
  end.

Definition meant (a : LineArgument) : string :=
  match a with
  | Word t => t
  | Quoted _ body => body
  end.

Definition wellFormed (a : LineArgument) : Prop :=
  match a with
  | Word t => plainWord t
  | Quoted q body => charIsBracket q = true /\ quoteFree body = true
  end.

(** Every character of [s] is white space. *)
Fixpoint allWhite (s : string) : bool :=
  match s with
  | EmptyString => true
  | String c s' => isWhiteSpace c && allWhite s'
  end.

(** The code points a sequence under way can still complete to: with [k]
    continuation bytes to come, the first in the range of the sequence, they
    lie between [lowest] and [highest]. *)
Definition span (k : nat) : Z :=
  match k with
  | 1%nat => 1
  | 2%nat => 64
  | _ => 4096
  end%Z.

Definition lowest (p : Utf8.Pending) : Z :=
  ((Utf8.codePoint p * 64 + (Utf8.lower p - 0x80))
   * span (Utf8.bytesNeeded p))%Z.

Definition highest (p : Utf8.Pending) : Z :=
  ((Utf8.codePoint p * 64 + (Utf8.upper p - 0x80))
   * span (Utf8.bytesNeeded p) + span (Utf8.bytesNeeded p) - 1)%Z.

(** A sequence under way completes to scalar values only. *)
Definition completes (p : Utf8.Pending) : Prop :=
  (1 <= Utf8.bytesNeeded p <= 3)%nat
  /\ (0x80 <= Utf8.lower p /\ Utf8.upper p <= 0xBF)%Z
  /\ (0 <= lowest p /\ highest p <= 0x10FFFF)%Z
  /\ (highest p < 0xD800 \/ 0xDFFF < lowest p)%Z.

(** * Properties *)

(** ** The model on small inputs *)

Example tokens_cp :
  getCommandWithParameters "cp 'a b.txt' c.txt" = ["cp"; "'a b.txt'"; "c.txt"].
Proof. vm_compute. reflexivity. Qed.

Example tokens_spaces :
  getCommandWithParameters "   rn   a.txt    b.txt  " = ["rn"; "a.txt"; "b.txt"].
Proof. vm_compute. reflexivity. Qed.

Example unbraket_ab : unbraketString "'a b.txt'" = "a b.txt".
Proof. vm_compute. reflexivity. Qed.

Example unbraket_mismatch : unbraketString "'a b.txt" = "'a b.txt".
Proof. vm_compute. reflexivity. Qed.

Example resolve_relative :
  Path.resolve "/" ["/home/user"; "../user2"] = "/home/user2".
Proof. vm_compute. reflexivity. Qed.

Example resolve_absolute_argument :
  Path.resolve "/" ["/home/user"; "/etc//x/./y/.."] = "/etc/x".
Proof. vm_compute. reflexivity. Qed.

Example resolve_above_root :
  Path.resolve "/" ["/home/user"; "../../../.."] = "/".
Proof. vm_compute. reflexivity. Qed.

Example resolve_from_cwd : Path.resolve "/w" ["a"; "../b/c/"] = "/w/b/c".
Proof. vm_compute. reflexivity. Qed.

Example dirname_file : Path.dirname "/home/user/a.txt" = "/home/user".
Proof. vm_compute. reflexivity. Qed.

Example dirname_top : Path.dirname "/home" = "/".
Proof. vm_compute. reflexivity. Qed.

Example dirname_two_slashes : Path.dirname "//a" = "//".
Proof. vm_compute. reflexivity. Qed.

Example dirname_relative : Path.dirname "a/b/" = "a".
Proof. vm_compute. reflexivity. Qed.

Example dirname_inner_slashes : Path.dirname "/a//b" = "/a/".
Proof. vm_compute. reflexivity. Qed.

Example join_entry : Path.join "/home/user" "x" = "/home/user/x".
Proof. vm_compute. reflexivity. Qed.

Example decode_euro : Utf8.decode [226; 130; 172]%Z = [8364]%Z.
Proof. reflexivity. Qed.

Example decode_truncated : Utf8.decode [226; 130]%Z = [Utf8.REPLACEMENT].
Proof. reflexivity. Qed.

(** The scenarios of the specification, in the sample system: [cd ..] from
    the root is refused, [cd sub] then [up] comes back to the root, and a
    second [add] of the same file is refused. *)
Example scenario_cd_dotdot :
  Sample.after ["cd .."]
  = (appendTerminal Sample.initial
       [operationFailedLine UpperThanRoot; currentDirLine Sample.home;
        promptLine],
     Returned tt).
Proof. vm_compute. reflexivity. Qed.

Example scenario_cd_sub_up :
  currentWorkDir (session (fst (Sample.after ["cd sub"]))) = "/home/user/sub"
  /\ currentWorkDir (session (fst (Sample.after ["cd sub"; "up"])))
     = "/home/user".
Proof. vm_compute. split; reflexivity. Qed.

Example scenario_add_twice :
  let st := fst (Sample.after ["add newfile.txt"; "add newfile.txt"]) in
  Fs.stat (system st) "/home/user/newfile.txt" = Some (Fs.File [])
  /\ terminal st
     = [currentDirLine Sample.home; promptLine;
        operationFailedLine (FileAlreadyExists "/home/user/newfile.txt");
        currentDirLine Sample.home; promptLine].
Proof. vm_compute. split; reflexivity. Qed.

(** ** The tokenizer *)

Import TokenizerSpec.

Create Rewrite HintDb str.

Lemma append_nil_l (t : string) : EmptyString +:+ t = t.
Proof. reflexivity. Qed.

Lemma append_cons (a : ascii) (s t : string) :
  String a s +:+ t = String a (s +:+ t).
Proof. reflexivity. Qed.

#[global] Hint Rewrite append_nil_l append_cons : str.

Lemma append_snoc (tmp : string) (c : ascii) (cur : string) :
  snoc tmp c +:+ cur = tmp +:+ String c cur.
Proof.
  unfold snoc. induction tmp as [|a tmp IH]; autorewrite with str;
    [reflexivity|].
  now rewrite IH.
Qed.

Lemma append_empty_r (s : string) : s +:+ EmptyString = s.
Proof. induction s as [|a s IH]; autorewrite with str; congruence. Qed.

Lemma nonEmpty_append_cons (tmp : string) (c : ascii) (cur : string) :
  nonEmpty (tmp +:+ String c cur) = true.
Proof. destruct tmp; reflexivity. Qed.

(** The loop of the tokenizer computes the split from the right. *)
Lemma scanParameters_tokensFrom (s : string) :
  forall params tmp q,
    scanParameters s params tmp q
    = params ++ consNonEmpty (tmp +:+ fst (tokensFrom s q))
                             (snd (tokensFrom s q)).
Proof.
  induction s as [|c rest IH]; intros params tmp q.
  - simpl. rewrite append_empty_r. unfold consNonEmpty.
    destruct (nonEmpty tmp); [reflexivity | now rewrite app_nil_r].
  - cbn [scanParameters tokensFrom].
    fold (toggle c q).
    destruct (tokensFrom rest (toggle c q)) as [cur later] eqn:Hrest.
    unfold separates.
    destruct (Ascii.eqb c SPACE) eqn:Hsp; cbn [negb andb].
    + destruct (toggle c q) eqn:Hq; cbn [negb fst snd].
      * rewrite IH, Hrest. cbn [fst snd]. now rewrite append_snoc.
      * destruct (nonEmpty tmp) eqn:Htmp.
        -- rewrite IH, Hrest. cbn [fst snd]. rewrite append_empty_r.
           unfold consNonEmpty at 2. rewrite Htmp.
           rewrite <- app_assoc. reflexivity.
        -- rewrite IH, Hrest. cbn [fst snd]. rewrite append_empty_r.
           destruct tmp; [|discriminate Htmp]. rewrite append_nil_l.
           unfold consNonEmpty at 2. cbn. reflexivity.
    + rewrite IH, Hrest. cbn [fst snd]. now rewrite append_snoc.
Qed.

Lemma getCommandWithParameters_split (input : string) :
  getCommandWithParameters input = splitOnUnquotedSpaces (trim input).
Proof.
  unfold getCommandWithParameters, splitOnUnquotedSpaces.
  destruct input as [|c input]; [reflexivity|].
  cbn [isEmpty]. rewrite scanParameters_tokensFrom.
  destruct (tokensFrom _ false); reflexivity.
Qed.

Lemma consNonEmpty_Forall (P : string -> Prop) t l :
  (t <> EmptyString -> P t) -> Forall P l -> Forall P (consNonEmpty t l).
Proof.
  intros Ht Hl. unfold consNonEmpty. destruct t; cbn; auto.
Qed.

Lemma tokensFrom_later_nonEmpty s :
  forall q, Forall (fun t => t <> EmptyString) (snd (tokensFrom s q)).
Proof.
  induction s as [|c rest IH]; intros q; cbn [tokensFrom]; [constructor|].
  specialize (IH (toggle c q)).
  destruct (tokensFrom rest (toggle c q)) as [cur later].
  destruct (separates c q); cbn [snd] in *; [|assumption].
  apply consNonEmpty_Forall; auto.
Qed.

Lemma tokensFrom_spacesQuoted s :
  forall q,
    spacesQuoted (fst (tokensFrom s q)) q = true
    /\ Forall (fun t => spacesQuoted t false = true) (snd (tokensFrom s q)).
Proof.
  induction s as [|c rest IH]; intros q; cbn [tokensFrom].
  - split; [reflexivity | constructor].
  - destruct (IH (toggle c q)) as [Hcur Hlater].
    destruct (tokensFrom rest (toggle c q)) as [cur later].
    cbn [fst snd] in *.
    destruct (separates c q) eqn:Hsep; cbn [fst snd].
    + split; [reflexivity|].
      apply consNonEmpty_Forall; [intros _ | assumption].
      unfold separates in Hsep. apply andb_true_iff in Hsep as [_ Hq].
      apply negb_true_iff in Hq. now rewrite Hq in Hcur.
    + split; [|assumption]. cbn [spacesQuoted]. now rewrite Hsep.
Qed.

Lemma concat_consNonEmpty t l :
  String.concat EmptyString (consNonEmpty t l)
  = t +:+ String.concat EmptyString l.
Proof.
  unfold consNonEmpty. destruct t as [|a t]; [reflexivity|].
  cbn [nonEmpty isEmpty negb]. destruct l; cbn; [now rewrite append_empty_r|].
  reflexivity.
Qed.

Lemma tokensFrom_concat s :
  forall q,
    fst (tokensFrom s q) +:+ String.concat EmptyString (snd (tokensFrom s q))
    = dropUnquotedSpaces s q.
Proof.
  induction s as [|c rest IH]; intros q; cbn [tokensFrom dropUnquotedSpaces].
  - reflexivity.
  - specialize (IH (toggle c q)).
    destruct (tokensFrom rest (toggle c q)) as [cur later].
    cbn [fst snd] in IH.
    destruct (separates c q); cbn [fst snd].
    + now rewrite concat_consNonEmpty.
    + rewrite append_cons. now rewrite IH.
Qed.

Lemma dropUnquotedSpaces_empty s :
  forall q, dropUnquotedSpaces s q = EmptyString ->
            forall c, In c (list_ascii_of_string s) -> c = SPACE.
Proof.
  induction s as [|a rest IH]; intros q H c Hin; [destruct Hin|].
  cbn [dropUnquotedSpaces] in H.
  destruct (separates a q) eqn:Hsep; [|discriminate H].
  destruct Hin as [<- | Hin]; [| eapply IH; eassumption].
  unfold separates in Hsep. apply andb_true_iff in Hsep as [Hsp _].
  now apply Ascii.eqb_eq in Hsp.
Qed.

Lemma trim_whitespace_free_head s c rest :
  trimStart s = String c rest -> isWhiteSpace c = false.
Proof.
  induction s as [|a s IH]; cbn [trimStart]; [discriminate|].
  destruct (isWhiteSpace a) eqn:Ha; [exact IH|].
  intros [= <- <-]. exact Ha.
Qed.

Lemma splitOnUnquotedSpaces_nil_iff s :
  (forall c rest, s = String c rest -> isWhiteSpace c = false) ->
  splitOnUnquotedSpaces s = [] <-> s = EmptyString.
Proof.
  intros Hhead. split; [|intros ->; reflexivity].
  unfold splitOnUnquotedSpaces. intros Hnil.
  pose proof (tokensFrom_concat s false) as Hcat.
  pose proof (tokensFrom_later_nonEmpty s false) as Hne.
  destruct (tokensFrom s false) as [cur later]. cbn [fst snd] in *.
  unfold consNonEmpty in Hnil.
  destruct cur as [|a cur]; [|discriminate Hnil].
  cbn [nonEmpty isEmpty negb] in Hnil. subst later.
  cbn in Hcat. symmetry in Hcat.
  destruct s as [|c rest]; [reflexivity|exfalso].
  specialize (Hhead c rest eq_refl).
  rewrite (dropUnquotedSpaces_empty _ _ Hcat c (or_introl eq_refl)) in Hhead.
  discriminate Hhead.
Qed.

Lemma trimEnd_head s c rest :
  trimEnd s = String c rest -> exists rest', s = String c rest'.
Proof.
  destruct s as [|a s]; cbn [trimEnd]; [discriminate|].
  destruct (isWhiteSpace a && isEmpty (trimEnd s)); [discriminate|].
  intros [= <- _]. eauto.
Qed.

Lemma trim_head_not_whitespace input c rest :
  trim input = String c rest -> isWhiteSpace c = false.
Proof.
  unfold trim. intros H. apply trimEnd_head in H as [rest' H].
  eapply trim_whitespace_free_head; eassumption.
Qed.

(** C3 (as amended): the tokenizer splits the trimmed line on the spaces
    read outside brackets and keeps the quote characters in the tokens;
    the quote pair is removed by [unbraketString], which the handlers
    apply to their path arguments.  For the line [cp 'a b.txt' c.txt] the
    tokens are [cp], ['a b.txt'] and [c.txt], which unwrap to [cp],
    [a b.txt] and [c.txt], and the path the handler resolves from the
    second one is that of [a b.txt]; the empty line has no token; a line with an
    unmatched quote is tokenized like any other: every token is non-empty,
    has all its spaces inside brackets, the tokens together are the line
    without its separating spaces, and there is a token as soon as the
    line has a character that is not white space. *)
Theorem C3_tokenizer_keeps_quotes :
  getCommandWithParameters "cp 'a b.txt' c.txt" = ["cp"; "'a b.txt'"; "c.txt"]
  /\ map unbraketString (getCommandWithParameters "cp 'a b.txt' c.txt")
     = ["cp"; "a b.txt"; "c.txt"]
  /\ resolveParam (getCommandWithParameters "cp 'a b.txt' c.txt") 1
       Sample.initial
     = (Sample.initial, Returned "/home/user/a b.txt")
  /\ getCommandWithParameters EmptyString = []
  /\ getCommandWithParameters "cat 'a b" = ["cat"; "'a b"]
  /\ forall input,
       let tokens := getCommandWithParameters input in
       tokens = splitOnUnquotedSpaces (trim input)
       /\ Forall (fun t => t <> EmptyString) tokens
       /\ Forall (fun t => spacesQuoted t false = true) tokens
       /\ String.concat EmptyString tokens
          = dropUnquotedSpaces (trim input) false
       /\ (tokens = [] <-> trim input = EmptyString).
Proof.
  do 5 (split; [vm_compute; reflexivity|]).
  intros input tokens. subst tokens.
  rewrite getCommandWithParameters_split.
  split; [reflexivity|].
  pose proof (tokensFrom_later_nonEmpty (trim input) false) as Hne.
  destruct (tokensFrom_spacesQuoted (trim input) false) as [Hc Hl].
  pose proof (tokensFrom_concat (trim input) false) as Hcat.
  pose proof (splitOnUnquotedSpaces_nil_iff (trim input)
                (trim_head_not_whitespace input)) as Hnil.
  unfold splitOnUnquotedSpaces in *.
  destruct (tokensFrom (trim input) false) as [cur later].
  cbn [fst snd] in *.
  repeat split; try (apply consNonEmpty_Forall; now auto); try apply Hnil.
  now rewrite concat_consNonEmpty.
Qed.

(** The tokens of [cp 'a b.txt' c.txt] are not the unwrapped ones. *)
Lemma C3_tokens_still_quoted :
  getCommandWithParameters "cp 'a b.txt' c.txt" <> ["cp"; "a b.txt"; "c.txt"].
Proof. vm_compute. discriminate. Qed.

(** ** Unwrapping *)

Lemma substring_all (s : string) : substring 0 (String.length s) s = s.
Proof. induction s as [|a s IH]; cbn; congruence. Qed.


Lemma unbraketString_cases (str : string) :
  unbraketString str
  = if wrappedInQuotes str then withoutFirstAndLast str else str.
Proof.
  destruct str as [|first rest]; [reflexivity|].
  unfold unbraketString, wrappedInQuotes, withoutFirstAndLast, charAt.
  change (isEmpty (String first rest)) with false.
  change (String.get 0 (String first rest)) with (Some first).
  cbv iota.
  destruct (charIsBracket first); cbn [negb andb]; [|reflexivity].
  set (n := String.length (String first rest) - 1).
  destruct (decide (String.get n (String first rest) = Some first))
    as [Heq|Hne].
  - rewrite (bool_decide_eq_true_2 (Some first = _)) by congruence.
    rewrite (bool_decide_eq_true_2 (_ = Some first)) by congruence.
    cbn [negb].
    unfold sliceFrom, slice. cbn [String.length substring].
    replace (S (String.length rest) - 1) with (String.length rest) by lia.
    rewrite substring_all.
    destruct rest as [|b rest]; [reflexivity|].
    cbn [isEmpty String.length]. f_equal. lia.
  - rewrite (bool_decide_eq_false_2 (Some first = _)) by congruence.
    rewrite (bool_decide_eq_false_2 (_ = Some first)) by congruence.
    reflexivity.
Qed.


(** ** Paths *)

Lemma prefix_nil (t : string) : String.prefix EmptyString t = true.
Proof. now destruct t. Qed.

Lemma prefix_append (s t : string) : String.prefix s (s +:+ t) = true.
Proof.
  induction s as [|a s IH]; autorewrite with str; cbn [String.prefix].
  - apply prefix_nil.
  - destruct (ascii_dec a a); [exact IH | congruence].
Qed.

Lemma prefix_cons (a b : ascii) (s t : string) :
  String.prefix (String a s) (String b t) = true
  <-> a = b /\ String.prefix s t = true.
Proof.
  cbn [String.prefix]. destruct (ascii_dec a b); intuition congruence.
Qed.

Lemma prefix_trans (r : string) :
  forall d p,
    String.prefix r d = true -> String.prefix d p = true ->
    String.prefix r p = true.
Proof.
  induction r as [|a r IH]; intros d p Hrd Hdp.
  - apply prefix_nil.
  - destruct d as [|b d]; [discriminate Hrd|].
    destruct p as [|c p]; [discriminate Hdp|].
    apply prefix_cons in Hrd as [-> Hrd]. apply prefix_cons in Hdp as [-> Hdp].
    apply prefix_cons. split; [reflexivity|]. eapply IH; eassumption.
Qed.

Lemma prefix_toLowerCase (d : string) :
  forall p, String.prefix d p = true ->
            String.prefix (toLowerCase d) (toLowerCase p) = true.
Proof.
  induction d as [|a d IH]; intros p H.
  - apply prefix_nil.
  - destruct p as [|b p]; [discriminate H|].
    apply prefix_cons in H as [-> H]. cbn [toLowerCase].
    apply prefix_cons. auto.
Qed.

Lemma string_of_list_ascii_app (l1 l2 : list ascii) :
  string_of_list_ascii (l1 ++ l2)
  = string_of_list_ascii l1 +:+ string_of_list_ascii l2.
Proof.
  induction l1 as [|a l1 IH]; cbn [app string_of_list_ascii];
    autorewrite with str; congruence.
Qed.

(** The backward scan stops at a separator. *)
Lemma dirnameScan_Some (l : list ascii) :
  forall m r, Path.dirnameScan l m = Some r ->
              exists skipped, l = skipped ++ SLASH :: r.
Proof.
  induction l as [|c l IH]; intros m r H; [discriminate H|].
  cbn [Path.dirnameScan] in H.
  destruct (Ascii.eqb c SLASH) eqn:Hc.
  - apply Ascii.eqb_eq in Hc as ->. destruct m.
    + apply IH in H as [skipped ->]. now exists (SLASH :: skipped).
    + injection H as <-. now exists [].
  - apply IH in H as [skipped ->]. now exists (c :: skipped).
Qed.

(** The directory name of an absolute path is a prefix of the path. *)
Lemma dirname_prefix (p : string) :
  Path.isAbsolute p = true -> String.prefix (Path.dirname p) p = true.
Proof.
  destruct p as [|c rest]; [discriminate|].
  cbn [Path.isAbsolute]. intros Hc. unfold Path.dirname. rewrite Hc.
  apply Ascii.eqb_eq in Hc as ->.
  destruct (Path.dirnameScan _ true) as [r|] eqn:Hscan;
    [|apply (prefix_cons SLASH SLASH EmptyString rest); split;
      [reflexivity | apply prefix_nil]].
  apply dirnameScan_Some in Hscan as [skipped Hl].
  assert (Hrest : rest = string_of_list_ascii (rev r)
                         +:+ String SLASH (string_of_list_ascii (rev skipped))).
  { rewrite <- (string_of_list_ascii_of_string rest).
    rewrite <- (rev_involutive (list_ascii_of_string rest)), Hl.
    rewrite rev_app_distr. cbn [rev]. rewrite <- app_assoc.
    now rewrite string_of_list_ascii_app. }
  cbn [andb]. destruct (bool_decide_reflect (r = [])) as [->|Hne].
  - rewrite Hrest. cbn [rev string_of_list_ascii]. rewrite append_nil_l.
    apply (prefix_cons SLASH SLASH (String SLASH EmptyString)).
    split; [reflexivity|]. apply prefix_cons. split; [reflexivity|].
    apply prefix_nil.
  - apply prefix_cons. split; [reflexivity|].
    rewrite Hrest. apply prefix_append.
Qed.

(** An absolute path outside the root has its directory name outside the
    root. *)
Lemma dirname_outside_root (root p : string) :
  Path.isAbsolute p = true ->
  startsWith (toLowerCase p) (toLowerCase root) = false ->
  startsWith (toLowerCase (Path.dirname p)) (toLowerCase root) = false.
Proof.
  unfold startsWith. intros Habs Hout.
  destruct (String.prefix (toLowerCase root) (toLowerCase (Path.dirname p)))
    eqn:Hd; [|reflexivity].
  rewrite <- Hout. symmetry.
  eapply prefix_trans; [exact Hd|].
  apply prefix_toLowerCase, dirname_prefix, Habs.
Qed.

Lemma dirname_absolute (p : string) :
  Path.isAbsolute p = true -> Path.isAbsolute (Path.dirname p) = true.
Proof.
  intros Habs. pose proof (dirname_prefix p Habs) as Hpre.
  destruct p as [|c rest]; [discriminate|].
  unfold Path.dirname in *. cbn [Path.isAbsolute] in Habs. rewrite Habs in *.
  destruct (Path.dirnameScan _ true); [|reflexivity].
  destruct (_ && _); [reflexivity|]. exact Habs.
Qed.

Lemma absolute_nonEmpty (p : string) :
  Path.isAbsolute p = true -> isEmpty p = false.
Proof. now destruct p. Qed.

(** ** The validators *)

Lemma ifAbsolutePathOK_run (absolutePath : string) (check : bool) (st : State) :
  ifAbsolutePathOK absolutePath check st
  = (st,
     if isEmpty absolutePath then Thrown PathToDirNotSet
     else if negb (Path.isAbsolute absolutePath) then
       Thrown (PathNotAbsolute absolutePath)
     else if check && negb (isDirectory (system st) absolutePath) then
       Thrown (DirDoesNotExist absolutePath)
     else if negb (startsWith (toLowerCase absolutePath)
                     (toLowerCase (rootWorkDir (session st)))) then
       Thrown UpperThanRoot
     else Returned tt).
Proof.
  unfold ifAbsolutePathOK, bind, getSession, getSystem, throw, ret.
  repeat match goal with |- context [if ?b then _ else _] => destruct b end;
    reflexivity.
Qed.

Lemma ifFileOK_run (pathToFile : string) (ce cne : bool) (st : State) :
  let full := Path.resolve (Fs.cwd (system st))
                [currentWorkDir (session st); pathToFile] in
  ifFileOK pathToFile ce cne st
  = if isEmpty pathToFile then (st, Thrown PathToFileNotSet)
    else if ce && negb (isFile (system st) full) then
      (st, Thrown (FileDoesNotExist full))
    else if cne && isFile (system st) full then
      (st, Thrown (FileAlreadyExists full))
    else ifAbsolutePathOK (Path.dirname full) true st.
Proof.
  unfold ifFileOK, bind, getSession, getSystem, throw. cbv zeta.
  repeat match goal with |- context [if ?b then _ else _] => destruct b end;
    reflexivity.
Qed.

Lemma isFile_of_directory (w : Fs.System) (p : string) (entries : list string) :
  Fs.stat w p = Some (Fs.Directory entries) -> isFile w p = false.
Proof. unfold isFile. now intros ->. Qed.

(** C10: the non-existence check of [#ifFileOK] throws "already exists"
    only for a path that is a regular file.  For a destination that
    exists as a directory no such error is thrown, whatever the flags, and
    the validation with [checkFileNonExistance] alone goes on to the check
    of the parent directory.  Whenever the validation does throw "already
    exists", the non-existence check was asked for and the resolved path
    is a regular file. *)
Theorem C10_directory_passes_non_existence
    (st : State) (pathToFile : string) (checkFileExistance : bool)
    (entries : list string) :
  let full := Path.resolve (Fs.cwd (system st))
                [currentWorkDir (session st); pathToFile] in
  Fs.stat (system st) full = Some (Fs.Directory entries) ->
  (forall q, snd (ifFileOK pathToFile checkFileExistance true st)
             <> Thrown (FileAlreadyExists q))
  /\ (pathToFile <> EmptyString ->
      ifFileOK pathToFile false true st
      = ifAbsolutePathOK (Path.dirname full) true st)
  /\ (forall st' p ce cne q,
         snd (ifFileOK p ce cne st') = Thrown (FileAlreadyExists q) ->
         cne = true /\ isFile (system st') q = true
         /\ kindOf (FileAlreadyExists q) = AlreadyExists).
Proof.
  intros full Hdir. pose proof (isFile_of_directory _ _ _ Hdir) as Hfile.
  split; [|split].
  - intros q. rewrite ifFileOK_run. fold full. rewrite Hfile.
    rewrite ifAbsolutePathOK_run. rewrite andb_false_r.
    repeat match goal with |- context [if ?b then _ else _] => destruct b end;
      cbn [snd]; discriminate.
  - intros Hne. rewrite ifFileOK_run. fold full. rewrite Hfile.
    destruct pathToFile; [congruence | reflexivity].
  - intros st' p ce cne q. rewrite ifFileOK_run, ifAbsolutePathOK_run.
    destruct (isEmpty p); [discriminate|].
    destruct (ce && negb _); [discriminate|].
    destruct cne; cbn [andb].
    + destruct (isFile (system st') _) eqn:Hf.
      * cbn [snd]. intros [= <-]. auto.
      * cbn [snd].
        repeat match goal with
               | |- context [if ?b then _ else _] => destruct b
               end; discriminate.
    + cbn [snd].
      repeat match goal with
             | |- context [if ?b then _ else _] => destruct b
             end; discriminate.
Qed.

(** The directory [sub] of the sample system as a destination. *)
Lemma C10_directory_passes_non_existence_witness :
  Fs.stat Sample.system "/home/user/sub" = Some (Fs.Directory [])
  /\ (forall q, snd (ifFileOK "sub" false true Sample.initial)
                <> Thrown (FileAlreadyExists q))
  /\ ifFileOK "sub" false true Sample.initial = (Sample.initial, Returned tt).
Proof.
  split; [vm_compute; reflexivity|].
  destruct (C10_directory_passes_non_existence Sample.initial "sub" false [])
    as (Hno & Hpass & _); [vm_compute; reflexivity|].
  split; [exact Hno|].
  rewrite Hpass by discriminate. vm_compute. reflexivity.
Defined.

(** C2 (as amended): when the path resolved from [P] is absolute and does
    not start with the root, neither validator accepts it and the state is
    left as it is.  The error is the one of the first check to fail, in
    the order of the code: the path is not given, the file does not exist
    or exists already (as asked), the directory looked at does not exist,
    and only then "You can't go upper than root directory".  So the kind
    of the error is [OutsideRoot] exactly when the checks made before the
    comparison with the root pass, and [InvalidArgument], [NotFound] or
    [AlreadyExists] otherwise. *)
Theorem C2_outside_root_never_validates
    (st : State) (P : string) (checkFileExistance checkFileNonExistance : bool) :
  let s := session st in
  let w := system st in
  let full := Path.resolve (Fs.cwd w) [currentWorkDir s; P] in
  let dir := Path.dirname full in
  Path.isAbsolute full = true ->
  startsWith (toLowerCase full) (toLowerCase (rootWorkDir s)) = false ->
  (exists e,
      ifFileOK P checkFileExistance checkFileNonExistance st = (st, Thrown e)
      /\ e = (if isEmpty P then PathToFileNotSet
              else if checkFileExistance && negb (isFile w full)
                   then FileDoesNotExist full
              else if checkFileNonExistance && isFile w full
                   then FileAlreadyExists full
              else if negb (isDirectory w dir) then DirDoesNotExist dir
              else UpperThanRoot)
      /\ (kindOf e = OutsideRoot
          <-> isEmpty P = false
              /\ (checkFileExistance = true -> isFile w full = true)
              /\ (checkFileNonExistance = true -> isFile w full = false)
              /\ isDirectory w dir = true)
      /\ In (kindOf e) [InvalidArgument; NotFound; AlreadyExists; OutsideRoot])
  /\ (forall checkDirectoryExistance,
         exists e,
           ifAbsolutePathOK full checkDirectoryExistance st = (st, Thrown e)
           /\ e = (if checkDirectoryExistance && negb (isDirectory w full)
                   then DirDoesNotExist full
                   else UpperThanRoot)
           /\ (kindOf e = OutsideRoot
               <-> (checkDirectoryExistance = true ->
                    isDirectory w full = true))).
Proof.
  intros s w full dir Habs Hout. split.
  - rewrite ifFileOK_run. fold s w full. rewrite ifAbsolutePathOK_run.
    fold s w dir. subst dir.
    rewrite (dirname_outside_root _ _ Habs Hout).
    rewrite (dirname_absolute _ Habs).
    rewrite (absolute_nonEmpty _ (dirname_absolute _ Habs)).
    cbn [negb].
    destruct P as [|c P]; cbn [isEmpty].
    { eexists; split; [reflexivity|]. split; [reflexivity|].
      cbn. split; [|tauto]. split; [discriminate | intros [[=] _]]. }
    destruct checkFileExistance, checkFileNonExistance, (isFile w full),
      (isDirectory w (Path.dirname full));
      cbn [andb negb]; (eexists; split; [reflexivity|]);
      (split; [reflexivity|]); cbn [kindOf In];
      (split; [|tauto]);
      (split; [try discriminate; intros _; repeat split; congruence
              | intros (_ & H1 & H2 & H3);
                try (specialize (H1 eq_refl)); try (specialize (H2 eq_refl));
                try discriminate; reflexivity]).
  - intros check. rewrite ifAbsolutePathOK_run. fold s w.
    rewrite Habs, Hout. cbn [negb].
    rewrite (absolute_nonEmpty _ Habs).
    destruct check, (isDirectory w full); cbn [andb negb];
      (eexists; split; [reflexivity|]); (split; [reflexivity|]);
      cbn [kindOf];
      (split; [try discriminate; intros _; congruence
              | intros H; try (specialize (H eq_refl));
                try discriminate; reflexivity]).
Qed.

(** [cd ..] from the home directory of the sample system. *)
Lemma C2_outside_root_never_validates_witness :
  Path.resolve "/" [Sample.home; ".."] = "/home"
  /\ ifAbsolutePathOK "/home" true Sample.initial
     = (Sample.initial, Thrown UpperThanRoot).
Proof.
  split; [vm_compute; reflexivity|].
  destruct (C2_outside_root_never_validates Sample.initial ".." true false)
    as [_ H]; [vm_compute; reflexivity | vm_compute; reflexivity |].
  destruct (H true) as (e & Hrun & He & _).
  vm_compute in He. subst e. exact Hrun.
Defined.

(** A path outside the root that does not exist is reported as missing,
    not as outside the root. *)
Lemma C2_missing_file_reported_first :
  let full := Path.resolve (Fs.cwd Sample.system) [Sample.home; "/etc/passwd"] in
  Path.isAbsolute full = true
  /\ startsWith (toLowerCase full) (toLowerCase Sample.home) = false
  /\ snd (ifFileOK "/etc/passwd" true false Sample.initial)
     = Thrown (FileDoesNotExist "/etc/passwd")
  /\ snd (ifFileOK "/etc/passwd" true false Sample.initial)
     <> Thrown UpperThanRoot
  /\ kindOf (FileDoesNotExist "/etc/passwd") = NotFound.
Proof. vm_compute. repeat split; discriminate. Qed.

(** ** Running the writer *)

Lemma appendTerminal_nil (st : State) : appendTerminal st [] = st.
Proof. destruct st. unfold appendTerminal. cbn. now rewrite app_nil_r. Qed.

Lemma appendTerminal_app (st : State) (a b : list Output) :
  appendTerminal (appendTerminal st a) b = appendTerminal st (a ++ b).
Proof. unfold appendTerminal. cbn. now rewrite app_assoc. Qed.

Lemma write_run (data : string) (ty : OUTPUT_MESSAGE_TYPES) (nl : bool)
    (st : State) :
  ignoreStdin (session st) = false ->
  write data ty nl st
  = (appendTerminal st [Written (outputStringOf data ty nl)], Returned tt).
Proof.
  destruct st as [[root cur ignore name] w t]. cbn. intros ->. reflexivity.
Qed.

Lemma writeln_run (data : string) (ty : OUTPUT_MESSAGE_TYPES) (st : State) :
  ignoreStdin (session st) = false ->
  writeln data ty st
  = (appendTerminal st [Written (outputStringOf data ty true)], Returned tt).
Proof. apply write_run. Qed.

Lemma showInvalidInputMessage_run (st : State) :
  ignoreStdin (session st) = false ->
  showInvalidInputMessage st = (appendTerminal st [invalidInputLine], Returned tt).
Proof. apply writeln_run. Qed.

Lemma printCurrentWorkDir_run (st : State) :
  ignoreStdin (session st) = false ->
  printCurrentWorkDir st
  = (appendTerminal st [currentDirLine (currentWorkDir (session st))],
     Returned tt).
Proof.
  intros H. unfold printCurrentWorkDir, bind, getSession.
  now rewrite writeln_run.
Qed.

Lemma printProptForCommand_run (st : State) :
  ignoreStdin (session st) = false ->
  printProptForCommand st = (appendTerminal st [promptLine], Returned tt).
Proof. apply writeln_run. Qed.

(** The [finally] block of the dispatcher. *)
Lemma status_lines_run (st : State) :
  ignoreStdin (session st) = false ->
  (printCurrentWorkDir ;;; printProptForCommand)%session st
  = (appendTerminal st
       [currentDirLine (currentWorkDir (session st)); promptLine],
     Returned tt).
Proof.
  intros H. unfold bind at 1. rewrite printCurrentWorkDir_run by exact H.
  rewrite printProptForCommand_run by exact H.
  now rewrite appendTerminal_app.
Qed.

(** ** Arity *)

Lemma badCall_length (params : list string) (n : nat) (command : string) :
  length params <> n -> badCall params n command = true.
Proof.
  intros H. unfold badCall.
  apply Nat.eqb_neq in H. rewrite H. cbn [negb]. now rewrite orb_true_r.
Qed.

Lemma getOSCommandParameter_arity (command : string) (args : list string) :
  length args <> 1 -> getOSCommandParameter (command :: args) = None.
Proof.
  intros H. unfold getOSCommandParameter.
  destruct args as [|a [|b args]]; cbn [length] in H; [|lia|].
  - change ([command] !! 1%nat) with (@None string).
    now destruct (_ || _).
  - change ((length (command :: a :: b :: args) =? 0)%nat
            || (2 <? length (command :: a :: b :: args))%nat) with true.
    reflexivity.
Qed.

Ltac decide_commands :=
  repeat match goal with
         | |- context [bool_decide (Some ?a = Some ?b)] =>
             let v := eval vm_compute in (bool_decide (Some a = Some b)) in
             change (bool_decide (Some a = Some b)) with v
         end;
  cbv iota.

Section Handlers.

Context {codec : Codec} {digest : Digest} {stream : ReadStream}.

(** Each handler starts with its guard. *)
Lemma dispatch_bad_arity (command : string) (args : list string) (n : nat) :
  In (command, n) arityTable -> length args <> n ->
  dispatch (command :: args) = showInvalidInputMessage.
Proof.
  intros Hin Hlen. unfold arityTable in Hin.
  repeat (destruct Hin as [[= <- <-] | Hin]); [.. | destruct Hin];
    unfold dispatch;
    match goal with
    | |- context [(?c :: args) !! 0%nat] =>
        change ((c :: args) !! 0%nat) with (Some c)
    end;
    cbv zeta beta; decide_commands;
    try (unfold osCommand; now rewrite getOSCommandParameter_arity);
    unfold exit, goUpper, changeDir, listDir, printFileContent,
      createEmptyFile, renameFile, copyFile, moveFile, deleteFile,
      getFileHash, compressFile, decompressFile;
    now rewrite badCall_length by (cbn [length]; lia).
Qed.

(** C7: a command given a number of arguments other than the one of the
    arity table is answered with the "Invalid input" line and nothing
    else happens: the session (its current directory in particular) and
    the file system are as before, and the only other output is the
    current directory and the prompt.  For [cd] this is zero arguments, or
    two or more. *)
Theorem C7_wrong_arity_is_invalid_input
    (st : State) (inputs command : string) (args : list string) (n : nat) :
  ignoreStdin (session st) = false ->
  getCommandWithParameters inputs = command :: args ->
  In (command, n) arityTable ->
  length args <> n ->
  handleUserInput inputs st
  = (appendTerminal st
       [invalidInputLine; currentDirLine (currentWorkDir (session st));
        promptLine],
     Returned tt).
Proof.
  intros Hin Htok Hcmd Hlen.
  unfold handleUserInput, bind at 1, getSession. rewrite Hin, Htok.
  cbn [length Nat.eqb]. unfold tryCatchFinally.
  rewrite (dispatch_bad_arity _ _ _ Hcmd Hlen).
  rewrite showInvalidInputMessage_run by exact Hin.
  rewrite status_lines_run by exact Hin.
  now rewrite appendTerminal_app.
Qed.

End Handlers.

(** [cd] alone, and [cd] with two arguments, in the sample session. *)
Lemma C7_wrong_arity_is_invalid_input_witness :
  Sample.after ["cd"]
  = (appendTerminal Sample.initial
       [invalidInputLine; currentDirLine Sample.home; promptLine],
     Returned tt)
  /\ @handleUserInput Sample.frameCodec Sample.lengthDigest Sample.flushingStream "cd a 'b c'"
       Sample.initial
     = (appendTerminal Sample.initial
          [invalidInputLine; currentDirLine Sample.home; promptLine],
        Returned tt).
Proof.
  split.
  - unfold Sample.after, handleLines, bind.
    rewrite (@C7_wrong_arity_is_invalid_input Sample.frameCodec
               Sample.lengthDigest Sample.flushingStream Sample.initial "cd" "cd" [] 1);
      [reflexivity | reflexivity | reflexivity
      | vm_compute; tauto | cbn; lia].
  - apply (@C7_wrong_arity_is_invalid_input Sample.frameCodec
             Sample.lengthDigest Sample.flushingStream Sample.initial "cd a 'b c'" "cd"
             ["a"; "'b c'"] 1);
      [reflexivity | vm_compute; reflexivity | vm_compute; tauto | cbn; lia].
Defined.

(** ** Running a handler *)

Lemma bind_returned {A B} (m : M A) (k : A -> M B) (st st' : State) (a : A) :
  m st = (st', Returned a) -> bind m k st = k a st'.
Proof. unfold bind. now intros ->. Qed.

Lemma bind_thrown {A B} (m : M A) (k : A -> M B) (st st' : State) (e : Err) :
  m st = (st', Thrown e) -> bind m k st = (st', Thrown e).
Proof. unfold bind. now intros ->. Qed.

Lemma bind_uncaught {A B} (m : M A) (k : A -> M B) (st st' : State) (e : Err) :
  m st = (st', Uncaught e) -> bind m k st = (st', Uncaught e).
Proof. unfold bind. now intros ->. Qed.

Lemma resolveParam_run (params : list string) (i : nat) (st : State) :
  resolveParam params i st
  = (st, Returned (Path.resolve (Fs.cwd (system st))
                     [currentWorkDir (session st);
                      unbraketString (param params i)])).
Proof. reflexivity. Qed.

Lemma badCall_exact (command : string) (args : list string) :
  badCall (command :: args) (S (length args)) command = false.
Proof.
  unfold badCall. cbn [length]. rewrite Nat.eqb_refl.
  change ((command :: args) !! 0%nat) with (Some command).
  now rewrite bool_decide_eq_true_2.
Qed.

Lemma badCall_three (command a b : string) :
  badCall [command; a; b] 3 command = false.
Proof. exact (badCall_exact command [a; b]). Qed.

Lemma badCall_two (command a : string) :
  badCall [command; a] 2 command = false.
Proof. exact (badCall_exact command [a]). Qed.

Lemma badCall_one (command : string) : badCall [command] 1 command = false.
Proof. exact (badCall_exact command []). Qed.

(** ** What the handlers leave alone *)

Lemma quiet_bind {A B} (m : M A) (k : A -> M B) :
  Quiet m -> (forall a, Quiet (k a)) -> Quiet (bind m k).
Proof.
  intros Hm Hk st H. specialize (Hm st H). unfold bind.
  destruct (m st) as [st' [a|e|e|]]; cbn [fst] in *; try exact Hm.
  destruct Hm as (Hi & Hr & Hu). specialize (Hk a st' Hi).
  destruct Hk as (Hi' & Hr' & Hu'). repeat split; congruence.
Qed.

Lemma keepsDir_bind {A B} (m : M A) (k : A -> M B) :
  KeepsDir m -> (forall a, KeepsDir (k a)) -> KeepsDir (bind m k).
Proof.
  intros Hm Hk st. specialize (Hm st). unfold bind.
  destruct (m st) as [st' [a|e|e|]]; cbn [fst] in *; try exact Hm.
  now rewrite Hk.
Qed.

Lemma caught_bind {A B} (m : M A) (k : A -> M B) :
  Caught m -> (forall a, Caught (k a)) -> Caught (bind m k).
Proof.
  intros Hm Hk st e. specialize (Hm st e). unfold bind.
  destruct (m st) as [st' [a|e'|e'|]]; cbn [snd] in *;
    try discriminate; [apply Hk | intros [= ->]; now apply Hm].
Qed.

(** The three properties of a computation that is given by evaluation. *)
Ltac by_evaluation :=
  repeat split;
  repeat match goal with
         | |- Quiet _ => intros [[root cur ignore name] w t] H; cbn in *
         | |- KeepsDir _ => intros [[root cur ignore name] w t]; cbn in *
         | |- Caught _ => intros [[root cur ignore name] w t] e; cbn in *
         end;
  try discriminate; auto.

Lemma frames_ret {A} (a : A) :
  Quiet (ret a) /\ KeepsDir (ret a) /\ Caught (ret a).
Proof. by_evaluation. Qed.

Lemma frames_throw {A} (e : Err) :
  Quiet (@throw A e) /\ KeepsDir (@throw A e) /\ Caught (@throw A e).
Proof. by_evaluation. Qed.

Lemma frames_uncaught {A} (e : Err) :
  Quiet (@uncaught A e) /\ KeepsDir (@uncaught A e).
Proof. by_evaluation. Qed.

Lemma frames_exitProcess {A} :
  Quiet (@exitProcess A) /\ KeepsDir (@exitProcess A)
  /\ Caught (@exitProcess A).
Proof. by_evaluation. Qed.

Lemma frames_getSession :
  Quiet getSession /\ KeepsDir getSession /\ Caught getSession.
Proof. by_evaluation. Qed.

Lemma frames_getSystem :
  Quiet getSystem /\ KeepsDir getSystem /\ Caught getSystem.
Proof. by_evaluation. Qed.

Lemma frames_setSystem (w : Fs.System) :
  Quiet (setSystem w) /\ KeepsDir (setSystem w) /\ Caught (setSystem w).
Proof. by_evaluation. Qed.

Lemma frames_setCurrentWorkDir (dir : string) :
  Quiet (setCurrentWorkDir dir) /\ Caught (setCurrentWorkDir dir).
Proof. by_evaluation. Qed.

Lemma frames_write (data : string) (ty : OUTPUT_MESSAGE_TYPES) (nl : bool) :
  Quiet (write data ty nl) /\ KeepsDir (write data ty nl)
  /\ Caught (write data ty nl).
Proof. by_evaluation. Qed.

Lemma frames_writeText (text : list Z) :
  Quiet (writeText text) /\ KeepsDir (writeText text)
  /\ Caught (writeText text).
Proof. by_evaluation. Qed.

Lemma frames_printTable (data : list Js.Object) (properties : list string) :
  Quiet (printTable data properties) /\ KeepsDir (printTable data properties)
  /\ Caught (printTable data properties).
Proof. by_evaluation. Qed.

Lemma frames_liftFs {A} (syscall path : string) (r : Fs.Errno + A) :
  Quiet (liftFs syscall path r) /\ KeepsDir (liftFs syscall path r)
  /\ Caught (liftFs syscall path r).
Proof. destruct r; by_evaluation. Qed.

Lemma frames_unhandled {A} (syscall path : string) (r : Fs.Errno + A) :
  Quiet (unhandled syscall path r) /\ KeepsDir (unhandled syscall path r).
Proof. destruct r; by_evaluation. Qed.

Lemma frames_liftFsTwoPaths {A} (syscall path dest : string)
    (r : Fs.Errno + A) :
  Quiet (liftFsTwoPaths syscall path dest r)
  /\ KeepsDir (liftFsTwoPaths syscall path dest r)
  /\ Caught (liftFsTwoPaths syscall path dest r).
Proof. destruct r; by_evaluation. Qed.

Lemma frames_forEach_writeText (events : list (list Z)) :
  Quiet (forEach events writeText) /\ KeepsDir (forEach events writeText)
  /\ Caught (forEach events writeText).
Proof.
  induction events as [|event later (IHq & IHk & IHc)]; cbn [forEach].
  - apply frames_ret.
  - destruct (frames_writeText event) as (Hq & Hk & Hc).
    split; [|split];
      [apply quiet_bind | apply keepsDir_bind | apply caught_bind]; auto.
Qed.

(** Follow the structure of a computation down to its leaves, which
    [leaf] settles. *)
Ltac frame_primitive :=
  idtac;
  match goal with
  | |- _ (ret _) => apply frames_ret
  | |- _ (throw _) => apply frames_throw
  | |- _ (uncaught _) => apply frames_uncaught
  | |- _ exitProcess => apply frames_exitProcess
  | |- _ getSession => apply frames_getSession
  | |- _ getSystem => apply frames_getSystem
  | |- _ (setSystem _) => apply frames_setSystem
  | |- _ (setCurrentWorkDir _) => apply frames_setCurrentWorkDir
  | |- _ (write _ _ _) => apply frames_write
  | |- _ (writeText _) => apply frames_writeText
  | |- _ (printTable _ _) => apply frames_printTable
  | |- _ (liftFs _ _ _) => apply frames_liftFs
  | |- _ (liftFsTwoPaths _ _ _ _) => apply frames_liftFsTwoPaths
  | |- _ (forEach _ writeText) => apply frames_forEach_writeText
  | |- _ (unhandled _ _ _) => apply frames_unhandled
  end.

Ltac frame_with leaf :=
  repeat (intros; cbv zeta;
          match goal with
          | |- Quiet (bind _ _) => apply quiet_bind
          | |- KeepsDir (bind _ _) => apply keepsDir_bind
          | |- Caught (bind _ _) => apply caught_bind
          | |- _ (if ?b then _ else _) => destruct b
          | |- _ (match ?x with _ => _ end) => destruct x
          | |- _ => leaf
          end).

Ltac conjuncts :=
  repeat match goal with
         | |- _ /\ _ => split
         | |- forall _, _ => intro
         end.

Section Frames.

Context {codec : Codec} {digest : Digest} {stream : ReadStream}.

Lemma frames_writeln (d : string) (t : OUTPUT_MESSAGE_TYPES) :
  Quiet (writeln d t) /\ KeepsDir (writeln d t) /\ Caught (writeln d t).
Proof. unfold writeln. conjuncts; frame_with frame_primitive. Qed.

Lemma frames_printCurrentWorkDir :
  Quiet printCurrentWorkDir /\ KeepsDir printCurrentWorkDir
  /\ Caught printCurrentWorkDir.
Proof.
  unfold printCurrentWorkDir, writeln. conjuncts; frame_with frame_primitive.
Qed.

Lemma frames_printProptForCommand :
  Quiet printProptForCommand /\ KeepsDir printProptForCommand
  /\ Caught printProptForCommand.
Proof. apply frames_writeln. Qed.

Lemma frames_showInvalidInputMessage :
  Quiet showInvalidInputMessage /\ KeepsDir showInvalidInputMessage
  /\ Caught showInvalidInputMessage.
Proof. apply frames_writeln. Qed.

Lemma frames_showOperationFailedMessage (m : string) :
  Quiet (showOperationFailedMessage m)
  /\ KeepsDir (showOperationFailedMessage m)
  /\ Caught (showOperationFailedMessage m).
Proof. apply frames_writeln. Qed.

Lemma frames_close : Quiet close /\ KeepsDir close /\ Caught close.
Proof. unfold close, writeln. conjuncts; frame_with frame_primitive. Qed.

Lemma frames_ifAbsolutePathOK (p : string) (c : bool) :
  Quiet (ifAbsolutePathOK p c) /\ KeepsDir (ifAbsolutePathOK p c)
  /\ Caught (ifAbsolutePathOK p c).
Proof. unfold ifAbsolutePathOK. conjuncts; frame_with frame_primitive. Qed.

Lemma frames_ifFileOK (p : string) (ce cne : bool) :
  Quiet (ifFileOK p ce cne) /\ KeepsDir (ifFileOK p ce cne)
  /\ Caught (ifFileOK p ce cne).
Proof.
  unfold ifFileOK, ifAbsolutePathOK. conjuncts; frame_with frame_primitive.
Qed.

Lemma frames_resolveParam (ps : list string) (i : nat) :
  Quiet (resolveParam ps i) /\ KeepsDir (resolveParam ps i)
  /\ Caught (resolveParam ps i).
Proof. unfold resolveParam. conjuncts; frame_with frame_primitive. Qed.

Ltac frame_library :=
  idtac;
  match goal with
  | |- _ (writeln _ _) => apply frames_writeln
  | |- _ printCurrentWorkDir => apply frames_printCurrentWorkDir
  | |- _ printProptForCommand => apply frames_printProptForCommand
  | |- _ showInvalidInputMessage => apply frames_showInvalidInputMessage
  | |- _ (showOperationFailedMessage _) =>
      apply frames_showOperationFailedMessage
  | |- _ close => apply frames_close
  | |- _ (ifAbsolutePathOK _ _) => apply frames_ifAbsolutePathOK
  | |- _ (ifFileOK _ _ _) => apply frames_ifFileOK
  | |- _ (resolveParam _ _) => apply frames_resolveParam
  end.

Ltac frame := frame_with ltac:(first [frame_primitive | frame_library]).

Ltac unfold_handlers :=
  unfold exit, goUpper, changeDir, listDir, printFileContent,
    createEmptyFile, renameFile, copyFile, moveFile, deleteFile, osCommand,
    getFileHash, compressFile, decompressFile, createCopyingPromise,
    getEOL, getCPUsInfo, getHomeDir, getUserName, getCPUArchitecture.

Ltac by_command :=
  unfold dispatch; cbv zeta;
  repeat match goal with
         | |- _ (if bool_decide ?P then _ else _) =>
             destruct (bool_decide_reflect P)
         end.

(** Every handler lowers the input flag again and keeps the root. *)
Lemma dispatch_quiet (params : list string) : Quiet (dispatch params).
Proof. by_command; unfold_handlers; frame. Qed.

(** Only [up] and [cd] assign the current directory. *)
Lemma dispatch_keeps_dir (params : list string) :
  (forall command, In command navigationCommands ->
                   params !! 0%nat <> Some command) ->
  KeepsDir (dispatch params).
Proof.
  intros Hnav.
  assert (Hup := Hnav COMMANDS.goUpper (or_introl eq_refl)).
  assert (Hcd := Hnav COMMANDS.changeDir (or_intror (or_introl eq_refl))).
  by_command; try contradiction; unfold_handlers; frame.
Qed.

(** Only the piping commands can end with a stream failing unheard. *)
Lemma dispatch_caught (params : list string) :
  (forall command, In command pipingCommands ->
                   params !! 0%nat <> Some command) ->
  Caught (dispatch params).
Proof.
  intros Hpipe.
  assert (Hcp := Hpipe COMMANDS.copyFile (or_introl eq_refl)).
  assert (Hmv := Hpipe COMMANDS.moveFile (or_intror (or_introl eq_refl))).
  assert (Hco := Hpipe COMMANDS.compressFile
                   (or_intror (or_intror (or_introl eq_refl)))).
  assert (Hde := Hpipe COMMANDS.decompressFile
                   (or_intror (or_intror (or_intror (or_introl eq_refl))))).
  by_command; try contradiction; unfold_handlers; frame.
Qed.

(** What [#handleUserInput] makes of each way its handler can end. *)
Lemma handleUserInput_outcomes (st : State) (inputs : string) :
  ignoreStdin (session st) = false ->
  getCommandWithParameters inputs <> [] ->
  let '(st', outcome) := dispatch (getCommandWithParameters inputs) st in
  handleUserInput inputs st
  = match outcome with
    | Returned _ =>
        (appendTerminal st'
           [currentDirLine (currentWorkDir (session st')); promptLine],
         Returned tt)
    | Thrown e =>
        (appendTerminal st'
           [operationFailedLine e;
            currentDirLine (currentWorkDir (session st')); promptLine],
         Returned tt)
    | Uncaught e => (st', Uncaught e)
    | Exited => (st', Exited)
    end.
Proof.
  intros Hin Hne.
  pose proof (dispatch_quiet (getCommandWithParameters inputs) st Hin)
    as (Hin' & _).
  unfold handleUserInput, bind at 1, getSession. rewrite Hin.
  destruct (getCommandWithParameters inputs) as [|command args];
    [congruence|].
  cbn [length Nat.eqb]. unfold tryCatchFinally.
  destruct (dispatch (command :: args) st) as [st' [[]|e|e|]];
    cbn [fst] in Hin'; try reflexivity.
  - now rewrite status_lines_run.
  - unfold bind at 1, showOperationFailedMessage.
    rewrite writeln_run by exact Hin'.
    rewrite status_lines_run by exact Hin'.
    now rewrite appendTerminal_app.
Qed.

(** The lines other than [up] and [cd] leave the current directory as it
    is. *)
Lemma only_navigation_changes_currentWorkDir (st : State) (inputs : string) :
  (forall command, In command navigationCommands ->
                   commandOf inputs <> Some command) ->
  currentWorkDir (session (fst (handleUserInput inputs st)))
  = currentWorkDir (session st).
Proof.
  intros Hnav. pose proof (dispatch_keeps_dir _ Hnav st) as Hkeep.
  unfold handleUserInput, bind at 1, getSession.
  destruct (ignoreStdin (session st)); [reflexivity|].
  destruct (_ =? _)%nat; [reflexivity|].
  unfold tryCatchFinally.
  destruct (dispatch (getCommandWithParameters inputs) st)
    as [st' [[]|e|e|]]; cbn [fst] in *; exact Hkeep.
Qed.

(** The error of a command that pipes no file is caught: the line is
    handled to its end, or the process exits by [.exit]. *)
Lemma errors_caught_unless_piping (st : State) (inputs : string) :
  ignoreStdin (session st) = false ->
  (forall command, In command pipingCommands ->
                   commandOf inputs <> Some command) ->
  snd (handleUserInput inputs st) = Returned tt
  \/ snd (handleUserInput inputs st) = Exited.
Proof.
  intros Hin Hpipe.
  destruct (getCommandWithParameters inputs) as [|command args] eqn:Htok.
  { left. unfold handleUserInput, bind, getSession. rewrite Hin, Htok.
    reflexivity. }
  pose proof (handleUserInput_outcomes st inputs Hin) as Hout.
  unfold commandOf in Hpipe.
  pose proof (dispatch_caught _ Hpipe st) as Hcaught.
  rewrite Htok in Hout, Hcaught.
  destruct (dispatch (command :: args) st) as [st' [[]|e|e|]];
    rewrite Hout by discriminate; cbn [snd] in *; auto.
  now destruct (Hcaught e).
Qed.

(** A [cd] that is accepted moves to a path that starts with the root. *)
Lemma changeDir_accepts_inside_root (st st' : State) (params : list string) :
  changeDir params st = (st', Returned tt) ->
  currentWorkDir (session st') = currentWorkDir (session st)
  \/ startsWith (toLowerCase (currentWorkDir (session st')))
       (toLowerCase (rootWorkDir (session st'))) = true.
Proof.
  unfold changeDir. destruct (badCall params 2 COMMANDS.changeDir).
  - intros H. left.
    pose proof (proj1 (proj2 frames_showInvalidInputMessage) st) as Hk.
    now rewrite H in Hk.
  - unfold bind at 1. rewrite resolveParam_run.
    unfold bind at 1. rewrite ifAbsolutePathOK_run.
    destruct (isEmpty _); [discriminate|].
    destruct (negb (Path.isAbsolute _)); [discriminate|].
    destruct (true && _); [discriminate|].
    destruct (startsWith _ _) eqn:Hstart; cbn [negb]; [|discriminate].
    intros [= <-]. right. exact Hstart.
Qed.

End Frames.

(** The sample session is the one [start] creates. *)
Example sample_session_started :
  session (fst (start Sample.system Sample.home "tester"))
  = session Sample.initial
  /\ system (fst (start Sample.system Sample.home "tester")) = Sample.system.
Proof. split; reflexivity. Qed.

(** C1 (the code at the failing input): in the sample system, whose home
    directory [/home/user] has the sibling [/home/user2], the lines
    [cd ../user2] and [up] are both accepted and leave the session in
    [/home], which does not start with the root. *)
Theorem C1_go_up_leaves_the_root :
  let st1 := fst (Sample.after ["cd ../user2"]) in
  let st2 := fst (Sample.after ["cd ../user2"; "up"]) in
  rootWorkDir (session st2) = "/home/user"
  /\ currentWorkDir (session st1) = "/home/user2"
  /\ terminal st1 = [currentDirLine "/home/user2"; promptLine]
  /\ currentWorkDir (session st2) = "/home"
  /\ startsWith (toLowerCase (currentWorkDir (session st2)))
       (toLowerCase (rootWorkDir (session st2))) = false.
Proof. vm_compute. repeat split; reflexivity. Qed.

(** C8 (the code at the failing input): [cp a.txt sub], where [sub] is
    a directory, passes the validation; the write stream then fails with
    EISDIR and has no ['error'] listener: nothing is written on the
    terminal, neither an error line nor the current directory and the
    prompt, and the line after it is never handled. *)
Theorem C8_copy_onto_directory_is_uncaught :
  Sample.after ["cp a.txt sub"]
  = (Sample.initial, Uncaught (SysError Fs.EISDIR "open" "/home/user/sub"))
  /\ Sample.after ["cp a.txt sub"; "ls"] = Sample.after ["cp a.txt sub"]
  /\ terminal (fst (Sample.after ["cp a.txt sub"; "ls"])) = [].
Proof. vm_compute. repeat split; reflexivity. Qed.

(** ** The order of a listing *)

Lemma getProp_entry_isDirectory (name : string) (d : bool) :
  Js.getProp (entryObject name d) "isDirectory" = Js.VBool d.
Proof.
  unfold Js.getProp, entryObject.
  rewrite lookup_insert_ne by discriminate.
  now rewrite lookup_insert_eq.
Qed.

(** The objects have a property [Name] and no property [name]. *)
Lemma getProp_entry_name (name : string) (d : bool) :
  Js.getProp (entryObject name d) "name" = Js.VUndefined.
Proof.
  unfold Js.getProp, entryObject.
  rewrite !lookup_insert_ne by discriminate.
  now rewrite lookup_empty.
Qed.

(** The comparator tells directories from files and nothing else. *)
Lemma compareListed_entries (n1 n2 : string) (d1 d2 : bool) :
  compareListed (entryObject n1 d1) (entryObject n2 d2)
  = if d1 && negb d2 then (-1)%Z else if negb d1 && d2 then 1%Z else 0%Z.
Proof.
  unfold compareListed.
  rewrite !getProp_entry_isDirectory, !getProp_entry_name. reflexivity.
Qed.


Lemma insertSorted_directory (name : string) (l : list (string * bool)) :
  Js.insertSorted compareListed (entryObject name true) (entriesOf l)
  = entriesOf ((name, true) :: l).
Proof.
  destruct l as [|[m d] l]; [reflexivity|].
  cbn [entriesOf map fst snd Js.insertSorted].
  rewrite compareListed_entries. now destruct d.
Qed.

Lemma insertSorted_file (name : string) (dirs files : list (string * bool)) :
  Forall (fun e => snd e = true) dirs ->
  Forall (fun e => snd e = false) files ->
  Js.insertSorted compareListed (entryObject name false)
    (entriesOf (dirs ++ files))
  = entriesOf (dirs ++ (name, false) :: files).
Proof.
  intros Hdirs Hfiles. unfold entriesOf.
  induction Hdirs as [|[m d] dirs Hd _ IH].
  - destruct Hfiles as [|[m d] files Hd _]; [reflexivity|].
    cbn in Hd. subst d.
    cbn [app map fst snd Js.insertSorted].
    now rewrite compareListed_entries.
  - cbn in Hd. subst d.
    cbn [app map fst snd Js.insertSorted].
    rewrite compareListed_entries. cbn [negb andb Z.leb Z.compare].
    now rewrite IH.
Qed.

Lemma Forall_filter_true {A} (f : A -> bool) (l : list A) :
  Forall (fun x => f x = true) (List.filter f l).
Proof.
  induction l as [|x l IH]; cbn; [constructor|].
  destruct (f x) eqn:Hx; [constructor|]; assumption.
Qed.

(** Sorting with this comparator is a stable partition: the directories
    in their order, then the files in theirs. *)
Lemma sort_entries (l : list (string * bool)) :
  Js.sort compareListed (entriesOf l)
  = entriesOf (List.filter snd l ++ List.filter (fun e => negb (snd e)) l).
Proof.
  induction l as [|[name d] l IH]; [reflexivity|].
  cbn [entriesOf map Js.sort fold_right fst snd].
  fold (entriesOf l). fold (Js.sort compareListed (entriesOf l)).
  rewrite IH. cbn [List.filter snd]. destruct d; cbn [negb app].
  - apply insertSorted_directory.
  - apply insertSorted_file.
    + apply Forall_filter_true.
    + eapply List.Forall_impl;
        [|apply (Forall_filter_true (fun e => negb (snd e)))].
      intros e He. cbn in He. now apply negb_true_iff.
Qed.

Lemma filter_tagged {A} (f : A -> bool) (keep : bool -> bool) (l : list A) :
  List.filter (fun e : A * bool => keep (snd e)) (map (fun x => (x, f x)) l)
  = map (fun x => (x, f x)) (List.filter (fun x => keep (f x)) l).
Proof.
  induction l as [|x l IH]; [reflexivity|].
  cbn [map List.filter snd]. destruct (keep (f x)); cbn [map]; now rewrite IH.
Qed.

(** The listing for every directory: [ls] shows the directories in the
    order of [readdir], then the other entries in the order of
    [readdir]; the sort itself orders no entry by its name. *)
Lemma listedObjects_order (w : Fs.System) (dir : string)
    (elements : list string) :
  let isDir element := isDirectory w (Path.join dir element) in
  map (fun object => [Js.getProp object "Name"; Js.getProp object "Type"])
      (listedObjects w dir elements)
  = map (fun element => [Js.VString element; Js.VString "directory"])
        (List.filter isDir elements)
    ++ map (fun element => [Js.VString element; Js.VString "file"])
           (List.filter (fun element => negb (isDir element)) elements).
Proof.
  intros isDir. unfold listedObjects. cbv zeta.
  assert (Hobjects :
            map (fun element : string =>
                   <["Name" := Js.VString element]>
                     (<["isDirectory" :=
                          Js.VBool (isDirectory w (Path.join dir element))]>
                        (∅ : Js.Object))) elements
            = entriesOf (map (fun element => (element, isDir element)) elements)).
  { unfold entriesOf. now rewrite map_map. }
  rewrite Hobjects, sort_entries.
  rewrite (filter_tagged isDir (fun b => b)),
          (filter_tagged isDir negb).
  unfold entriesOf. rewrite !map_app, !map_map. cbn [fst snd].
  f_equal; apply map_ext_in; intros element Hin;
    apply List.filter_In in Hin as [_ Hd];
    rewrite getProp_entry_isDirectory;
    unfold Js.getProp; rewrite lookup_insert_eq;
    rewrite lookup_insert_ne by discriminate;
    unfold entryObject; rewrite lookup_insert_eq; cbn [default Js.truthy];
    [now rewrite Hd | apply negb_true_iff in Hd; now rewrite Hd].
Qed.

Lemma filter_partition_permutation {A} (f : A -> bool) (l : list A) :
  Permutation (List.filter f l ++ List.filter (fun x => negb (f x)) l) l.
Proof.
  induction l as [|x l IH]; [reflexivity|].
  cbn [List.filter]. destruct (f x); cbn [negb app].
  - now constructor.
  - rewrite <- Permutation_middle. now constructor.
Qed.

(** ** The order of the names read *)

Module NameOrder.

Lemma ascii_compare_refl (a : ascii) : Ascii.compare a a = Eq.
Proof. unfold Ascii.compare. apply N.compare_refl. Qed.













End NameOrder.


Lemma listDir_run (st : State) (elements : list string) :
  Fs.readdir (system st) (currentWorkDir (session st)) = inr elements ->
  listDir [COMMANDS.listDir] st
  = (appendTerminal st
       [ConsoleTable
          (listedObjects (system st) (currentWorkDir (session st)) elements)
          ["Name"; "Type"]],
     Returned tt).
Proof.
  intros Hread. unfold listDir. rewrite badCall_one.
  unfold bind, getSession, getSystem, liftFs. now rewrite Hread.
Qed.



(** The table of the sample system. *)
Example listing_of_the_sample :
  map tableCells (terminal (fst (Sample.after ["ls"])))
  = [[[Js.VString "sub"; Js.VString "directory"];
      [Js.VString "a.txt"; Js.VString "file"];
      [Js.VString "b.txt"; Js.VString "file"];
      [Js.VString "raw.bin"; Js.VString "file"]];
     []; []].
Proof. vm_compute. reflexivity. Qed.

(** ** UTF-8 *)

Module Utf8Facts.

Import Utf8.
Local Open Scope Z_scope.

(** Decide the range tests of the decoder on a byte known by bounds. *)
Ltac ranges :=
  repeat match goal with
         | |- context [?a <=? ?b] =>
             destruct (Z.leb_spec a b); try (exfalso; lia)
         | |- context [?a <? ?b] =>
             destruct (Z.ltb_spec a b); try (exfalso; lia)
         | |- context [?a =? ?b] =>
             destruct (Z.eqb_spec a b); try (exfalso; lia)
         end.

Ltac decode_step :=
  cbn [app decodeFrom andb emitted lower upper bytesNeeded codePoint];
  ranges.

(** The decoder reads back the encoding of a scalar value. *)
Lemma decodeFrom_encodeCodePoint (c : Z) (rest : list Z) :
  isScalar c ->
  decodeFrom None (encodeCodePoint c ++ rest) = c :: decodeFrom None rest.
Proof.
  intros [Hrange Hsur]. unfold encodeCodePoint. rewrite Hsur.
  unfold isSurrogate in Hsur. apply andb_false_iff in Hsur.
  assert (Hs : c < 0xD800 \/ 0xDFFF < c)
    by (destruct Hsur as [H|H]; [left|right]; lia).
  clear Hsur.
  destruct (Z.ltb_spec c 0x80); [|destruct (Z.ltb_spec c 0x800);
                                  [|destruct (Z.ltb_spec c 0x10000)]].
  - cbn [app decodeFrom]. unfold startSequence. ranges. reflexivity.
  - assert (Bc : c = (c / 64) * 64 + c mod 64) by (Z.div_mod_to_equations; lia).
    assert (B1 : 2 <= c / 64 <= 31) by (Z.div_mod_to_equations; lia).
    assert (B2 : 0 <= c mod 64 < 64) by (Z.div_mod_to_equations; lia).
    set (b1 := c / 64) in *. set (b2 := c mod 64) in *. clearbody b1 b2.
    cbn [app decodeFrom]. unfold startSequence.
    ranges; repeat decode_step. f_equal. lia.
  - assert (Bc : c = ((c / 4096) * 64 + (c / 64) mod 64) * 64 + c mod 64)
      by (Z.div_mod_to_equations; lia).
    assert (B1 : 0 <= c / 4096 <= 15) by (Z.div_mod_to_equations; lia).
    assert (B2 : 0 <= (c / 64) mod 64 < 64) by (Z.div_mod_to_equations; lia).
    assert (B3 : 0 <= c mod 64 < 64) by (Z.div_mod_to_equations; lia).
    assert (B4 : c / 4096 = 0 -> 32 <= (c / 64) mod 64)
      by (Z.div_mod_to_equations; lia).
    assert (B5 : c / 4096 = 13 -> (c / 64) mod 64 < 32)
      by (Z.div_mod_to_equations; lia).
    set (b1 := c / 4096) in *. set (b2 := (c / 64) mod 64) in *.
    set (b3 := c mod 64) in *. clearbody b1 b2 b3.
    cbn [app decodeFrom]. unfold startSequence.
    ranges; repeat decode_step; f_equal; lia.
  - assert (Bc : c = (((c / 262144) * 64 + (c / 4096) mod 64) * 64
                      + (c / 64) mod 64) * 64 + c mod 64)
      by (Z.div_mod_to_equations; lia).
    assert (B1 : 0 <= c / 262144 <= 4) by (Z.div_mod_to_equations; lia).
    assert (B2 : 0 <= (c / 4096) mod 64 < 64) by (Z.div_mod_to_equations; lia).
    assert (B3 : 0 <= (c / 64) mod 64 < 64) by (Z.div_mod_to_equations; lia).
    assert (B4 : 0 <= c mod 64 < 64) by (Z.div_mod_to_equations; lia).
    assert (B5 : c / 262144 = 0 -> 16 <= (c / 4096) mod 64)
      by (Z.div_mod_to_equations; lia).
    assert (B6 : c / 262144 = 4 -> (c / 4096) mod 64 < 16)
      by (Z.div_mod_to_equations; lia).
    set (b1 := c / 262144) in *. set (b2 := (c / 4096) mod 64) in *.
    set (b3 := (c / 64) mod 64) in *. set (b4 := c mod 64) in *.
    clearbody b1 b2 b3 b4.
    cbn [app decodeFrom]. unfold startSequence.
    ranges; repeat decode_step; f_equal; lia.
Qed.

Lemma decode_encode (text : list Z) :
  Forall isScalar text -> decode (encode text) = text.
Proof.
  unfold decode, encode.
  induction 1 as [|c text Hc _ IH]; [reflexivity|].
  cbn [flat_map]. rewrite decodeFrom_encodeCodePoint by exact Hc.
  now rewrite IH.
Qed.

(** Well-formed UTF-8 goes through a text stream unchanged. *)
Lemma recode_encode (text : list Z) :
  Forall isScalar text -> recode (encode text) = encode text.
Proof. intros H. unfold recode. now rewrite decode_encode. Qed.

(** A byte that starts no sequence does not. *)
Lemma recode_0xFF : recode [255] = [239; 191; 189].
Proof. reflexivity. Qed.

End Utf8Facts.

(** The text decoded from bytes holds scalar values only. *)

Module Utf8Scalars.

Import Utf8.
Local Open Scope Z_scope.

Lemma isScalar_bounds (c : Z) :
  0 <= c <= 0x10FFFF -> c < 0xD800 \/ 0xDFFF < c -> isScalar c.
Proof.
  intros Hr Hs. split; [exact Hr|]. unfold isSurrogate.
  apply andb_false_iff. destruct Hs; [left | right]; lia.
Qed.

Lemma startSequence_scalar (b : Z) :
  0 <= b ->
  Forall isScalar (emitted (fst (startSequence b)))
  /\ (forall p, snd (startSequence b) = Some p -> completes p).
Proof.
  intros Hb. unfold startSequence.
  destruct (Z.leb_spec b 0x7F).
  { split; [|discriminate]. constructor; [|constructor].
    apply isScalar_bounds; lia. }
  destruct (Z.leb_spec 0xC2 b), (Z.leb_spec b 0xDF); cbn [andb].
  { split; [constructor|]. intros p [= <-].
    unfold completes, lowest, highest. cbn. lia. }
  all: destruct (Z.leb_spec 0xE0 b), (Z.leb_spec b 0xEF); cbn [andb];
    try lia.
  all: try (split; [constructor|]; intros p [= <-];
            unfold completes, lowest, highest;
            cbn [codePoint bytesNeeded lower upper span];
            destruct (Z.eqb_spec b 0xE0), (Z.eqb_spec b 0xED); lia).
  all: destruct (Z.leb_spec 0xF0 b), (Z.leb_spec b 0xF4); cbn [andb];
    try lia.
  all: try (split; [constructor|]; intros p [= <-];
            unfold completes, lowest, highest;
            cbn [codePoint bytesNeeded lower upper span];
            destruct (Z.eqb_spec b 0xF0), (Z.eqb_spec b 0xF4); lia).
  all: split; [|discriminate]; (constructor; [|constructor]);
    apply isScalar_bounds; unfold REPLACEMENT; lia.
Qed.

Lemma decodeFrom_scalar (bytes : list Z) :
  Forall (fun b => 0 <= b) bytes ->
  forall pending,
    (forall p, pending = Some p -> completes p) ->
    Forall isScalar (decodeFrom pending bytes).
Proof.
  assert (Hrep : isScalar REPLACEMENT).
  { apply isScalar_bounds; unfold REPLACEMENT; lia. }
  induction 1 as [|b rest Hb _ IH]; intros pending Hp.
  - destruct pending; [constructor; [exact Hrep | constructor] | constructor].
  - destruct (startSequence_scalar b Hb) as [He Hq].
    cbn [decodeFrom]. destruct pending as [p|].
    + specialize (Hp p eq_refl).
      destruct Hp as (Hk & Hbounds & Hrange & Hsur).
      unfold lowest, highest in Hrange, Hsur.
      destruct (Z.leb_spec (lower p) b), (Z.leb_spec b (upper p));
        cbn [andb].
      * destruct (bytesNeeded p) as [|[|[|[|k]]]] eqn:Hn; try lia;
          cbn [span] in Hrange, Hsur.
        -- constructor; [apply isScalar_bounds; lia|].
           apply IH. discriminate.
        -- apply IH. intros q [= <-].
           unfold completes, lowest, highest.
           cbn [codePoint bytesNeeded lower upper span]. lia.
        -- apply IH. intros q [= <-].
           unfold completes, lowest, highest.
           cbn [codePoint bytesNeeded lower upper span]. lia.
      * destruct (startSequence b) as [e q]. cbn [fst snd] in He, Hq.
        constructor; [exact Hrep|]. apply Forall_app. split; auto.
      * destruct (startSequence b) as [e q]. cbn [fst snd] in He, Hq.
        constructor; [exact Hrep|]. apply Forall_app. split; auto.
      * destruct (startSequence b) as [e q]. cbn [fst snd] in He, Hq.
        constructor; [exact Hrep|]. apply Forall_app. split; auto.
    + destruct (startSequence b) as [e q]. cbn [fst snd] in He, Hq.
      apply Forall_app. split; auto.
Qed.

Lemma decode_scalar (bytes : list Z) :
  Forall (fun b => 0 <= b) bytes -> Forall isScalar (decode bytes).
Proof. intros H. apply (decodeFrom_scalar bytes H). discriminate. Qed.

Lemma recode_idempotent (bytes : list Z) :
  Forall (fun b => 0 <= b) bytes -> recode (recode bytes) = recode bytes.
Proof.
  intros H. unfold recode at 1 3.
  apply Utf8Facts.recode_encode, decode_scalar, H.
Qed.

End Utf8Scalars.

(** ** Paths given to the operating system *)

Lemma resolveLoop_absolute_cwd (cwd : string) (args : list string) :
  Path.isAbsolute cwd = true ->
  forall acc, snd (Path.resolveLoop (args ++ [cwd]) acc) = true.
Proof.
  intros Hcwd. induction args as [|p args IH]; intros acc.
  - cbn [app Path.resolveLoop]. rewrite (absolute_nonEmpty _ Hcwd), Hcwd.
    reflexivity.
  - cbn [app Path.resolveLoop]. destruct (isEmpty p); [apply IH|].
    destruct (Path.isAbsolute p); [reflexivity | apply IH].
Qed.

(** In a process whose working directory is absolute, [path.resolve]
    gives an absolute path. *)
Lemma resolve_absolute (cwd : string) (paths : list string) :
  Path.isAbsolute cwd = true ->
  Path.isAbsolute (Path.resolve cwd paths) = true.
Proof.
  intros Hcwd. unfold Path.resolve.
  pose proof (resolveLoop_absolute_cwd cwd (rev paths) Hcwd EmptyString) as H.
  destruct (Path.resolveLoop _ _) as [resolvedPath resolvedAbsolute].
  cbn [snd] in H. subst resolvedAbsolute. reflexivity.
Qed.

(** An absolute last argument makes the earlier ones irrelevant. *)
Lemma resolve_absolute_last (cwd cur p : string) :
  Path.isAbsolute p = true ->
  Path.resolve cwd [cur; p] = Path.resolve cwd [p].
Proof.
  intros Hp. unfold Path.resolve. cbn [rev app Path.resolveLoop].
  now rewrite (absolute_nonEmpty _ Hp), Hp.
Qed.

(** ** Writing a file *)

Lemma stat_withNodes (w : Fs.System) (m : gmap string Fs.Node) (p : string) :
  Fs.stat (Fs.withNodes w m) p = m !! Fs.key w p.
Proof. reflexivity. Qed.

(** Creating a file: the new file holds the content, the other files
    hold what they held, and the directories are still directories. *)
Lemma writeFile_creates (w : Fs.System) (p : string) (content : list Z)
    (entries : list string) :
  Fs.stat w p = None ->
  Fs.stat w (Path.dirname (Fs.key w p)) = Some (Fs.Directory entries) ->
  exists w',
    Fs.writeFile w p content = inr w'
    /\ Fs.cwd w' = Fs.cwd w
    /\ Fs.stat w' p = Some (Fs.File content)
    /\ (forall q x, Fs.stat w q = Some (Fs.File x) ->
                    Fs.stat w' q = Some (Fs.File x))
    /\ (forall q, isDirectory w q = true -> isDirectory w' q = true)
    /\ (forall q, Fs.key w q <> Fs.key w p ->
                  isFile w' q = isFile w q).
Proof.
  intros Hnone Hparent. unfold Fs.writeFile.
  unfold Fs.stat in Hnone. rewrite Hnone, Hparent.
  eexists. split; [reflexivity|]. split; [reflexivity|].
  set (k := Fs.key w p) in *.
  set (d := Fs.key w (Path.dirname k)) in *.
  assert (Hkd : d <> k).
  { intros Heq. unfold Fs.stat in Hparent. fold d in Hparent.
    rewrite Heq, Hnone in Hparent. discriminate. }
  split; [|split; [|split]].
  - rewrite stat_withNodes. fold k. apply lookup_insert_eq.
  - intros q x Hq. rewrite stat_withNodes. unfold Fs.stat in Hq.
    destruct (decide (Fs.key w q = k)) as [Heq|Hne].
    { rewrite Heq, Hnone in Hq. discriminate. }
    rewrite lookup_insert_ne by congruence.
    destruct (decide (Fs.key w q = d)) as [Heq|Hne'].
    { unfold Fs.stat in Hparent. fold d in Hparent.
      rewrite Heq, Hparent in Hq. discriminate. }
    rewrite lookup_alter_ne by congruence. exact Hq.
  - intros q. unfold isDirectory. rewrite stat_withNodes. unfold Fs.stat.
    destruct (decide (Fs.key w q = k)) as [Heq|Hne].
    { rewrite Heq, Hnone. discriminate. }
    rewrite lookup_insert_ne by congruence.
    destruct (decide (Fs.key w q = d)) as [Heq|Hne'].
    + rewrite Heq, lookup_alter_eq.
      unfold Fs.stat in Hparent. fold d in Hparent. rewrite Hparent.
      cbn. now destruct (bool_decide _).
    + now rewrite lookup_alter_ne by congruence.
  - intros q Hne. unfold isFile. rewrite stat_withNodes. unfold Fs.stat.
    fold k in Hne. rewrite lookup_insert_ne by congruence.
    destruct (decide (Fs.key w q = d)) as [Heq|Hne'].
    + rewrite Heq, lookup_alter_eq.
      unfold Fs.stat in Hparent. fold d in Hparent. rewrite Hparent.
      cbn. now destruct (bool_decide _).
    + now rewrite lookup_alter_ne by congruence.
Qed.

(** What an accepted path is known to satisfy. *)
Lemma ifFileOK_returned (p : string) (ce cne : bool) (st st' : State) :
  ifFileOK p ce cne st = (st', Returned tt) ->
  let w := system st in
  let full := Path.resolve (Fs.cwd w) [currentWorkDir (session st); p] in
  (ce = true -> isFile w full = true)
  /\ (cne = true -> isFile w full = false)
  /\ isDirectory w (Path.dirname full) = true
  /\ startsWith (toLowerCase (Path.dirname full))
       (toLowerCase (rootWorkDir (session st))) = true.
Proof.
  rewrite ifFileOK_run, ifAbsolutePathOK_run. cbv zeta.
  destruct (isEmpty p); [discriminate|].
  destruct ce, cne, (isFile (system st) _); cbn [andb negb]; try discriminate.
  all: destruct (isEmpty (Path.dirname _)); [discriminate|].
  all: destruct (Path.isAbsolute (Path.dirname _)); cbn [negb];
    [|discriminate].
  all: destruct (isDirectory (system st) _); cbn [negb]; [|discriminate].
  all: destruct (startsWith _ _); cbn [negb]; [|discriminate].
  all: intros _; repeat split; congruence.
Qed.

Lemma isDirectory_stat (w : Fs.System) (p : string) :
  isDirectory w p = true -> exists entries, Fs.stat w p = Some (Fs.Directory entries).
Proof.
  unfold isDirectory. destruct (Fs.stat w p) as [[c|entries]|]; try discriminate.
  eauto.
Qed.

(** The directory of an accepted absolute path exists. *)
Lemma accepted_parent (p : string) (ce cne : bool) (st st' : State) :
  Path.isAbsolute p = true ->
  ifFileOK p ce cne st = (st', Returned tt) ->
  exists entries,
    Fs.stat (system st) (Path.dirname (Fs.key (system st) p))
    = Some (Fs.Directory entries).
Proof.
  intros Habs Hok. apply ifFileOK_returned in Hok as (_ & _ & Hdir & _).
  rewrite resolve_absolute_last in Hdir by exact Habs.
  now apply isDirectory_stat.
Qed.

Section Streams.

Context {codec : Codec} {digest : Digest} {stream : ReadStream}.

(** A read stream piped into a write stream on a new file, the content
    transformed by [f] on its way: [f] is [Utf8.recode] for [cp], followed
    by the compressor for [compress]. *)
Lemma pipe_to_new_file (st : State) (src dst : string) (content : list Z)
    (f : list Z -> list Z) :
  Path.isAbsolute dst = true ->
  ifFileOK dst false true st = (st, Returned tt) ->
  Fs.stat (system st) src = Some (Fs.File content) ->
  Fs.stat (system st) dst = None ->
  exists w',
    Fs.writeFile (system st) dst (f content) = inr w'
    /\ Fs.cwd w' = Fs.cwd (system st)
    /\ Fs.stat w' dst = Some (Fs.File (f content))
    /\ (forall q x, Fs.stat (system st) q = Some (Fs.File x) ->
                    Fs.stat w' q = Some (Fs.File x)).
Proof.
  intros Habs Hok Hsrc Hdst.
  destruct (accepted_parent _ _ _ _ _ Habs Hok) as [entries Hparent].
  destruct (writeFile_creates _ _ (f content) _ Hdst Hparent)
    as (w' & Hw & Hcwd & Hnew & Hold & _).
  exists w'. repeat split; auto.
Qed.

(** [cp]: the destination receives the source as a text stream passes it
    on, and the source is left as it was. *)
Lemma copyFile_run (st : State) (a b : string) (content : list Z) :
  let cwd := Fs.cwd (system st) in
  let src := pathOf st a in
  let dst := pathOf st b in
  Path.isAbsolute cwd = true ->
  ifFileOK src true false st = (st, Returned tt) ->
  ifFileOK dst false true st = (st, Returned tt) ->
  Fs.stat (system st) src = Some (Fs.File content) ->
  Fs.stat (system st) dst = None ->
  exists w',
    copyFile [COMMANDS.copyFile; a; b] st = (onSystem st w', Returned tt)
    /\ Fs.stat w' dst = Some (Fs.File (Utf8.recode content))
    /\ Fs.stat w' src = Some (Fs.File content).
Proof.
  intros cwd src dst Hcwd Hv1 Hv2 Hsrc Hdst.
  assert (Hadst : Path.isAbsolute dst = true) by now apply resolve_absolute.
  destruct (pipe_to_new_file st src dst content Utf8.recode Hadst Hv2 Hsrc Hdst)
    as (w' & Hw & _ & Hnew & Hold).
  exists w'. split; [|split; [exact Hnew | now apply Hold]].
  unfold copyFile.
  rewrite badCall_three.
  rewrite (bind_returned _ _ _ _ _ (resolveParam_run _ 1 st)).
  rewrite (bind_returned _ _ _ _ _ (resolveParam_run _ 2 st)).
  change (param [COMMANDS.copyFile; a; b] 1) with a.
  change (param [COMMANDS.copyFile; a; b] 2) with b.
  fold (pathOf st a) (pathOf st b). fold src dst.
  rewrite (bind_returned _ _ _ _ _ Hv1), (bind_returned _ _ _ _ _ Hv2).
  unfold createCopyingPromise, bind, getSystem, unhandled, Fs.readFile.
  rewrite Hsrc. cbn [ret]. rewrite Hw. reflexivity.
Qed.

(** [compress]: the destination receives the compressed text stream. *)
Lemma compressFile_run (st : State) (a b : string) (content : list Z) :
  let cwd := Fs.cwd (system st) in
  let src := pathOf st a in
  let dst := pathOf st b in
  Path.isAbsolute cwd = true ->
  ifFileOK src true false st = (st, Returned tt) ->
  ifFileOK dst false true st = (st, Returned tt) ->
  Fs.stat (system st) src = Some (Fs.File content) ->
  Fs.stat (system st) dst = None ->
  exists w',
    compressFile [COMMANDS.compressFile; a; b] st
    = (onSystem st w', Returned tt)
    /\ Fs.cwd w' = cwd
    /\ Fs.stat w' dst
       = Some (Fs.File (brotliCompress (Utf8.recode content)))
    /\ (forall q x, Fs.stat (system st) q = Some (Fs.File x) ->
                    Fs.stat w' q = Some (Fs.File x)).
Proof.
  intros cwd src dst Hcwd Hv1 Hv2 Hsrc Hdst.
  assert (Hadst : Path.isAbsolute dst = true) by now apply resolve_absolute.
  destruct (pipe_to_new_file st src dst content
              (fun c => brotliCompress (Utf8.recode c)) Hadst Hv2 Hsrc Hdst)
    as (w' & Hw & Hc & Hnew & Hold).
  exists w'. split; [|now repeat split].
  unfold compressFile.
  rewrite badCall_three.
  rewrite (bind_returned _ _ _ _ _ (resolveParam_run _ 1 st)).
  rewrite (bind_returned _ _ _ _ _ (resolveParam_run _ 2 st)).
  change (param [COMMANDS.compressFile; a; b] 1) with a.
  change (param [COMMANDS.compressFile; a; b] 2) with b.
  fold (pathOf st a) (pathOf st b). fold src dst.
  rewrite (bind_returned _ _ _ _ _ Hv1), (bind_returned _ _ _ _ _ Hv2).
  unfold bind, getSystem, unhandled, Fs.readFile.
  rewrite Hsrc. cbn [ret liftFs]. rewrite Hw. reflexivity.
Qed.

(** [decompress]: the destination receives what the decompressor makes of
    the bytes of the source. *)
Lemma decompressFile_run (st : State) (a b : string) (content data : list Z) :
  let cwd := Fs.cwd (system st) in
  let src := pathOf st a in
  let dst := pathOf st b in
  Path.isAbsolute cwd = true ->
  ifFileOK src true false st = (st, Returned tt) ->
  ifFileOK dst false true st = (st, Returned tt) ->
  Fs.stat (system st) src = Some (Fs.File content) ->
  Fs.stat (system st) dst = None ->
  brotliDecompress content = Some data ->
  exists w',
    decompressFile [COMMANDS.decompressFile; a; b] st
    = (onSystem st w', Returned tt)
    /\ Fs.cwd w' = cwd
    /\ Fs.stat w' dst = Some (Fs.File data)
    /\ (forall q x, Fs.stat (system st) q = Some (Fs.File x) ->
                    Fs.stat w' q = Some (Fs.File x)).
Proof.
  intros cwd src dst Hcwd Hv1 Hv2 Hsrc Hdst Hdata.
  assert (Hadst : Path.isAbsolute dst = true) by now apply resolve_absolute.
  destruct (pipe_to_new_file st src dst content (fun _ => data)
              Hadst Hv2 Hsrc Hdst)
    as (w' & Hw & Hc & Hnew & Hold).
  exists w'. split; [|now repeat split].
  unfold decompressFile.
  rewrite badCall_three.
  rewrite (bind_returned _ _ _ _ _ (resolveParam_run _ 1 st)).
  rewrite (bind_returned _ _ _ _ _ (resolveParam_run _ 2 st)).
  change (param [COMMANDS.decompressFile; a; b] 1) with a.
  change (param [COMMANDS.decompressFile; a; b] 2) with b.
  fold (pathOf st a) (pathOf st b). fold src dst.
  rewrite (bind_returned _ _ _ _ _ Hv1), (bind_returned _ _ _ _ _ Hv2).
  unfold bind at 1, getSystem.
  unfold bind at 1, unhandled, Fs.readFile.
  rewrite Hsrc. cbn [ret]. rewrite Hdata.
  unfold bind, liftFs. rewrite Hw. reflexivity.
Qed.

End Streams.

Lemma pathOf_onSystem (st : State) (w : Fs.System) :
  Fs.cwd w = Fs.cwd (system st) ->
  forall token, pathOf (onSystem st w) token = pathOf st token.
Proof. intros H token. unfold pathOf. cbn [system session onSystem]. now rewrite H. Qed.

Lemma onSystem_onSystem (st : State) (w w' : Fs.System) :
  onSystem (onSystem st w) w' = onSystem st w'.
Proof. reflexivity. Qed.

(** C5 (as amended): for whatever content the source [a] holds, and a
    codec whose decompressor gives back what its compressor was given,
    [compress a b], [decompress b c] and [compress c d] return one after
    the other, the files read are left as they were, and the second
    compressed file is the first one byte for byte:
    compress(decompress(Y)) is Y for every Y that [compress] produced.
    A content the decompressor refuses is not decompressed: the stream
    fails with nobody listening.  Each step is taken with its source and
    destination passing the validation and no file at the destination. *)
Theorem C5_compressed_file_round_trip {codec : Codec}
    (st : State) (a b c d : string) (content : list Z) :
  CodecInverts codec ->
  Forall (fun byte => 0 <= byte)%Z content ->
  Path.isAbsolute (Fs.cwd (system st)) = true ->
  Fs.stat (system st) (pathOf st a) = Some (Fs.File content) ->
  readyToWrite st (pathOf st a) (pathOf st b) ->
  let st1 := fst (compressFile [COMMANDS.compressFile; a; b] st) in
  readyToWrite st1 (pathOf st b) (pathOf st c) ->
  let st2 := fst (decompressFile [COMMANDS.decompressFile; b; c] st1) in
  readyToWrite st2 (pathOf st c) (pathOf st d) ->
  let st3 := fst (compressFile [COMMANDS.compressFile; c; d] st2) in
  (compressFile [COMMANDS.compressFile; a; b] ;;;
   decompressFile [COMMANDS.decompressFile; b; c] ;;;
   compressFile [COMMANDS.compressFile; c; d])%session st
  = (st3, Returned tt)
  /\ (exists compressed,
        Fs.stat (system st1) (pathOf st b) = Some (Fs.File compressed)
        /\ Fs.stat (system st3) (pathOf st b) = Some (Fs.File compressed)
        /\ Fs.stat (system st3) (pathOf st d) = Some (Fs.File compressed))
  /\ Fs.stat (system st3) (pathOf st a) = Some (Fs.File content)
  /\ (brotliDecompress content = None ->
      snd (decompressFile [COMMANDS.decompressFile; a; b] st)
      = Uncaught DecompressionFailed).
Proof.
  intros Hinv Hbytes Hcwd Hsrc (Hv1 & Hv2 & Hfree1) st1 Hready2 st2
    Hready3 st3.
  (* compress a b *)
  destruct (compressFile_run st a b _ Hcwd Hv1 Hv2 Hsrc Hfree1)
    as (w1 & Hrun1 & Hcwd1 & Hmid & Hkeep1).
  assert (Hst1 : st1 = onSystem st w1) by (subst st1; now rewrite Hrun1).
  clearbody st1. subst st1.
  pose proof (pathOf_onSystem st w1 Hcwd1) as Hp1.
  (* decompress b c *)
  destruct Hready2 as (Hv3 & Hv4 & Hfree2).
  pose proof (decompressFile_run (onSystem st w1) b c
                (brotliCompress (Utf8.recode content)) (Utf8.recode content))
    as Hstep2.
  cbv zeta in Hstep2. rewrite !Hp1 in Hstep2.
  cbn [system onSystem] in Hstep2. rewrite Hcwd1 in Hstep2.
  destruct (Hstep2 Hcwd Hv3 Hv4 Hmid Hfree2 (Hinv _))
    as (w2 & Hrun2 & Hcwd2 & Hdst & Hkeep2).
  clear Hstep2.
  assert (Hst2 : st2 = onSystem st w2).
  { subst st2. rewrite Hrun2. reflexivity. }
  clearbody st2. subst st2.
  pose proof (pathOf_onSystem st w2 Hcwd2) as Hp2.
  (* compress c d *)
  destruct Hready3 as (Hv5 & Hv6 & Hfree3).
  pose proof (compressFile_run (onSystem st w2) c d (Utf8.recode content))
    as Hstep3.
  cbv zeta in Hstep3. rewrite !Hp2 in Hstep3.
  cbn [system onSystem] in Hstep3. rewrite Hcwd2 in Hstep3.
  destruct (Hstep3 Hcwd Hv5 Hv6 Hdst Hfree3)
    as (w3 & Hrun3 & Hcwd3 & Hout & Hkeep3).
  clear Hstep3.
  rewrite Utf8Scalars.recode_idempotent in Hout by exact Hbytes.
  assert (Hst3 : st3 = onSystem st w3).
  { subst st3. rewrite Hrun3. reflexivity. }
  clearbody st3. subst st3.
  cbn [system onSystem].
  split; [|split; [|split]].
  - unfold bind. rewrite Hrun1, Hrun2. exact Hrun3.
  - exists (brotliCompress (Utf8.recode content)).
    split; [exact Hmid|]. split; [|exact Hout].
    apply Hkeep3, Hkeep2, Hmid.
  - apply Hkeep3, Hkeep2, Hkeep1, Hsrc.
  - intros Hnone. unfold decompressFile.
    rewrite badCall_three.
    rewrite (bind_returned _ _ _ _ _ (resolveParam_run _ 1 st)).
    rewrite (bind_returned _ _ _ _ _ (resolveParam_run _ 2 st)).
    change (param [COMMANDS.decompressFile; a; b] 1) with a.
    change (param [COMMANDS.decompressFile; a; b] 2) with b.
    fold (pathOf st a) (pathOf st b).
    rewrite (bind_returned _ _ _ _ _ Hv1), (bind_returned _ _ _ _ _ Hv2).
    unfold bind at 1, getSystem.
    unfold bind at 1, unhandled, Fs.readFile.
    rewrite Hsrc. cbn [ret]. rewrite Hnone.
    destruct (Fs.writeFile _ _ _); reflexivity.
Qed.

(** The file [raw.bin] of the sample system, which is not UTF-8 text,
    through the framing codec. *)
Lemma C5_compressed_file_round_trip_witness :
  let st1 :=
    fst (@compressFile Sample.frameCodec ["compress"; "raw.bin"; "raw.br"]
           Sample.initial) in
  let st2 :=
    fst (@decompressFile Sample.frameCodec ["decompress"; "raw.br"; "raw2.bin"]
           st1) in
  let st3 :=
    fst (@compressFile Sample.frameCodec ["compress"; "raw2.bin"; "raw2.br"]
           st2) in
  Fs.stat Sample.system "/home/user/raw.bin" = Some (Fs.File [255]%Z)
  /\ exists compressed,
       Fs.stat (system st1) "/home/user/raw.br" = Some (Fs.File compressed)
       /\ Fs.stat (system st3) "/home/user/raw2.br"
          = Some (Fs.File compressed).
Proof.
  intros st1 st2 st3.
  split; [vm_compute; reflexivity|].
  pose proof (@C5_compressed_file_round_trip Sample.frameCodec
                Sample.initial "raw.bin" "raw.br" "raw2.bin" "raw2.br"
                [255]%Z) as H.
  destruct H as (_ & (compressed & Hb & _ & Hd) & _).
  - intros data. reflexivity.
  - repeat constructor. discriminate.
  - reflexivity.
  - vm_compute. reflexivity.
  - repeat split; vm_compute; reflexivity.
  - repeat split; vm_compute; reflexivity.
  - repeat split; vm_compute; reflexivity.
  - exists compressed. split; [exact Hb | exact Hd].
Defined.

(** A content that is not a compressed stream is not decompressed, so
    that compressing what was decompressed does not give it back: for
    [a.txt], which holds the two bytes of [hi], [decompress] fails with
    nobody listening although the framing codec inverts, the session is
    over and no file holds the content again. *)
Lemma C5_plain_content_is_not_decompressed :
  let st := fst (Sample.after ["decompress a.txt out.txt";
                               "compress out.txt back.txt"]) in
  CodecInverts Sample.frameCodec
  /\ Fs.stat Sample.system "/home/user/a.txt" = Some (Fs.File [104; 105]%Z)
  /\ snd (Sample.after ["decompress a.txt out.txt";
                        "compress out.txt back.txt"])
     = Uncaught DecompressionFailed
  /\ Fs.stat (system st) "/home/user/back.txt" = None
  /\ Fs.stat (system st) "/home/user/back.txt"
     <> Fs.stat Sample.system "/home/user/a.txt".
Proof.
  split; [intros data; reflexivity|].
  vm_compute. repeat split; discriminate.
Qed.

(** The round trip the other way is exact on UTF-8 text only, because
    [#compressFile] reads its source as text: the byte 255 of [raw.bin]
    is restored as the three bytes of U+FFFD. *)
Lemma binary_content_not_restored :
  let st := fst (Sample.after ["compress raw.bin raw.br";
                               "decompress raw.br raw2.bin"]) in
  Fs.stat Sample.system "/home/user/raw.bin" = Some (Fs.File [255]%Z)
  /\ Fs.stat (system st) "/home/user/raw2.bin"
     = Some (Fs.File [239; 191; 189]%Z).
Proof. vm_compute. split; reflexivity. Qed.

(** The general form of C4's copy: on well-formed UTF-8 text [cp] is exact;
    on any other content the destination holds [Utf8.recode] of it. *)
Lemma copyFile_of_utf8_text {codec : Codec} {digest : Digest}
    (st : State) (a b : string) (text : list Z) :
  Forall Utf8.isScalar text ->
  Path.isAbsolute (Fs.cwd (system st)) = true ->
  Fs.stat (system st) (pathOf st a) = Some (Fs.File (Utf8.encode text)) ->
  readyToWrite st (pathOf st a) (pathOf st b) ->
  exists w',
    copyFile [COMMANDS.copyFile; a; b] st = (onSystem st w', Returned tt)
    /\ Fs.stat w' (pathOf st b) = Some (Fs.File (Utf8.encode text))
    /\ Fs.stat w' (pathOf st a) = Some (Fs.File (Utf8.encode text)).
Proof.
  intros Htext Hcwd Hsrc (Hv1 & Hv2 & Hfree).
  destruct (copyFile_run st a b _ Hcwd Hv1 Hv2 Hsrc Hfree)
    as (w' & Hrun & Hdst & Hkeep).
  rewrite Utf8Facts.recode_encode in Hdst by exact Htext.
  eauto.
Qed.

(** C4 (the code at the failing input): [cp raw.bin c.bin] passes the
    validation and returns, the source still holds the byte 255, and the
    destination holds the three bytes 239, 191, 189: the copy is the
    content decoded as UTF-8 and encoded again, not the content. *)
Theorem C4_copy_recodes_content :
  let st := fst (Sample.after ["cp raw.bin c.bin"]) in
  snd (Sample.after ["cp raw.bin c.bin"]) = Returned tt
  /\ terminal st = [currentDirLine Sample.home; promptLine]
  /\ Fs.stat Sample.system "/home/user/c.bin" = None
  /\ Fs.stat (system st) "/home/user/raw.bin" = Some (Fs.File [255]%Z)
  /\ Fs.stat (system st) "/home/user/c.bin"
     = Some (Fs.File (Utf8.recode [255]%Z))
  /\ Utf8.recode [255]%Z = [239; 191; 189]%Z.
Proof. vm_compute. repeat split; reflexivity. Qed.

(** * Further properties of the code *)

(** ** Root, user name and file system under the handlers *)

Lemma keepsRoot_bind {A B} (m : M A) (k : A -> M B) :
  KeepsRoot m -> (forall a, KeepsRoot (k a)) -> KeepsRoot (bind m k).
Proof.
  intros Hm Hk st. specialize (Hm st). unfold bind.
  destruct (m st) as [st' [a|e|e|]]; cbn [fst] in *; try exact Hm.
  destruct Hm as [Hr Hu]. destruct (Hk a st') as [Hr' Hu'].
  split; congruence.
Qed.

Lemma keepsSystem_bind {A B} (m : M A) (k : A -> M B) :
  KeepsSystem m -> (forall a, KeepsSystem (k a)) -> KeepsSystem (bind m k).
Proof.
  intros Hm Hk st. specialize (Hm st). unfold bind.
  destruct (m st) as [st' [a|e|e|]]; cbn [fst] in *; try exact Hm.
  now rewrite Hk.
Qed.

Ltac kept_by_evaluation :=
  repeat match goal with
         | |- _ /\ _ => split
         | |- KeepsRoot _ => intros [[? ? ? ?] ? ?]; cbn
         | |- KeepsSystem _ => intros [[? ? ? ?] ? ?]; cbn
         end;
  auto.

Lemma kept_ret {A} (a : A) : KeepsRoot (ret a) /\ KeepsSystem (ret a).
Proof. kept_by_evaluation. Qed.

Lemma kept_throw {A} (e : Err) :
  KeepsRoot (@throw A e) /\ KeepsSystem (@throw A e).
Proof. kept_by_evaluation. Qed.

Lemma kept_uncaught {A} (e : Err) :
  KeepsRoot (@uncaught A e) /\ KeepsSystem (@uncaught A e).
Proof. kept_by_evaluation. Qed.

Lemma kept_exitProcess {A} :
  KeepsRoot (@exitProcess A) /\ KeepsSystem (@exitProcess A).
Proof. kept_by_evaluation. Qed.

Lemma kept_getSession : KeepsRoot getSession /\ KeepsSystem getSession.
Proof. kept_by_evaluation. Qed.

Lemma kept_getSystem : KeepsRoot getSystem /\ KeepsSystem getSystem.
Proof. kept_by_evaluation. Qed.

Lemma kept_setSystem (w : Fs.System) : KeepsRoot (setSystem w).
Proof. kept_by_evaluation. Qed.

Lemma kept_setCurrentWorkDir (dir : string) :
  KeepsRoot (setCurrentWorkDir dir) /\ KeepsSystem (setCurrentWorkDir dir).
Proof. kept_by_evaluation. Qed.

Lemma kept_write (data : string) (ty : OUTPUT_MESSAGE_TYPES) (nl : bool) :
  KeepsRoot (write data ty nl) /\ KeepsSystem (write data ty nl).
Proof. kept_by_evaluation. Qed.

Lemma kept_writeText (text : list Z) :
  KeepsRoot (writeText text) /\ KeepsSystem (writeText text).
Proof. kept_by_evaluation. Qed.

Lemma kept_printTable (data : list Js.Object) (properties : list string) :
  KeepsRoot (printTable data properties)
  /\ KeepsSystem (printTable data properties).
Proof. kept_by_evaluation. Qed.

Lemma kept_liftFs {A} (syscall path : string) (r : Fs.Errno + A) :
  KeepsRoot (liftFs syscall path r) /\ KeepsSystem (liftFs syscall path r).
Proof. destruct r; kept_by_evaluation. Qed.

Lemma kept_unhandled {A} (syscall path : string) (r : Fs.Errno + A) :
  KeepsRoot (unhandled syscall path r)
  /\ KeepsSystem (unhandled syscall path r).
Proof. destruct r; kept_by_evaluation. Qed.

Lemma kept_liftFsTwoPaths {A} (syscall path dest : string)
    (r : Fs.Errno + A) :
  KeepsRoot (liftFsTwoPaths syscall path dest r)
  /\ KeepsSystem (liftFsTwoPaths syscall path dest r).
Proof. destruct r; kept_by_evaluation. Qed.

Lemma kept_forEach_writeText (events : list (list Z)) :
  KeepsRoot (forEach events writeText)
  /\ KeepsSystem (forEach events writeText).
Proof.
  induction events as [|event later [IHr IHs]]; cbn [forEach].
  - apply kept_ret.
  - destruct (kept_writeText event) as [Hr Hs].
    split; [apply keepsRoot_bind | apply keepsSystem_bind]; auto.
Qed.

Ltac kept_primitive :=
  idtac;
  match goal with
  | |- _ (ret _) => apply kept_ret
  | |- _ (throw _) => apply kept_throw
  | |- _ (uncaught _) => apply kept_uncaught
  | |- _ exitProcess => apply kept_exitProcess
  | |- _ getSession => apply kept_getSession
  | |- _ getSystem => apply kept_getSystem
  | |- KeepsRoot (setSystem _) => apply kept_setSystem
  | |- _ (setCurrentWorkDir _) => apply kept_setCurrentWorkDir
  | |- _ (write _ _ _) => apply kept_write
  | |- _ (writeText _) => apply kept_writeText
  | |- _ (printTable _ _) => apply kept_printTable
  | |- _ (liftFs _ _ _) => apply kept_liftFs
  | |- _ (liftFsTwoPaths _ _ _ _) => apply kept_liftFsTwoPaths
  | |- _ (forEach _ writeText) => apply kept_forEach_writeText
  | |- _ (unhandled _ _ _) => apply kept_unhandled
  end.

Ltac kept :=
  repeat (intros; cbv zeta;
          match goal with
          | |- KeepsRoot (bind _ _) => apply keepsRoot_bind
          | |- KeepsSystem (bind _ _) => apply keepsSystem_bind
          | |- _ (if ?b then _ else _) => destruct b
          | |- _ (match ?x with _ => _ end) => destruct x
          | |- _ => kept_primitive
          end).

Ltac unfold_all_handlers :=
  unfold exit, goUpper, changeDir, listDir, printFileContent,
    createEmptyFile, renameFile, copyFile, moveFile, deleteFile, osCommand,
    getFileHash, compressFile, decompressFile, createCopyingPromise,
    getEOL, getCPUsInfo, getHomeDir, getUserName, getCPUArchitecture,
    close, showInvalidInputMessage, showOperationFailedMessage,
    printCurrentWorkDir, printProptForCommand, writeln,
    ifFileOK, ifAbsolutePathOK, resolveParam.

Ltac case_command :=
  unfold dispatch; cbv zeta;
  repeat match goal with
         | |- _ (if bool_decide ?P then _ else _) =>
             destruct (bool_decide_reflect P)
         end.

Section Kept.

Context {codec : Codec} {digest : Digest} {stream : ReadStream}.

Lemma dispatch_keeps_root (params : list string) : KeepsRoot (dispatch params).
Proof. case_command; unfold_all_handlers; kept. Qed.

Lemma handleUserInput_keeps_root (inputs : string) :
  KeepsRoot (handleUserInput inputs).
Proof.
  unfold handleUserInput.
  apply keepsRoot_bind; [apply kept_getSession|]. intros s.
  destruct (ignoreStdin s); [apply kept_ret|].
  destruct (_ =? _)%nat; [apply kept_ret|].
  intros st. unfold tryCatchFinally.
  pose proof (dispatch_keeps_root (getCommandWithParameters inputs) st) as H.
  destruct (dispatch (getCommandWithParameters inputs) st)
    as [st' [[]|e|e|]]; cbn [fst] in *; exact H.
Qed.

(** Only the writing commands touch the file system. *)
Lemma dispatch_keeps_system (params : list string) :
  (forall command, In command writingCommands ->
                   params !! 0%nat <> Some command) ->
  KeepsSystem (dispatch params).
Proof.
  intros Hw.
  assert (H1 := Hw COMMANDS.createEmptyFile (or_introl eq_refl)).
  assert (H2 := Hw COMMANDS.renameFile (or_intror (or_introl eq_refl))).
  assert (H3 := Hw COMMANDS.copyFile
                  (or_intror (or_intror (or_introl eq_refl)))).
  assert (H4 := Hw COMMANDS.moveFile
                  (or_intror (or_intror (or_intror (or_introl eq_refl))))).
  assert (H5 := Hw COMMANDS.deleteFile
                  (or_intror (or_intror (or_intror (or_intror
                     (or_introl eq_refl)))))).
  assert (H6 := Hw COMMANDS.compressFile
                  (or_intror (or_intror (or_intror (or_intror (or_intror
                     (or_introl eq_refl))))))).
  assert (H7 := Hw COMMANDS.decompressFile
                  (or_intror (or_intror (or_intror (or_intror (or_intror
                     (or_intror (or_introl eq_refl)))))))).
  case_command; try contradiction; unfold_all_handlers; kept.
Qed.

(** X1: whatever lines the session handles, and however each of them
    ends, the root directory and the user name are the ones the session
    was created with. *)
Theorem X1_root_and_user_name_never_change (lines : list string) (st : State) :
  rootWorkDir (session (fst (handleLines lines st))) = rootWorkDir (session st)
  /\ userName (session (fst (handleLines lines st))) = userName (session st).
Proof.
  revert st. induction lines as [|inputs more IH]; intros st.
  - split; reflexivity.
  - cbn [handleLines]. unfold bind.
    pose proof (handleUserInput_keeps_root inputs st) as [Hr Hu].
    destruct (handleUserInput inputs st) as [st' [[]|e|e|]];
      cbn [fst] in *; try (split; assumption).
    destruct (IH st') as [Hr' Hu']. split; congruence.
Qed.

(** X2: a line whose command is none of [add], [rn], [cp], [mv], [rm],
    [compress], [decompress] leaves the file system exactly as it was,
    whatever its arguments and however it ends. *)
Theorem X2_reading_commands_keep_the_file_system
    (inputs : string) (st : State) :
  (forall command, In command writingCommands ->
                   commandOf inputs <> Some command) ->
  system (fst (handleUserInput inputs st)) = system st.
Proof.
  intros Hw. pose proof (dispatch_keeps_system _ Hw st) as Hkeep.
  unfold handleUserInput, bind at 1, getSession.
  destruct (ignoreStdin (session st)); [reflexivity|].
  destruct (_ =? _)%nat; [reflexivity|].
  unfold tryCatchFinally.
  destruct (dispatch (getCommandWithParameters inputs) st)
    as [st' [[]|e|e|]]; cbn [fst] in *; exact Hkeep.
Qed.

End Kept.

(** [cat a.txt] in the sample session. *)
Lemma X2_reading_commands_keep_the_file_system_witness :
  system (fst (@handleUserInput Sample.frameCodec Sample.lengthDigest Sample.flushingStream
                 "cat a.txt" Sample.initial))
  = Sample.system.
Proof.
  apply (@X2_reading_commands_keep_the_file_system Sample.frameCodec
           Sample.lengthDigest Sample.flushingStream "cat a.txt" Sample.initial).
  intros command Hin. vm_compute in Hin |- *.
  repeat (destruct Hin as [<-|Hin]; [discriminate|]). destruct Hin.
Defined.

(** ** Lines the dispatcher settles by itself *)

Section Dispatcher.

Context {codec : Codec} {digest : Digest} {stream : ReadStream}.

(** X3: a line made of white space only (or empty) is dropped: nothing is
    written, not even the prompt, and the state is the same. *)
Theorem X3_blank_line_is_dropped (inputs : string) (st : State) :
  trim inputs = EmptyString ->
  handleUserInput inputs st = (st, Returned tt).
Proof.
  intros Hblank. unfold handleUserInput, bind, getSession.
  destruct (ignoreStdin (session st)); [reflexivity|].
  rewrite getCommandWithParameters_split, Hblank. reflexivity.
Qed.

Lemma dispatch_unknown (command : string) (args : list string) :
  ~ In command commandNames ->
  dispatch (command :: args) = showInvalidInputMessage.
Proof.
  intros Hnot. unfold dispatch.
  change ((command :: args) !! 0%nat) with (Some command). cbv zeta.
  repeat match goal with
         | |- context [bool_decide (Some command = Some ?c)] =>
             rewrite (bool_decide_eq_false_2 (Some command = Some c))
               by (intros [= ->]; apply Hnot; vm_compute; tauto)
         end.
  reflexivity.
Qed.

(** X4: a line whose first token is not the name of a command is answered
    with the "Invalid input" line, then the current directory and the
    prompt, session and file system unchanged; the tokens after it are
    not looked at. *)
Theorem X4_unknown_command_is_invalid_input
    (st : State) (inputs command : string) (args : list string) :
  ignoreStdin (session st) = false ->
  getCommandWithParameters inputs = command :: args ->
  ~ In command commandNames ->
  handleUserInput inputs st
  = (appendTerminal st
       [invalidInputLine; currentDirLine (currentWorkDir (session st));
        promptLine],
     Returned tt).
Proof.
  intros Hin Htok Hnot.
  unfold handleUserInput, bind at 1, getSession. rewrite Hin, Htok.
  cbn [length Nat.eqb]. unfold tryCatchFinally.
  rewrite (dispatch_unknown _ _ Hnot).
  rewrite showInvalidInputMessage_run by exact Hin.
  rewrite status_lines_run by exact Hin.
  now rewrite appendTerminal_app.
Qed.

(** X5: the line [.exit] writes the farewell with the user name and ends
    the process: neither the current directory nor the prompt is written
    after it, and no later line is handled. *)
Theorem X5_exit_ends_the_session
    (st : State) (inputs : string) (more : list string) :
  ignoreStdin (session st) = false ->
  getCommandWithParameters inputs = [COMMANDS.exit] ->
  handleLines (inputs :: more) st
  = (appendTerminal st [farewellLine (userName (session st))], Exited).
Proof.
  intros Hin Htok. cbn [handleLines]. unfold bind at 1.
  unfold handleUserInput, bind at 1, getSession. rewrite Hin, Htok.
  cbn [length Nat.eqb]. unfold tryCatchFinally, dispatch.
  change ([COMMANDS.exit] !! 0%nat) with (Some COMMANDS.exit). cbv zeta.
  rewrite bool_decide_eq_true_2 by reflexivity.
  unfold exit. rewrite badCall_one. unfold close, bind at 1, getSession.
  unfold bind. rewrite writeln_run by exact Hin. reflexivity.
Qed.

(** X6: an error thrown by a handler of any command is rendered as one red
    line, "Operation failed: " followed by the message of the error, after
    which the current directory and the prompt are written and the session
    goes on; the state is the one the handler left. *)
Theorem X6_thrown_error_is_one_line
    (st st' : State) (inputs : string) (e : Err) :
  ignoreStdin (session st) = false ->
  dispatch (getCommandWithParameters inputs) st = (st', Thrown e) ->
  getCommandWithParameters inputs <> [] ->
  handleUserInput inputs st
  = (appendTerminal st'
       [Written (outputStringOf ("Operation failed: " +:+ message e)
                   error true);
        currentDirLine (currentWorkDir (session st')); promptLine],
     Returned tt).
Proof.
  intros Hin Hrun Hne.
  pose proof (handleUserInput_outcomes st inputs Hin Hne) as H.
  now rewrite Hrun in H.
Qed.

End Dispatcher.

Lemma X3_blank_line_is_dropped_witness :
  @handleUserInput Sample.frameCodec Sample.lengthDigest Sample.flushingStream "    " Sample.initial
  = (Sample.initial, Returned tt).
Proof.
  apply (@X3_blank_line_is_dropped Sample.frameCodec Sample.lengthDigest Sample.flushingStream).
  vm_compute. reflexivity.
Defined.

Lemma X4_unknown_command_is_invalid_input_witness :
  @handleUserInput Sample.frameCodec Sample.lengthDigest Sample.flushingStream "dir /tmp"
    Sample.initial
  = (appendTerminal Sample.initial
       [invalidInputLine; currentDirLine Sample.home; promptLine],
     Returned tt).
Proof.
  apply (@X4_unknown_command_is_invalid_input Sample.frameCodec
           Sample.lengthDigest Sample.flushingStream Sample.initial "dir /tmp" "dir" ["/tmp"]);
    [reflexivity | vm_compute; reflexivity |].
  vm_compute. intros H.
  repeat (destruct H as [H|H]; [discriminate H|]). destruct H.
Defined.

Lemma X5_exit_ends_the_session_witness :
  Sample.after [".exit"; "ls"]
  = (appendTerminal Sample.initial [farewellLine "tester"], Exited).
Proof.
  apply (@X5_exit_ends_the_session Sample.frameCodec Sample.lengthDigest Sample.flushingStream
           Sample.initial ".exit" ["ls"]);
    [reflexivity | vm_compute; reflexivity].
Defined.

Lemma X6_thrown_error_is_one_line_witness :
  @handleUserInput Sample.frameCodec Sample.lengthDigest Sample.flushingStream "cd .." Sample.initial
  = (appendTerminal Sample.initial
       [Written (outputStringOf
                   "Operation failed: You can't go upper than root directory"
                   error true);
        currentDirLine Sample.home; promptLine],
     Returned tt).
Proof.
  apply (@X6_thrown_error_is_one_line Sample.frameCodec Sample.lengthDigest Sample.flushingStream
           Sample.initial Sample.initial "cd .." UpperThanRoot);
    [reflexivity | vm_compute; reflexivity | vm_compute; discriminate].
Defined.

(** ** [path.resolve] on its own results *)

Lemma splitSlash_not_nil (s : string) : Path.splitSlash s <> [].
Proof.
  destruct s as [|c s]; cbn [Path.splitSlash]; [discriminate|].
  destruct (Ascii.eqb c SLASH); discriminate.
Qed.

Lemma splitSlash_append (a b : string) :
  Path.splitSlash (a +:+ String SLASH b)
  = Path.splitSlash a ++ Path.splitSlash b.
Proof.
  induction a as [|c a IH]; autorewrite with str; cbn [Path.splitSlash].
  - now rewrite Ascii.eqb_refl.
  - rewrite IH. destruct (Ascii.eqb c SLASH); [reflexivity|].
    pose proof (splitSlash_not_nil a) as Hne.
    destruct (Path.splitSlash a); [congruence | reflexivity].
Qed.

Lemma splitSlash_plain (seg : string) :
  occurs SLASH seg = false -> Path.splitSlash seg = [seg].
Proof.
  induction seg as [|c seg IH]; [reflexivity|].
  cbn [occurs Path.splitSlash]. intros H. apply orb_false_iff in H as [Hc Hs].
  rewrite Hc, (IH Hs). reflexivity.
Qed.

Lemma joinSlash_cons (seg next : string) (segs : list string) :
  Path.joinSlash (seg :: next :: segs)
  = seg +:+ String SLASH (Path.joinSlash (next :: segs)).
Proof. reflexivity. Qed.

(** Joining plain segments and splitting again gives the segments. *)
Lemma splitSlash_joinSlash (segs : list string) :
  segs <> [] -> Forall plainSegment segs ->
  Path.splitSlash (Path.joinSlash segs) = segs.
Proof.
  intros Hne Hplain. induction Hplain as [|seg segs Hseg Hrest IH];
    [congruence|].
  destruct Hseg as (_ & _ & _ & Hfree).
  destruct segs as [|next segs].
  - cbn [Path.joinSlash String.concat]. now apply splitSlash_plain.
  - rewrite joinSlash_cons, splitSlash_append, IH by discriminate.
    now rewrite splitSlash_plain.
Qed.

Lemma splitSlash_free (s : string) :
  Forall (fun seg => occurs SLASH seg = false) (Path.splitSlash s).
Proof.
  induction s as [|c s IH]; cbn [Path.splitSlash].
  - constructor; [reflexivity | constructor].
  - destruct (Ascii.eqb c SLASH) eqn:Hc.
    + constructor; [reflexivity | exact IH].
    + pose proof (splitSlash_not_nil s) as Hne.
      destruct (Path.splitSlash s) as [|seg segs]; [congruence|].
      inversion IH as [|? ? Hseg Hsegs]; subst. cbn [hd tl].
      constructor; [|exact Hsegs]. cbn [occurs]. now rewrite Hc, Hseg.
Qed.

Lemma eqb_dot_neq (seg : string) (lit : string) :
  String.eqb seg lit = false -> seg <> lit.
Proof. intros H ->. now rewrite String.eqb_refl in H. Qed.

(** Below the root, [normalizeString] keeps plain segments only. *)
Lemma pushSegment_plain (stack : list string) (seg : string) :
  occurs SLASH seg = false ->
  Forall plainSegment stack ->
  Forall plainSegment (Path.pushSegment false stack seg).
Proof.
  intros Hfree Hstack. unfold Path.pushSegment.
  destruct (isEmpty seg) eqn:He; cbn [orb]; [exact Hstack|].
  destruct (String.eqb seg ".") eqn:Hd; [exact Hstack|].
  destruct (String.eqb seg "..") eqn:Hdd.
  - destruct Hstack as [|top below Htop Hbelow]; [constructor|].
    destruct (String.eqb top ".."); [constructor|]; assumption.
  - constructor; [|exact Hstack].
    repeat split; auto using eqb_dot_neq.
Qed.

Lemma fold_pushSegment_plain (segs : list string) :
  forall stack,
    Forall (fun seg => occurs SLASH seg = false) segs ->
    Forall plainSegment stack ->
    Forall plainSegment (fold_left (Path.pushSegment false) segs stack).
Proof.
  induction segs as [|seg segs IH]; intros stack Hfree Hstack; [exact Hstack|].
  inversion Hfree as [|? ? Hseg Hsegs]; subst. cbn [fold_left].
  apply IH; [exact Hsegs|]. now apply pushSegment_plain.
Qed.

Lemma normalizeSegments_plain (p : string) :
  Forall plainSegment (Path.normalizeSegments false (Path.splitSlash p)).
Proof.
  unfold Path.normalizeSegments.
  apply Forall_rev, fold_pushSegment_plain; [apply splitSlash_free|constructor].
Qed.

Lemma pushSegment_of_plain (stack : list string) (seg : string) :
  plainSegment seg -> Path.pushSegment false stack seg = seg :: stack.
Proof.
  intros (He & Hd & Hdd & _). unfold Path.pushSegment. rewrite He.
  destruct (String.eqb_spec seg "."); [contradiction|].
  destruct (String.eqb_spec seg ".."); [contradiction|]. reflexivity.
Qed.

Lemma fold_pushSegment_of_plain (segs : list string) :
  forall stack,
    Forall plainSegment segs ->
    fold_left (Path.pushSegment false) segs stack = rev segs ++ stack.
Proof.
  induction segs as [|seg segs IH]; intros stack Hplain; [reflexivity|].
  inversion Hplain as [|? ? Hseg Hsegs]; subst. cbn [fold_left rev].
  rewrite (pushSegment_of_plain _ _ Hseg), (IH _ Hsegs).
  now rewrite <- app_assoc.
Qed.

Lemma normalizeSegments_wrapped (segs : list string) :
  Forall plainSegment segs ->
  Path.normalizeSegments false (EmptyString :: segs ++ [EmptyString]) = segs.
Proof.
  intros Hplain. unfold Path.normalizeSegments.
  change (fold_left (Path.pushSegment false)
            (EmptyString :: segs ++ [EmptyString]) [])
    with (fold_left (Path.pushSegment false) (segs ++ [EmptyString]) []).
  rewrite fold_left_app, (fold_pushSegment_of_plain _ _ Hplain).
  cbn [fold_left].
  change (Path.pushSegment false (rev segs ++ []) EmptyString)
    with (rev segs ++ []).
  now rewrite app_nil_r, rev_involutive.
Qed.

(** A path made of plain segments is what [path.resolve] makes of it. *)
Lemma resolve_of_plain (cwd : string) (segs : list string) :
  Forall plainSegment segs ->
  Path.resolve cwd ["/" +:+ Path.joinSlash segs] = "/" +:+ Path.joinSlash segs.
Proof.
  intros Hplain. unfold Path.resolve. cbn [rev app Path.resolveLoop].
  change (isEmpty ("/" +:+ Path.joinSlash segs)) with false.
  change (Path.isAbsolute ("/" +:+ Path.joinSlash segs)) with true.
  cbv iota. cbn [negb]. f_equal. unfold Path.normalizeString. f_equal.
  change (("/" +:+ Path.joinSlash segs) +:+ "/" +:+ EmptyString)
    with (String SLASH (Path.joinSlash segs +:+ String SLASH EmptyString)).
  cbn [Path.splitSlash]. rewrite Ascii.eqb_refl, splitSlash_append.
  destruct segs as [|seg segs].
  - reflexivity.
  - rewrite splitSlash_joinSlash by (auto; discriminate).
    now apply normalizeSegments_wrapped.
Qed.

(** In a process whose working directory is absolute, resolving a
    resolved path changes nothing. *)
Lemma resolve_idempotent (cwd : string) (paths : list string) :
  Path.isAbsolute cwd = true ->
  Path.resolve cwd [Path.resolve cwd paths] = Path.resolve cwd paths.
Proof.
  intros Hcwd.
  assert (Hshape : exists segs, Forall plainSegment segs
                                /\ Path.resolve cwd paths
                                   = "/" +:+ Path.joinSlash segs).
  { unfold Path.resolve.
    pose proof (resolveLoop_absolute_cwd cwd (rev paths) Hcwd EmptyString) as H.
    destruct (Path.resolveLoop _ _) as [resolvedPath resolvedAbsolute].
    cbn [snd] in H. subst resolvedAbsolute. cbn [negb].
    eexists. split; [apply (normalizeSegments_plain resolvedPath)|].
    reflexivity. }
  destruct Hshape as (segs & Hplain & ->). now apply resolve_of_plain.
Qed.

(** ** The paths the handlers work with *)

Lemma pathOf_absolute (st : State) (token : string) :
  Path.isAbsolute (Fs.cwd (system st)) = true ->
  Path.isAbsolute (pathOf st token) = true.
Proof. intros H. now apply resolve_absolute. Qed.

(** The operating system reads a handler's path as it is. *)
Lemma key_pathOf (st : State) (token : string) :
  Path.isAbsolute (Fs.cwd (system st)) = true ->
  Fs.key (system st) (pathOf st token) = pathOf st token.
Proof. intros H. now apply resolve_idempotent. Qed.

(** So does [#ifFileOK], which resolves it once more. *)
Lemma resolve_pathOf (st : State) (token : string) :
  Path.isAbsolute (Fs.cwd (system st)) = true ->
  Path.resolve (Fs.cwd (system st))
    [currentWorkDir (session st); pathOf st token]
  = pathOf st token.
Proof.
  intros H. rewrite resolve_absolute_last by now apply pathOf_absolute.
  now apply resolve_idempotent.
Qed.

Lemma ifFileOK_pathOf (st : State) (token : string) (ce cne : bool) :
  Path.isAbsolute (Fs.cwd (system st)) = true ->
  ifFileOK (pathOf st token) ce cne st
  = if ce && negb (isFile (system st) (pathOf st token)) then
      (st, Thrown (FileDoesNotExist (pathOf st token)))
    else if cne && isFile (system st) (pathOf st token) then
      (st, Thrown (FileAlreadyExists (pathOf st token)))
    else ifAbsolutePathOK (Path.dirname (pathOf st token)) true st.
Proof.
  intros H. rewrite ifFileOK_run. cbv zeta. rewrite (resolve_pathOf _ _ H).
  now rewrite (absolute_nonEmpty _ (pathOf_absolute _ _ H)).
Qed.

(** The validators look at the session and the file system only. *)
Lemma ifFileOK_terminal (st : State) (p : string) (ce cne : bool)
    (outputs : list Output) :
  fst (ifFileOK p ce cne st) = st
  /\ snd (ifFileOK p ce cne (appendTerminal st outputs))
     = snd (ifFileOK p ce cne st)
  /\ fst (ifFileOK p ce cne (appendTerminal st outputs))
     = appendTerminal st outputs.
Proof.
  rewrite !ifFileOK_run, !ifAbsolutePathOK_run. cbv zeta.
  cbn [system session appendTerminal].
  repeat match goal with |- context [if ?b then _ else _] => destruct b end;
    repeat split; reflexivity.
Qed.

(** ** Removing and renaming in the file system *)

Lemma unlink_file (w : Fs.System) (p : string) (content : list Z) :
  Fs.stat w p = Some (Fs.File content) ->
  exists w',
    Fs.unlink w p = inr w'
    /\ Fs.cwd w' = Fs.cwd w
    /\ Fs.stat w' p = None
    /\ (forall q x, Fs.key w q <> Fs.key w p ->
                    Fs.stat w q = Some (Fs.File x) ->
                    Fs.stat w' q = Some (Fs.File x))
    /\ (forall q, isDirectory w q = true -> isDirectory w' q = true)
    /\ (forall q, Fs.stat w q = None -> Fs.stat w' q = None).
Proof.
  intros Hfile. unfold Fs.unlink. unfold Fs.stat in Hfile. rewrite Hfile.
  eexists. split; [reflexivity|]. split; [reflexivity|].
  set (k := Fs.key w p) in *.
  set (d := Fs.key w (Path.dirname k)).
  split; [|split; [|split]].
  - rewrite stat_withNodes. fold k. apply lookup_delete_eq.
  - intros q x Hne Hq. rewrite stat_withNodes. unfold Fs.stat in Hq.
    rewrite lookup_delete_ne by congruence.
    destruct (decide (Fs.key w q = d)) as [Heq|Hne'].
    + rewrite Heq, lookup_alter_eq. rewrite Heq in Hq. now rewrite Hq.
    + now rewrite lookup_alter_ne by congruence.
  - intros q. unfold isDirectory. rewrite stat_withNodes. unfold Fs.stat.
    destruct (decide (Fs.key w q = k)) as [Heq|Hne].
    { rewrite Heq, Hfile. discriminate. }
    rewrite lookup_delete_ne by congruence.
    destruct (decide (Fs.key w q = d)) as [Heq|Hne'].
    + rewrite Heq, lookup_alter_eq.
      destruct (Fs.nodes w !! d) as [[c|es]|]; cbn; auto.
    + now rewrite lookup_alter_ne by congruence.
  - intros q Hq. rewrite stat_withNodes. unfold Fs.stat in Hq.
    destruct (decide (Fs.key w q = k)) as [Heq|Hne].
    { rewrite Heq. apply lookup_delete_eq. }
    rewrite lookup_delete_ne by congruence.
    destruct (decide (Fs.key w q = d)) as [Heq|Hne'].
    + rewrite Heq, lookup_alter_eq. rewrite Heq in Hq. now rewrite Hq.
    + now rewrite lookup_alter_ne by congruence.
Qed.

Lemma writeFile_keeps_absent (w w' : Fs.System) (p : string) (content : list Z) :
  Fs.writeFile w p content = inr w' ->
  Fs.cwd w' = Fs.cwd w
  /\ Fs.stat w' p = Some (Fs.File content)
  /\ (forall q, Fs.key w q <> Fs.key w p ->
                Fs.stat w q = None -> Fs.stat w' q = None).
Proof.
  unfold Fs.writeFile.
  destruct (Fs.nodes w !! Fs.key w p) as [[c|es]|] eqn:Hk; [|discriminate|].
  - intros [= <-]. split; [reflexivity|]. split.
    + rewrite stat_withNodes. apply lookup_insert_eq.
    + intros q Hne Hq. rewrite stat_withNodes.
      now rewrite lookup_insert_ne by congruence.
  - destruct (Fs.stat w (Path.dirname (Fs.key w p))) as [[c|es]|];
      try discriminate.
    intros [= <-]. split; [reflexivity|]. split.
    + rewrite stat_withNodes. apply lookup_insert_eq.
    + intros q Hne Hq. rewrite stat_withNodes. unfold Fs.stat in Hq.
      rewrite lookup_insert_ne by congruence.
      destruct (decide (Fs.key w q = Fs.key w (Path.dirname (Fs.key w p))))
        as [Heq|Hne'].
      * rewrite Heq, lookup_alter_eq. rewrite Heq in Hq. now rewrite Hq.
      * now rewrite lookup_alter_ne by congruence.
Qed.

(** Renaming a file onto a free name in an existing directory. *)
Lemma rename_file (w : Fs.System) (src dst : string) (content : list Z)
    (entries : list string) :
  Fs.stat w src = Some (Fs.File content) ->
  Fs.stat w dst = None ->
  Fs.stat w (Path.dirname (Fs.key w dst)) = Some (Fs.Directory entries) ->
  exists w',
    Fs.rename w src dst = inr w'
    /\ Fs.cwd w' = Fs.cwd w
    /\ Fs.stat w' dst = Some (Fs.File content)
    /\ Fs.stat w' src = None
    /\ (forall q x, Fs.key w q <> Fs.key w src ->
                    Fs.stat w q = Some (Fs.File x) ->
                    Fs.stat w' q = Some (Fs.File x)).
Proof.
  intros Hsrc Hdst Hparent.
  assert (Hne : Fs.key w src <> Fs.key w dst).
  { intros Heq. unfold Fs.stat in Hsrc, Hdst. rewrite Heq, Hdst in Hsrc.
    discriminate. }
  destruct (unlink_file w src content Hsrc)
    as (w1 & Hunlink & Hcwd1 & Hgone & Hfiles1 & Hdirs1 & Habsent1).
  assert (Hkey : forall q, Fs.key w1 q = Fs.key w q)
    by (intros q; unfold Fs.key; now rewrite Hcwd1).
  assert (Hparent1 : exists entries1,
             Fs.stat w1 (Path.dirname (Fs.key w1 dst))
             = Some (Fs.Directory entries1)).
  { rewrite Hkey. apply isDirectory_stat, Hdirs1.
    unfold isDirectory. now rewrite Hparent. }
  destruct Hparent1 as [entries1 Hparent1].
  destruct (writeFile_creates w1 dst content entries1 (Habsent1 _ Hdst)
              Hparent1)
    as (w2 & Hwrite & Hcwd2 & Hnew & Hfiles2 & _ & _).
  exists w2. unfold Fs.rename. unfold Fs.stat in Hsrc. rewrite Hsrc.
  rewrite bool_decide_eq_false_2 by exact Hne. rewrite Hunlink, Hwrite.
  split; [reflexivity|]. split; [congruence|]. split; [exact Hnew|].
  split.
  - destruct (writeFile_keeps_absent _ _ _ _ Hwrite) as (_ & _ & Hkeep).
    apply Hkeep; [rewrite !Hkey; exact Hne | exact Hgone].
  - intros q x Hq Hfile. apply Hfiles2, Hfiles1; assumption.
Qed.

(** ** The file handlers on accepted paths *)

Lemma accepted_file (st st' : State) (token : string) (cne : bool) :
  Path.isAbsolute (Fs.cwd (system st)) = true ->
  ifFileOK (pathOf st token) true cne st = (st', Returned tt) ->
  exists content,
    Fs.stat (system st) (pathOf st token) = Some (Fs.File content).
Proof.
  intros Hcwd Hok. apply ifFileOK_returned in Hok as (Hfile & _).
  specialize (Hfile eq_refl). rewrite (resolve_pathOf _ _ Hcwd) in Hfile.
  unfold isFile in Hfile.
  destruct (Fs.stat (system st) (pathOf st token)) as [[c|es]|];
    try discriminate.
  eauto.
Qed.

Lemma isFile_stat (w : Fs.System) (p : string) (content : list Z) :
  Fs.stat w p = Some (Fs.File content) -> isFile w p = true.
Proof. unfold isFile. now intros ->. Qed.

Lemma isFile_absent (w : Fs.System) (p : string) :
  Fs.stat w p = None -> isFile w p = false.
Proof. unfold isFile. now intros ->. Qed.

Section FileHandlers.

Context {codec : Codec} {digest : Digest} {stream : ReadStream}.

(** X7: [add] on an accepted path with nothing at it creates an empty
    file there and leaves every other file as it was; the same [add]
    again is refused with "already exists" and changes nothing. *)
Theorem X7_add_creates_an_empty_file_once (st : State) (p : string) :
  let P := pathOf st p in
  Path.isAbsolute (Fs.cwd (system st)) = true ->
  ifFileOK P false true st = (st, Returned tt) ->
  Fs.stat (system st) P = None ->
  exists w',
    createEmptyFile [COMMANDS.createEmptyFile; p] st
    = (onSystem st w', Returned tt)
    /\ Fs.stat w' P = Some (Fs.File [])
    /\ (forall q x, Fs.stat (system st) q = Some (Fs.File x) ->
                    Fs.stat w' q = Some (Fs.File x))
    /\ createEmptyFile [COMMANDS.createEmptyFile; p] (onSystem st w')
       = (onSystem st w', Thrown (FileAlreadyExists P)).
Proof.
  intros P Hcwd Hok Hfree. subst P.
  destruct (accepted_parent _ _ _ _ _ (pathOf_absolute _ p Hcwd) Hok)
    as [entries Hparent].
  destruct (writeFile_creates _ _ [] _ Hfree Hparent)
    as (w' & Hw & Hcwd' & Hnew & Hold & _).
  exists w'. split; [|split; [exact Hnew | split; [exact Hold|]]].
  - unfold createEmptyFile. rewrite badCall_two.
    rewrite (bind_returned _ _ _ _ _ (resolveParam_run _ 1 st)).
    change (param [COMMANDS.createEmptyFile; p] 1) with p.
    fold (pathOf st p).
    rewrite (bind_returned _ _ _ _ _ Hok).
    unfold bind, getSystem, liftFs. now rewrite Hw.
  - unfold createEmptyFile. rewrite badCall_two.
    rewrite (bind_returned _ _ _ _ _ (resolveParam_run _ 1 _)).
    change (param [COMMANDS.createEmptyFile; p] 1) with p.
    fold (pathOf (onSystem st w') p).
    assert (Hcwd2 : Path.isAbsolute (Fs.cwd (system (onSystem st w'))) = true)
      by (cbn [system onSystem]; now rewrite Hcwd').
    apply bind_thrown. rewrite (ifFileOK_pathOf _ _ _ _ Hcwd2).
    rewrite (pathOf_onSystem st w' Hcwd'). cbn [system onSystem andb].
    now rewrite (isFile_stat _ _ _ Hnew).
Qed.

(** X8: [rm] on an accepted path removes the file and leaves every other
    file as it was; after it, [rm] and [cat] of the same path are refused
    with "does not exist". *)
Theorem X8_rm_removes_the_file (st : State) (p : string) :
  let P := pathOf st p in
  Path.isAbsolute (Fs.cwd (system st)) = true ->
  ifFileOK P true false st = (st, Returned tt) ->
  exists w',
    deleteFile [COMMANDS.deleteFile; p] st = (onSystem st w', Returned tt)
    /\ Fs.stat w' P = None
    /\ (forall q x, Fs.key (system st) q <> P ->
                    Fs.stat (system st) q = Some (Fs.File x) ->
                    Fs.stat w' q = Some (Fs.File x))
    /\ deleteFile [COMMANDS.deleteFile; p] (onSystem st w')
       = (onSystem st w', Thrown (FileDoesNotExist P))
    /\ printFileContent [COMMANDS.printFileContent; p] (onSystem st w')
       = (onSystem st w', Thrown (FileDoesNotExist P)).
Proof.
  intros P Hcwd Hok. subst P.
  destruct (accepted_file _ _ _ _ Hcwd Hok) as [content Hfile].
  destruct (unlink_file _ _ _ Hfile)
    as (w' & Hw & Hcwd' & Hgone & Hold & _).
  rewrite (key_pathOf _ _ Hcwd) in Hold.
  assert (Hcwd2 : Path.isAbsolute (Fs.cwd (system (onSystem st w'))) = true)
    by (cbn [system onSystem]; now rewrite Hcwd').
  exists w'. split; [|split; [exact Hgone | split; [exact Hold|split]]].
  - unfold deleteFile. rewrite badCall_two.
    rewrite (bind_returned _ _ _ _ _ (resolveParam_run _ 1 st)).
    change (param [COMMANDS.deleteFile; p] 1) with p.
    fold (pathOf st p).
    rewrite (bind_returned _ _ _ _ _ Hok).
    unfold bind, getSystem, liftFs. now rewrite Hw.
  - unfold deleteFile. rewrite badCall_two.
    rewrite (bind_returned _ _ _ _ _ (resolveParam_run _ 1 _)).
    change (param [COMMANDS.deleteFile; p] 1) with p.
    fold (pathOf (onSystem st w') p).
    apply bind_thrown. rewrite (ifFileOK_pathOf _ _ _ _ Hcwd2).
    rewrite (pathOf_onSystem st w' Hcwd'). cbn [system onSystem andb].
    now rewrite (isFile_absent _ _ Hgone).
  - unfold printFileContent. rewrite badCall_two.
    rewrite (bind_returned _ _ _ _ _ (resolveParam_run _ 1 _)).
    change (param [COMMANDS.printFileContent; p] 1) with p.
    fold (pathOf (onSystem st w') p).
    apply bind_thrown. rewrite (ifFileOK_pathOf _ _ _ _ Hcwd2).
    rewrite (pathOf_onSystem st w' Hcwd'). cbn [system onSystem andb].
    now rewrite (isFile_absent _ _ Hgone).
Qed.

(** X9: [rn] on an accepted source and an accepted, free destination
    moves the content, byte for byte, to the destination: the source is
    gone and every other file is as it was. *)
Theorem X9_rn_moves_the_content (st : State) (a b : string) :
  let src := pathOf st a in
  let dst := pathOf st b in
  Path.isAbsolute (Fs.cwd (system st)) = true ->
  readyToWrite st src dst ->
  exists content w',
    Fs.stat (system st) src = Some (Fs.File content)
    /\ renameFile [COMMANDS.renameFile; a; b] st = (onSystem st w', Returned tt)
    /\ Fs.stat w' dst = Some (Fs.File content)
    /\ Fs.stat w' src = None
    /\ (forall q x, Fs.key (system st) q <> src ->
                    Fs.stat (system st) q = Some (Fs.File x) ->
                    Fs.stat w' q = Some (Fs.File x)).
Proof.
  intros src dst Hcwd (Hv1 & Hv2 & Hfree). subst src dst.
  destruct (accepted_file _ _ _ _ Hcwd Hv1) as [content Hfile].
  destruct (accepted_parent _ _ _ _ _ (pathOf_absolute _ b Hcwd) Hv2)
    as [entries Hparent].
  destruct (rename_file _ _ _ _ _ Hfile Hfree Hparent)
    as (w' & Hw & _ & Hnew & Hgone & Hold).
  rewrite (key_pathOf _ _ Hcwd) in Hold.
  exists content, w'. split; [exact Hfile|]. split; [|now repeat split].
  unfold renameFile. rewrite badCall_three.
  rewrite (bind_returned _ _ _ _ _ (resolveParam_run _ 1 st)).
  rewrite (bind_returned _ _ _ _ _ (resolveParam_run _ 2 st)).
  change (param [COMMANDS.renameFile; a; b] 1) with a.
  change (param [COMMANDS.renameFile; a; b] 2) with b.
  fold (pathOf st a) (pathOf st b).
  rewrite (bind_returned _ _ _ _ _ Hv1), (bind_returned _ _ _ _ _ Hv2).
  unfold bind, getSystem, liftFs. now rewrite Hw.
Qed.

(** X10: [cp] on an accepted source and an accepted, free destination
    returns; the destination then holds the content of the source as a
    UTF-8 text stream passes it on ([Utf8.recode]), and the source and
    every other file are as they were. *)
Theorem X10_cp_writes_the_recoded_content (st : State) (a b : string) :
  let src := pathOf st a in
  let dst := pathOf st b in
  Path.isAbsolute (Fs.cwd (system st)) = true ->
  readyToWrite st src dst ->
  exists content w',
    Fs.stat (system st) src = Some (Fs.File content)
    /\ copyFile [COMMANDS.copyFile; a; b] st = (onSystem st w', Returned tt)
    /\ Fs.stat w' dst = Some (Fs.File (Utf8.recode content))
    /\ (forall q x, Fs.stat (system st) q = Some (Fs.File x) ->
                    Fs.stat w' q = Some (Fs.File x)).
Proof.
  intros src dst Hcwd (Hv1 & Hv2 & Hfree). subst src dst.
  destruct (accepted_file _ _ _ _ Hcwd Hv1) as [content Hfile].
  destruct (pipe_to_new_file st (pathOf st a) (pathOf st b) content
              Utf8.recode (pathOf_absolute _ b Hcwd) Hv2 Hfile Hfree)
    as (w' & Hw & _ & Hnew & Hold).
  exists content, w'. split; [exact Hfile|]. split; [|now split].
  unfold copyFile. rewrite badCall_three.
  rewrite (bind_returned _ _ _ _ _ (resolveParam_run _ 1 st)).
  rewrite (bind_returned _ _ _ _ _ (resolveParam_run _ 2 st)).
  change (param [COMMANDS.copyFile; a; b] 1) with a.
  change (param [COMMANDS.copyFile; a; b] 2) with b.
  fold (pathOf st a) (pathOf st b).
  rewrite (bind_returned _ _ _ _ _ Hv1), (bind_returned _ _ _ _ _ Hv2).
  unfold createCopyingPromise, bind, getSystem, unhandled, Fs.readFile.
  rewrite Hfile. cbn [ret]. now rewrite Hw.
Qed.

(** X11: [mv] on an accepted source and an accepted, free destination is
    [cp] followed by the removal of the source: the destination holds the
    recoded content, the source is gone, and every other file is as it
    was. *)
Theorem X11_mv_copies_then_removes (st : State) (a b : string) :
  let src := pathOf st a in
  let dst := pathOf st b in
  Path.isAbsolute (Fs.cwd (system st)) = true ->
  readyToWrite st src dst ->
  exists content w',
    Fs.stat (system st) src = Some (Fs.File content)
    /\ moveFile [COMMANDS.moveFile; a; b] st = (onSystem st w', Returned tt)
    /\ Fs.stat w' dst = Some (Fs.File (Utf8.recode content))
    /\ Fs.stat w' src = None
    /\ (forall q x, Fs.key (system st) q <> src ->
                    Fs.stat (system st) q = Some (Fs.File x) ->
                    Fs.stat w' q = Some (Fs.File x)).
Proof.
  intros src dst Hcwd (Hv1 & Hv2 & Hfree). subst src dst.
  destruct (accepted_file _ _ _ _ Hcwd Hv1) as [content Hfile].
  destruct (pipe_to_new_file st (pathOf st a) (pathOf st b) content
              Utf8.recode (pathOf_absolute _ b Hcwd) Hv2 Hfile Hfree)
    as (w1 & Hw1 & Hcwd1 & Hnew & Hold).
  assert (Hkey : forall q, Fs.key w1 q = Fs.key (system st) q)
    by (intros q; unfold Fs.key; now rewrite Hcwd1).
  destruct (unlink_file w1 (pathOf st a) content (Hold _ _ Hfile))
    as (w2 & Hw2 & Hcwd2 & Hgone & Hold2 & _).
  assert (Hne : Fs.key w1 (pathOf st b) <> Fs.key w1 (pathOf st a)).
  { rewrite !Hkey. intros Heq. unfold Fs.stat in Hfile, Hfree.
    rewrite <- Heq, Hfree in Hfile. discriminate. }
  exists content, w2. split; [exact Hfile|]. split; [|split; [|split]].
  - unfold moveFile. rewrite badCall_three.
    rewrite (bind_returned _ _ _ _ _ (resolveParam_run _ 1 st)).
    rewrite (bind_returned _ _ _ _ _ (resolveParam_run _ 2 st)).
    change (param [COMMANDS.moveFile; a; b] 1) with a.
    change (param [COMMANDS.moveFile; a; b] 2) with b.
    fold (pathOf st a) (pathOf st b).
    rewrite (bind_returned _ _ _ _ _ Hv1), (bind_returned _ _ _ _ _ Hv2).
    unfold createCopyingPromise, bind, getSystem, unhandled, Fs.readFile,
      liftFs, setSystem.
    rewrite Hfile. cbn [ret]. rewrite Hw1. unfold ret. cbn [system].
    now rewrite Hw2.
  - apply Hold2; [exact Hne | exact Hnew].
  - exact Hgone.
  - intros q x Hq Hx. apply Hold2; [|now apply Hold].
    rewrite !Hkey, (key_pathOf _ _ Hcwd). exact Hq.
Qed.

End FileHandlers.

(** ** Reading handlers *)

Lemma writeText_run (text : list Z) (st : State) :
  ignoreStdin (session st) = false ->
  writeText text st = (appendTerminal st [WrittenText text], Returned tt).
Proof.
  destruct st as [[root cur ignore name] w t]. cbn. intros ->. reflexivity.
Qed.

Lemma ifFileOK_after_output (st : State) (p : string) (ce cne : bool)
    (outputs : list Output) :
  ifFileOK p ce cne st = (st, Returned tt) ->
  ifFileOK p ce cne (appendTerminal st outputs)
  = (appendTerminal st outputs, Returned tt).
Proof.
  intros H. destruct (ifFileOK_terminal st p ce cne outputs) as (_ & Hs & Hf).
  rewrite H in Hs. cbn [snd] in Hs.
  destruct (ifFileOK p ce cne (appendTerminal st outputs)) as [st1 o].
  cbn [fst snd] in *. congruence.
Qed.

Lemma forEach_writeText_run (events : list (list Z)) :
  forall st,
    ignoreStdin (session st) = false ->
    forEach events writeText st
    = (appendTerminal st (map WrittenText events), Returned tt).
Proof.
  induction events as [|event later IH]; intros st Hin; cbn [forEach map].
  - unfold ret. now rewrite appendTerminal_nil.
  - unfold bind. rewrite writeText_run by exact Hin.
    rewrite IH by exact Hin. now rewrite appendTerminal_app.
Qed.

Lemma textWritten_events (events : list (list Z)) (later : list Output) :
  textWritten (map WrittenText events ++ later)
  = List.concat events ++ textWritten later.
Proof.
  induction events as [|event events IH]; [reflexivity|].
  cbn [map app textWritten List.concat]. now rewrite IH, app_assoc.
Qed.

(** The stream of the sample system delivers the text. *)
Lemma decodeFrom_decodeBuffer (bytes : list Z) :
  forall pending,
    Utf8.decodeFrom pending bytes
    = fst (Utf8.decodeBuffer pending bytes)
      ++ Utf8.flush (snd (Utf8.decodeBuffer pending bytes)).
Proof.
  induction bytes as [|b rest IH]; intros pending.
  - now destruct pending.
  - cbn [Utf8.decodeFrom Utf8.decodeBuffer].
    destruct pending as [p|].
    + destruct ((Utf8.lower p <=? b)%Z && (b <=? Utf8.upper p)%Z).
      * destruct (Utf8.bytesNeeded p) as [|[|n]].
        -- rewrite (IH None). destruct (Utf8.decodeBuffer None rest).
           reflexivity.
        -- rewrite (IH None). destruct (Utf8.decodeBuffer None rest).
           reflexivity.
        -- apply IH.
      * destruct (Utf8.startSequence b) as [e p'].
        rewrite (IH p'). destruct (Utf8.decodeBuffer p' rest).
        cbn [fst snd app]. now rewrite app_assoc.
    + destruct (Utf8.startSequence b) as [e p'].
      rewrite (IH p'). destruct (Utf8.decodeBuffer p' rest).
      cbn [fst snd app]. now rewrite app_assoc.
Qed.

Lemma flushingStream_delivers_text : DeliversText Sample.flushingStream.
Proof.
  intros content. unfold dataEvents, Sample.flushingStream, Utf8.decode.
  rewrite (decodeFrom_decodeBuffer content None).
  destruct (Utf8.decodeBuffer None content) as [text held]. cbn [fst snd].
  split.
  - rewrite concat_app.
    destruct text, held; cbn; now rewrite ?app_nil_r.
  - apply Forall_app. split; destruct text, held; cbn;
      repeat constructor; discriminate.
Qed.

(** The content that ends inside a sequence comes in two events. *)
Example flushingStream_at_a_cut_sequence :
  @dataEvents Sample.flushingStream [65; 195]%Z = [[65]; [65533]]%Z.
Proof. reflexivity. Qed.

Section Reading.

Context {codec : Codec} {digest : Digest} {stream : ReadStream}.

Lemma printFileContent_run (st : State) (p : string) (content : list Z) :
  ignoreStdin (session st) = false ->
  ifFileOK (pathOf st p) true false st = (st, Returned tt) ->
  Fs.stat (system st) (pathOf st p) = Some (Fs.File content) ->
  printFileContent [COMMANDS.printFileContent; p] st
  = (appendTerminal st (shownContent content), Returned tt).
Proof.
  intros Hin Hok Hfile.
  unfold printFileContent. rewrite badCall_two.
  rewrite (bind_returned _ _ _ _ _ (resolveParam_run _ 1 st)).
  change (param [COMMANDS.printFileContent; p] 1) with p.
  fold (pathOf st p).
  rewrite (bind_returned _ _ _ _ _ Hok).
  unfold bind at 1, getSystem. unfold bind at 1, liftFs, Fs.readFile.
  rewrite Hfile. unfold ret at 1. unfold shownContent.
  unfold bind. rewrite forEach_writeText_run by exact Hin.
  rewrite writeln_run by exact Hin. now rewrite appendTerminal_app.
Qed.

(** X12: [cat] on an accepted file writes the text of each ['data'] event
    of the read stream, in their order, and then an end of line, and
    changes neither the session nor the file system; a second [cat] of
    the same file writes the same again.  When the stream delivers the
    text, what is written of the file is its content decoded as UTF-8,
    whatever the events cut it into. *)
Theorem X12_cat_twice_writes_the_same (st : State) (p : string)
    (content : list Z) :
  ignoreStdin (session st) = false ->
  ifFileOK (pathOf st p) true false st = (st, Returned tt) ->
  Fs.stat (system st) (pathOf st p) = Some (Fs.File content) ->
  printFileContent [COMMANDS.printFileContent; p] st
  = (appendTerminal st (shownContent content), Returned tt)
  /\ (printFileContent [COMMANDS.printFileContent; p] ;;;
      printFileContent [COMMANDS.printFileContent; p])%session st
     = (appendTerminal st (shownContent content ++ shownContent content),
        Returned tt)
  /\ (DeliversText stream ->
      textWritten (shownContent content) = Utf8.decode content).
Proof.
  intros Hin Hok Hfile.
  pose proof (printFileContent_run st p content Hin Hok Hfile) as Hrun.
  split; [exact Hrun|]. split.
  - unfold bind. rewrite Hrun.
    rewrite (printFileContent_run (appendTerminal st (shownContent content))
               p content); [now rewrite appendTerminal_app | exact Hin | |].
    + now apply (ifFileOK_after_output st (pathOf st p)).
    + exact Hfile.
  - intros Hlaw. unfold shownContent. rewrite textWritten_events.
    cbn [textWritten]. rewrite app_nil_r. apply Hlaw.
Qed.

(** X13: [hash] on an accepted file writes one line, the digest of the
    bytes of the file as they are, and changes neither the session nor
    the file system. *)
Theorem X13_hash_writes_the_digest_of_the_bytes (st : State) (p : string)
    (content : list Z) :
  ignoreStdin (session st) = false ->
  ifFileOK (pathOf st p) true false st = (st, Returned tt) ->
  Fs.stat (system st) (pathOf st p) = Some (Fs.File content) ->
  getFileHash [COMMANDS.getFileHash; p] st
  = (appendTerminal st [Written (outputStringOf (sha256Hex content) none true)],
     Returned tt).
Proof.
  intros Hin Hok Hfile.
  unfold getFileHash. rewrite badCall_two.
  rewrite (bind_returned _ _ _ _ _ (resolveParam_run _ 1 st)).
  change (param [COMMANDS.getFileHash; p] 1) with p.
  fold (pathOf st p).
  rewrite (bind_returned _ _ _ _ _ Hok).
  unfold bind, getSystem, liftFs, Fs.readFile.
  rewrite Hfile. unfold ret. now rewrite writeln_run.
Qed.

(** ** Validation before effects *)

Lemma ifFileOK_state (p : string) (ce cne : bool) (st : State) :
  ifFileOK p ce cne st = (st, Returned tt)
  \/ exists e, ifFileOK p ce cne st = (st, Thrown e).
Proof.
  rewrite ifFileOK_run, ifAbsolutePathOK_run. cbv zeta.
  repeat match goal with |- context [if ?b then _ else _] => destruct b end;
    eauto.
Qed.

Ltac start_handler :=
  unfold exit, goUpper, changeDir, listDir, printFileContent,
    createEmptyFile, renameFile, copyFile, moveFile, deleteFile,
    getFileHash, compressFile, decompressFile;
  first [rewrite badCall_two | rewrite badCall_three];
  repeat match goal with
         | |- context [resolveParam ?ps ?i] =>
             rewrite (bind_returned _ _ _ _ _ (resolveParam_run ps i _))
         end.

(** X14: for every file command given its number of arguments, when one of
    its path validations fails, the handler ends with the error of the
    first validation to fail and the state (session, file system and
    terminal) is the one before the command: nothing is done before all
    the validations have passed. *)
Theorem X14_validation_precedes_effects
    (st : State) (command : string) (args : list string)
    (checks : list (nat * bool * bool)) (e : Err) :
  In (command, checks) validationTable ->
  length args = length checks ->
  firstRejection st (command :: args) checks = Some e ->
  dispatch (command :: args) st = (st, Thrown e).
Proof.
  intros Hin Hlen Hrej. unfold validationTable in Hin.
  repeat (destruct Hin as [[= <- <-] | Hin]); [.. | destruct Hin];
    cbn [length] in Hlen;
    (destruct args as [|a [|b [|c args]]]; try discriminate Hlen);
    unfold dispatch;
    match goal with
    | |- context [(?c :: ?l) !! 0%nat] =>
        change ((c :: l) !! 0%nat) with (Some c)
    end;
    cbv zeta beta; decide_commands; start_handler;
    cbn [firstRejection] in Hrej;
    repeat match goal with
           | H : context [param (?c :: ?l) ?i] |- _ =>
               let v := eval cbv in (param (c :: l) i) in
               change (param (c :: l) i) with v in H
           | |- context [param (?c :: ?l) ?i] =>
               let v := eval cbv in (param (c :: l) i) in
               change (param (c :: l) i) with v
           end;
    unfold pathOf in Hrej;
    repeat match goal with
           | H : context [snd (ifFileOK ?p ?ce ?cne st)] |- _ =>
               let Hok := fresh "Hok" in
               let Hbad := fresh "Hbad" in
               let e' := fresh "e" in
               destruct (ifFileOK_state p ce cne st) as [Hok | [e' Hbad]];
               [ rewrite Hok in H; cbn [snd] in H;
                 rewrite (bind_returned _ _ _ _ _ Hok)
               | rewrite Hbad in H; cbn [snd] in H;
                 injection H as <-; now apply bind_thrown ]
           end;
    discriminate Hrej.
Qed.

End Reading.

(** ** Listing and navigation *)

Section Navigation.

Context {codec : Codec} {digest : Digest} {stream : ReadStream}.

(** X15: [ls] in a current directory that can be read writes one table
    with the columns [Name] and [Type]: a row per entry that [readdir]
    reports, each entry exactly once, the directories first and then the
    others, typed [directory] and [file]; within each group the rows are
    in the order of [readdir].  Nothing else changes. *)
Theorem X15_ls_lists_every_entry_once (st : State) (elements : list string) :
  let w := system st in
  let dir := currentWorkDir (session st) in
  let isDir element := isDirectory w (Path.join dir element) in
  Fs.readdir w dir = inr elements ->
  exists objects,
    listDir [COMMANDS.listDir] st
    = (appendTerminal st [ConsoleTable objects ["Name"; "Type"]], Returned tt)
    /\ tableCells (ConsoleTable objects ["Name"; "Type"])
       = map (fun element => [Js.VString element; Js.VString "directory"])
             (List.filter isDir elements)
         ++ map (fun element => [Js.VString element; Js.VString "file"])
                (List.filter (fun element => negb (isDir element)) elements)
    /\ Permutation
         (map (fun row => hd Js.VUndefined row)
              (tableCells (ConsoleTable objects ["Name"; "Type"])))
         (map Js.VString elements).
Proof.
  intros w dir isDir Hdir.
  exists (listedObjects w dir elements).
  assert (Hcells :
            tableCells (ConsoleTable (listedObjects w dir elements)
                          ["Name"; "Type"])
            = map (fun element => [Js.VString element; Js.VString "directory"])
                  (List.filter isDir elements)
              ++ map (fun element => [Js.VString element; Js.VString "file"])
                     (List.filter (fun element => negb (isDir element))
                        elements)).
  { unfold tableCells. cbn [map]. apply listedObjects_order. }
  split; [|split; [exact Hcells|]].
  - now apply listDir_run.
  - rewrite Hcells, map_app, !map_map. cbn [hd].
    rewrite <- map_app. apply Permutation_map, filter_partition_permutation.
Qed.

(** X16: [cd] with one argument is accepted exactly when the path resolved
    from the argument is an existing directory whose lower-case form
    starts with the lower-case root; the current directory then becomes
    that path and nothing else changes.  A refused [cd] throws and leaves
    the state as it was. *)
Theorem X16_cd_accepts_directories_under_the_root_prefix
    (st st' : State) (p : string) :
  let P := pathOf st p in
  (changeDir [COMMANDS.changeDir; p] st = (st', Returned tt)
   <-> Path.isAbsolute P = true
       /\ isDirectory (system st) P = true
       /\ startsWith (toLowerCase P) (toLowerCase (rootWorkDir (session st)))
          = true
       /\ st' = withCurrentWorkDir st P)
  /\ (forall e, changeDir [COMMANDS.changeDir; p] st = (st', Thrown e) ->
                st' = st).
Proof.
  intros P. unfold changeDir. rewrite badCall_two.
  rewrite (bind_returned _ _ _ _ _ (resolveParam_run _ 1 st)).
  change (param [COMMANDS.changeDir; p] 1) with p.
  fold (pathOf st p). fold P.
  unfold bind. rewrite ifAbsolutePathOK_run.
  destruct (Path.isAbsolute P) eqn:Habs; cbn [negb].
  - rewrite (absolute_nonEmpty _ Habs). cbn [andb].
    destruct (isDirectory (system st) P); cbn [negb].
    + destruct (startsWith _ _); cbn [negb].
      * split; [|discriminate]. unfold setCurrentWorkDir, withCurrentWorkDir.
        split; [intros [= <-]; auto | intros (_ & _ & _ & ->); reflexivity].
      * split; [split; [discriminate | intros (_ & _ & H & _); discriminate H]
               | now intros e [= <- _]].
    + split; [split; [discriminate | intros (_ & H & _); discriminate H]
             | now intros e [= <- _]].
  - destruct (isEmpty P);
      (split; [split; [discriminate | intros (H & _); discriminate H]
              | now intros e [= <- _]]).
Qed.

Lemma normalizeSegments_up (segs : list string) :
  Forall plainSegment segs ->
  Path.normalizeSegments false
    (EmptyString :: segs ++ [".."; EmptyString])
  = removelast segs.
Proof.
  intros Hplain. unfold Path.normalizeSegments.
  change (fold_left (Path.pushSegment false)
            (EmptyString :: segs ++ [".."; EmptyString]) [])
    with (fold_left (Path.pushSegment false) (segs ++ [".."; EmptyString]) []).
  rewrite fold_left_app, (fold_pushSegment_of_plain _ _ Hplain).
  rewrite app_nil_r. cbn [fold_left].
  destruct (rev segs) as [|top below] eqn:Hrev.
  - apply (f_equal (@rev string)) in Hrev. rewrite rev_involutive in Hrev.
    now subst segs.
  - assert (Hsegs : segs = rev below ++ [top]).
    { apply (f_equal (@rev string)) in Hrev.
      now rewrite rev_involutive in Hrev. }
    assert (Htop : plainSegment top).
    { rewrite Hsegs in Hplain. apply Forall_app in Hplain as [_ Hlast].
      now inversion Hlast. }
    destruct Htop as (_ & _ & Hdd & _).
    unfold Path.pushSegment at 2. cbn [isEmpty orb String.eqb Ascii.eqb].
    change (String.eqb ".." ".") with false.
    change (String.eqb ".." "..") with true. cbv iota.
    destruct (String.eqb_spec top ".."); [contradiction|].
    change (Path.pushSegment false below EmptyString) with below.
    rewrite Hsegs. now rewrite removelast_last.
Qed.

(** [path.resolve(dir, '..')] on a path made of plain segments drops the
    last one. *)
Lemma resolve_parent (cwd : string) (segs : list string) :
  Forall plainSegment segs ->
  Path.resolve cwd ["/" +:+ Path.joinSlash segs; ".."]
  = "/" +:+ Path.joinSlash (removelast segs).
Proof.
  intros Hplain. unfold Path.resolve. cbn [rev app Path.resolveLoop].
  change (isEmpty "..") with false. change (Path.isAbsolute "..") with false.
  cbv iota.
  change (isEmpty ("/" +:+ Path.joinSlash segs)) with false.
  change (Path.isAbsolute ("/" +:+ Path.joinSlash segs)) with true.
  cbv iota. cbn [negb]. f_equal. unfold Path.normalizeString. f_equal.
  change (("/" +:+ Path.joinSlash segs) +:+ "/" +:+ ".." +:+ "/" +:+ EmptyString)
    with (String SLASH
            (Path.joinSlash segs
             +:+ String SLASH (".." +:+ String SLASH EmptyString))).
  cbn [Path.splitSlash]. rewrite Ascii.eqb_refl, splitSlash_append.
  change (Path.splitSlash (".." +:+ String SLASH EmptyString))
    with [".."; EmptyString].
  destruct segs as [|seg segs]; [reflexivity|].
  rewrite splitSlash_joinSlash by (auto; discriminate).
  now apply normalizeSegments_up.
Qed.

Lemma joinSlash_injective_suffix (R S : list string) :
  Forall plainSegment R -> Forall plainSegment S ->
  Path.joinSlash (R ++ S) = Path.joinSlash R -> S = [].
Proof.
  intros HR HS Heq.
  assert (HRS : Forall plainSegment (R ++ S)) by now apply Forall_app.
  destruct R as [|r R].
  - destruct S as [|s S]; [reflexivity|exfalso].
    cbn [app] in Heq. apply (f_equal Path.splitSlash) in Heq.
    rewrite splitSlash_joinSlash in Heq by (auto; discriminate).
    cbn in Heq. injection Heq as -> _.
    inversion HS as [|? ? (He & _) _]. discriminate He.
  - apply (f_equal Path.splitSlash) in Heq.
    rewrite !splitSlash_joinSlash in Heq by (auto; discriminate).
    apply (f_equal (@length string)) in Heq. rewrite length_app in Heq.
    destruct S; [reflexivity | cbn in Heq; lia].
Qed.

(** X17: when the root is a path of plain segments and the current
    directory is that path followed by more plain segments, [up] drops the
    last of those, so that the current directory is again the root
    followed by plain segments; at the root itself [up] changes nothing.
    Nothing is written and nothing is validated. *)
Theorem X17_up_stays_below_the_root (st : State) (R S : list string) :
  Forall plainSegment R ->
  Forall plainSegment S ->
  rootWorkDir (session st) = "/" +:+ Path.joinSlash R ->
  currentWorkDir (session st) = "/" +:+ Path.joinSlash (R ++ S) ->
  goUpper [COMMANDS.goUpper] st
  = (withCurrentWorkDir st ("/" +:+ Path.joinSlash (R ++ removelast S)),
     Returned tt).
Proof.
  intros HR HS Hroot Hcur. unfold goUpper. rewrite badCall_one.
  unfold bind, getSession, getSystem. rewrite Hroot, Hcur.
  destruct S as [|s S'] using rev_ind.
  - rewrite app_nil_r, String.eqb_refl. cbn [removelast].
    rewrite app_nil_r. unfold ret, withCurrentWorkDir.
    rewrite app_nil_r in Hcur. rewrite <- Hcur.
    now destruct st as [[root cur ignore name] w t].
  - clear IHS'.
    destruct (String.eqb_spec ("/" +:+ Path.joinSlash (R ++ S' ++ [s]))
                ("/" +:+ Path.joinSlash R)) as [Heq|_].
    { injection Heq as Heq.
      apply joinSlash_injective_suffix in Heq; auto.
      now destruct S'. }
    rewrite resolve_parent by now apply Forall_app.
    replace (removelast (R ++ S' ++ [s])) with (R ++ S')
      by (rewrite app_assoc; now rewrite removelast_last).
    rewrite removelast_last. reflexivity.
Qed.

End Navigation.

(** ** The properties above on the sample session *)

Lemma X7_add_creates_an_empty_file_once_witness :
  exists w',
    createEmptyFile ["add"; "new.txt"] Sample.initial
    = (onSystem Sample.initial w', Returned tt)
    /\ Fs.stat w' "/home/user/new.txt" = Some (Fs.File [])
    /\ createEmptyFile ["add"; "new.txt"] (onSystem Sample.initial w')
       = (onSystem Sample.initial w',
          Thrown (FileAlreadyExists "/home/user/new.txt")).
Proof.
  pose proof (X7_add_creates_an_empty_file_once Sample.initial "new.txt") as H.
  cbv zeta in H.
  destruct H as (w' & Hrun & Hstat & _ & Hagain);
    [reflexivity | vm_compute; reflexivity | vm_compute; reflexivity |].
  exists w'. repeat split; [exact Hrun | exact Hstat | exact Hagain].
Defined.

Lemma X8_rm_removes_the_file_witness :
  exists w',
    deleteFile ["rm"; "a.txt"] Sample.initial
    = (onSystem Sample.initial w', Returned tt)
    /\ Fs.stat w' "/home/user/a.txt" = None
    /\ Fs.stat w' "/home/user/raw.bin" = Some (Fs.File [255]%Z).
Proof.
  pose proof (@X8_rm_removes_the_file Sample.flushingStream
                Sample.initial "a.txt") as H.
  cbv zeta in H.
  destruct H as (w' & Hrun & Hstat & Hother & _);
    [reflexivity | vm_compute; reflexivity |].
  exists w'. repeat split; [exact Hrun | exact Hstat |].
  apply Hother; [vm_compute; discriminate | vm_compute; reflexivity].
Defined.

Lemma X9_rn_moves_the_content_witness :
  exists w',
    renameFile ["rn"; "a.txt"; "c.txt"] Sample.initial
    = (onSystem Sample.initial w', Returned tt)
    /\ Fs.stat w' "/home/user/c.txt" = Some (Fs.File [104; 105]%Z)
    /\ Fs.stat w' "/home/user/a.txt" = None.
Proof.
  pose proof (X9_rn_moves_the_content Sample.initial "a.txt" "c.txt") as H.
  cbv zeta in H.
  destruct H as (content & w' & Hsrc & Hrun & Hdst & Hgone & _);
    [reflexivity | repeat split; vm_compute; reflexivity |].
  exists w'. repeat split; [exact Hrun | | exact Hgone].
  vm_compute in Hsrc. injection Hsrc as <-. exact Hdst.
Defined.

Lemma X10_cp_writes_the_recoded_content_witness :
  exists w',
    copyFile ["cp"; "raw.bin"; "c.bin"] Sample.initial
    = (onSystem Sample.initial w', Returned tt)
    /\ Fs.stat w' "/home/user/c.bin" = Some (Fs.File [239; 191; 189]%Z)
    /\ Fs.stat w' "/home/user/raw.bin" = Some (Fs.File [255]%Z).
Proof.
  pose proof (X10_cp_writes_the_recoded_content Sample.initial
                "raw.bin" "c.bin") as H.
  cbv zeta in H.
  destruct H as (content & w' & Hsrc & Hrun & Hdst & Hkept);
    [reflexivity | repeat split; vm_compute; reflexivity |].
  exists w'. repeat split; [exact Hrun | |].
  - vm_compute in Hsrc. injection Hsrc as <-. exact Hdst.
  - apply Hkept. vm_compute. reflexivity.
Defined.

Lemma X11_mv_copies_then_removes_witness :
  exists w',
    moveFile ["mv"; "a.txt"; "sub/a.txt"] Sample.initial
    = (onSystem Sample.initial w', Returned tt)
    /\ Fs.stat w' "/home/user/sub/a.txt" = Some (Fs.File [104; 105]%Z)
    /\ Fs.stat w' "/home/user/a.txt" = None.
Proof.
  pose proof (X11_mv_copies_then_removes Sample.initial
                "a.txt" "sub/a.txt") as H.
  cbv zeta in H.
  destruct H as (content & w' & Hsrc & Hrun & Hdst & Hgone & _);
    [reflexivity | repeat split; vm_compute; reflexivity |].
  exists w'. repeat split; [exact Hrun | | exact Hgone].
  vm_compute in Hsrc. injection Hsrc as <-. exact Hdst.
Defined.

Lemma X12_cat_twice_writes_the_same_witness :
  @printFileContent Sample.flushingStream ["cat"; "a.txt"] Sample.initial
  = (appendTerminal Sample.initial
       [WrittenText [104; 105]%Z;
        Written (outputStringOf EmptyString none true)],
     Returned tt)
  /\ textWritten (@shownContent Sample.flushingStream [104; 105]%Z)
     = Utf8.decode [104; 105]%Z.
Proof.
  destruct (@X12_cat_twice_writes_the_same Sample.flushingStream
              Sample.initial "a.txt" [104; 105]%Z)
    as (Hrun & _ & Htext);
    [reflexivity | vm_compute; reflexivity | vm_compute; reflexivity |].
  split; [exact Hrun | exact (Htext flushingStream_delivers_text)].
Defined.

Lemma X13_hash_writes_the_digest_of_the_bytes_witness :
  @getFileHash Sample.lengthDigest ["hash"; "a.txt"] Sample.initial
  = (appendTerminal Sample.initial
       [Written (outputStringOf "11" none true)],
     Returned tt).
Proof.
  apply (@X13_hash_writes_the_digest_of_the_bytes Sample.lengthDigest
           Sample.initial "a.txt" [104; 105]%Z);
    [reflexivity | vm_compute; reflexivity | vm_compute; reflexivity].
Defined.

Lemma X14_validation_precedes_effects_witness :
  @dispatch Sample.frameCodec Sample.lengthDigest Sample.flushingStream
    ["cp"; "nope.txt"; "/etc/x.txt"] Sample.initial
  = (Sample.initial, Thrown (FileDoesNotExist "/home/user/nope.txt")).
Proof.
  apply (@X14_validation_precedes_effects Sample.frameCodec
           Sample.lengthDigest Sample.flushingStream Sample.initial "cp"
           ["nope.txt"; "/etc/x.txt"]
           [(1, true, false); (2, false, true)]%nat);
    [do 3 right; left; reflexivity | reflexivity | vm_compute; reflexivity].
Defined.

Lemma X15_ls_lists_every_entry_once_witness :
  exists objects,
    listDir ["ls"] Sample.initial
    = (appendTerminal Sample.initial [ConsoleTable objects ["Name"; "Type"]],
       Returned tt)
    /\ tableCells (ConsoleTable objects ["Name"; "Type"])
       = [[Js.VString "sub"; Js.VString "directory"];
          [Js.VString "a.txt"; Js.VString "file"];
          [Js.VString "b.txt"; Js.VString "file"];
          [Js.VString "raw.bin"; Js.VString "file"]].
Proof.
  pose proof (X15_ls_lists_every_entry_once Sample.initial
                ["a.txt"; "b.txt"; "raw.bin"; "sub"]) as H.
  cbv zeta in H.
  destruct H as (objects & Hrun & Hcells & _); [vm_compute; reflexivity|].
  exists objects. split; [exact Hrun|].
  rewrite Hcells. vm_compute. reflexivity.
Defined.

Lemma X17_up_stays_below_the_root_witness :
  let st := mkState (mkSession "/home/user" "/home/user/sub" false "tester")
              Sample.system [] in
  goUpper ["up"] st
  = (withCurrentWorkDir st "/home/user", Returned tt).
Proof.
  intros st.
  apply (X17_up_stays_below_the_root st ["home"; "user"] ["sub"]);
    [ | | reflexivity | reflexivity];
    repeat constructor; discriminate.
Defined.

(** ** The start of the program *)

Module StartFacts.

Import ProgramArguments.

Lemma split_not_nil (sep : ascii) (s : string) : split sep s <> [].
Proof.
  destruct s as [|c s]; cbn [split]; [discriminate|].
  destruct (Ascii.eqb c sep); discriminate.
Qed.

Lemma split_append (sep : ascii) (a b : string) :
  split sep (a +:+ String sep b) = split sep a ++ split sep b.
Proof.
  induction a as [|c a IH]; autorewrite with str; cbn [split].
  - now rewrite Ascii.eqb_refl.
  - rewrite IH. destruct (Ascii.eqb c sep); [reflexivity|].
    pose proof (split_not_nil sep a) as Hne.
    destruct (split sep a); [congruence | reflexivity].
Qed.

Lemma split_plain (sep : ascii) (s : string) :
  occurs sep s = false -> split sep s = [s].
Proof.
  induction s as [|c s IH]; [reflexivity|].
  cbn [occurs split]. intros H. apply orb_false_iff in H as [Hc Hs].
  rewrite Hc, (IH Hs). reflexivity.
Qed.

Lemma split_one (sep : ascii) (s b : string) :
  split sep s = [b] -> s = b /\ occurs sep b = false.
Proof.
  revert b. induction s as [|c s IH]; intros b; cbn [split].
  - intros [= <-]. split; reflexivity.
  - pose proof (split_not_nil sep s) as Hne.
    destruct (Ascii.eqb c sep) eqn:Hc.
    + intros [= <- Hr]. congruence.
    + destruct (split sep s) as [|x r]; [congruence|]. cbn [hd tl].
      intros [= <- ->]. destruct (IH x eq_refl) as [-> Hx].
      split; [reflexivity|]. cbn [occurs]. now rewrite Hc, Hx.
Qed.

Lemma split_two (sep : ascii) (s a b : string) :
  split sep s = [a; b] ->
  s = a +:+ String sep b /\ occurs sep a = false /\ occurs sep b = false.
Proof.
  revert a. induction s as [|c s IH]; intros a; cbn [split]; [discriminate|].
  pose proof (split_not_nil sep s) as Hne.
  destruct (Ascii.eqb c sep) eqn:Hc.
  - intros [= <- Hr]. apply split_one in Hr as [-> Hb].
    apply Ascii.eqb_eq in Hc as ->. repeat split; auto.
  - destruct (split sep s) as [|x r]; [congruence|]. cbn [hd tl].
    intros [= <- ->]. destruct (IH x eq_refl) as (-> & Hx & Hb).
    repeat split; auto. cbn [occurs]. now rewrite Hc, Hx.
Qed.

(** An argument is parsed exactly when it is [--name=value] with a name
    that is not empty and no other [=]. *)
Lemma parseArgument_inr (el : string) (a : Argument) :
  parseArgument el = inr a ->
  el = "--" +:+ name a +:+ String EQUALS (value a)
  /\ occurs EQUALS (value a) = false.
Proof.
  unfold parseArgument. cbv zeta.
  destruct (split EQUALS el) as [|n [|v [|x r]]] eqn:Hsplit;
    try (cbn; discriminate).
  change (length [n; v] =? 2)%nat with true.
  change ([n; v] !! 0%nat) with (Some n).
  change ([n; v] !! 1%nat) with (Some v).
  change (default EmptyString (Some n)) with n.
  change (default EmptyString (Some v)) with v. cbn [negb orb].
  destruct (startsWith n "--") eqn:Hstart; cbn [negb orb]; [|discriminate].
  destruct (String.length n =? 2)%nat; [discriminate|].
  intros [= <-]. cbn [name value].
  apply split_two in Hsplit as (-> & _ & Hv). split; [|exact Hv].
  unfold startsWith in Hstart.
  destruct n as [|c1 n]; [discriminate Hstart|].
  apply (prefix_cons "-" c1 "-" n) in Hstart as [<- Hstart].
  destruct n as [|c2 rest]; [discriminate Hstart|].
  apply (prefix_cons "-" c2 EmptyString rest) in Hstart as [<- _].
  unfold sliceFrom. cbn [String.length substring Nat.sub].
  rewrite Nat.sub_0_r, substring_all. reflexivity.
Qed.

Lemma parseArgument_username (v : string) :
  occurs EQUALS v = false ->
  parseArgument ("--username" +:+ String EQUALS v)
  = inr (mkArgument USERNAME_COMMAND_LINE_ARG_NAME v).
Proof.
  intros Hv. unfold parseArgument.
  rewrite split_append, (split_plain _ _ Hv). reflexivity.
Qed.

Lemma mapArguments_length (els : list string) (l : list Argument) :
  mapArguments els = inr l -> length l = length els.
Proof.
  revert l. induction els as [|el els IH]; intros l; cbn [mapArguments].
  - now intros [= <-].
  - destruct (parseArgument el); [discriminate|].
    destruct (mapArguments els) as [|l']; [discriminate|].
    intros [= <-]. cbn. now rewrite (IH l').
Qed.

Lemma getUserName_error (args : list string) (m : string) :
  getUserName args = inl m -> m = WRONG_COMMAND_LINE_ARGUMENTS.
Proof.
  unfold getUserName, parseCommandLineArgs, checkParsedCommandLineArgs.
  assert (Hmap : forall els m', mapArguments els = inl m' ->
                                m' = WRONG_COMMAND_LINE_ARGUMENTS).
  { induction els as [|el els IH]; intros m'; cbn [mapArguments];
      [discriminate|].
    unfold parseArgument at 1. cbv zeta.
    destruct (_ || _); [now intros [= <-]|].
    destruct (mapArguments els); [|discriminate].
    intros [= <-]. now apply IH. }
  destruct (length args =? 0)%nat.
  { cbn. now intros [= <-]. }
  destruct (length (drop 2 args) =? 0)%nat.
  { cbn. now intros [= <-]. }
  destruct (mapArguments (drop 2 args)) as [m'|l] eqn:Hl.
  { intros [= <-]. now apply (Hmap _ _ Hl). }
  destruct (_ || _); [now intros [= <-] | discriminate].
Qed.

Lemma getUserName_inr (args : list string) (userName : string) :
  getUserName args = inr userName ->
  exists node script value,
    args = [node; script; "--username=" +:+ value]
    /\ occurs EQUALS value = false
    /\ userName = (if nonEmpty value then value else UNKNOWN_USERNAME).
Proof.
  unfold getUserName, parseCommandLineArgs.
  destruct args as [|node [|script els]]; try (cbn; discriminate).
  change (length (node :: script :: els) =? 0)%nat with false.
  change (drop 2 (node :: script :: els)) with els. cbv iota zeta.
  destruct els as [|el els]; [cbn; discriminate|].
  change (length (el :: els) =? 0)%nat with false. cbv iota.
  destruct (mapArguments (el :: els)) as [m|l] eqn:Hmap; [discriminate|].
  pose proof (mapArguments_length _ _ Hmap) as Hlen.
  unfold checkParsedCommandLineArgs.
  destruct l as [|a [|a' l]]; try (cbn; discriminate).
  destruct els; [|discriminate Hlen].
  change (length [a] =? 1)%nat with true. cbn [negb orb].
  change (name <$> [a] !! 0%nat) with (Some (name a)).
  destruct (bool_decide_reflect
              (Some (name a) = Some USERNAME_COMMAND_LINE_ARG_NAME))
    as [Hname|Hname]; cbn [negb]; [|discriminate].
  injection Hname as Hname.
  cbn [mapArguments] in Hmap.
  destruct (parseArgument el) as [|a0] eqn:Hparse; [discriminate|].
  injection Hmap as ->.
  apply parseArgument_inr in Hparse as [Hel Hv].
  cbn [List.find]. rewrite Hname.
  change (String.eqb USERNAME_COMMAND_LINE_ARG_NAME
            USERNAME_COMMAND_LINE_ARG_NAME) with true.
  cbv iota. intros [= <-].
  exists node, script, (value a).
  rewrite Hel, Hname. repeat split; auto.
Qed.

End StartFacts.

(** X18: [getUserName] returns a name exactly for an argument vector of
    three elements whose third is [--username=<value>] with no other [=];
    the name is the value, or [Unknown] when the value is empty.  For any
    other vector it throws "Wrong command line arguments!". *)
Theorem X18_getUserName_accepts_one_username_argument
    (args : list string) (userName : string) :
  (ProgramArguments.getUserName args = inr userName
   <-> exists node script value,
         args = [node; script; "--username=" +:+ value]
         /\ occurs ProgramArguments.EQUALS value = false
         /\ userName = (if nonEmpty value then value
                        else ProgramArguments.UNKNOWN_USERNAME))
  /\ (forall m, ProgramArguments.getUserName args = inl m ->
                m = ProgramArguments.WRONG_COMMAND_LINE_ARGUMENTS).
Proof.
  split; [|apply StartFacts.getUserName_error].
  split; [apply StartFacts.getUserName_inr|].
intros (node & script & value & -> & Hv & ->).
    unfold ProgramArguments.getUserName, ProgramArguments.parseCommandLineArgs.
    change (length [node; script; "--username=" +:+ value] =? 0)%nat
      with false.
    change (drop 2 [node; script; "--username=" +:+ value])
      with ["--username=" +:+ value].
    change (length ["--username=" +:+ value] =? 0)%nat with false.
    cbv iota. cbn [ProgramArguments.mapArguments].
    change ("--username=" +:+ value)
      with ("--username" +:+ String ProgramArguments.EQUALS value).
    rewrite (StartFacts.parseArgument_username _ Hv). reflexivity.
Qed.

(** X19: whatever the argument vector, the program starts a session in
    the home directory: root and current directory are the home
    directory, the input flag is lowered, the file system is untouched and
    the welcome, the current directory and the prompt are written.  The
    user name is never empty: it is the one [getUserName] returns, or
    [Unknown] after one red line with the message of the error. *)
Theorem X19_the_program_always_starts
    (argv : list string) (homedir : string) (w : Fs.System) :
  exists name written,
    main argv homedir w
    = (mkState (mkSession homedir homedir false name) w
         (written
          ++ [Written (outputStringOf
                         ("Welcome to the File Manager, " +:+ name +:+ "!")
                         none true);
              currentDirLine homedir; promptLine]),
       Returned tt)
    /\ name <> EmptyString
    /\ ((ProgramArguments.getUserName argv = inr name /\ written = [])
        \/ (name = ProgramArguments.UNKNOWN_USERNAME
            /\ written
               = [Written (outputStringOf
                             ProgramArguments.WRONG_COMMAND_LINE_ARGUMENTS
                             error true)])).
Proof.
  unfold main.
  destruct (ProgramArguments.getUserName argv) as [m|name] eqn:Hname.
  - exists ProgramArguments.UNKNOWN_USERNAME.
    apply StartFacts.getUserName_error in Hname as ->.
    eexists. split; [reflexivity|]. split; [discriminate|]. right. auto.
  - exists name, []. split; [reflexivity|]. split; [|left; auto].
    apply StartFacts.getUserName_inr in Hname
      as (_ & _ & value & _ & _ & ->).
    destruct value; cbn; discriminate.
Qed.

(** ** The tokenizer on well-formed lines *)

Lemma tokensFrom_plain (t s : string) :
  plainChars t = true ->
  tokensFrom (t +:+ s) false
  = (let '(cur, later) := tokensFrom s false in (t +:+ cur, later)).
Proof.
  induction t as [|c t IH]; intros Ht; autorewrite with str.
  - now destruct (tokensFrom s false).
  - cbn [plainChars] in Ht.
    apply andb_true_iff in Ht as [Hc Ht].
    apply andb_true_iff in Hc as [Hws Hbr].
    apply negb_true_iff in Hws, Hbr.
    cbn [tokensFrom]. unfold separates, toggle. rewrite Hbr.
    assert (Hsp : Ascii.eqb c SPACE = false).
    { destruct (Ascii.eqb c SPACE) eqn:E; [|reflexivity].
      apply Ascii.eqb_eq in E as ->. discriminate Hws. }
    rewrite Hsp, (IH Ht). cbn [andb].
    destruct (tokensFrom s false). now autorewrite with str.
Qed.

Lemma tokensFrom_inside (body s : string) :
  quoteFree body = true ->
  tokensFrom (body +:+ s) true
  = (let '(cur, later) := tokensFrom s true in (body +:+ cur, later)).
Proof.
  induction body as [|c body IH]; intros Hb; autorewrite with str.
  - now destruct (tokensFrom s true).
  - cbn [quoteFree] in Hb. apply andb_true_iff in Hb as [Hbr Hb].
    apply negb_true_iff in Hbr.
    cbn [tokensFrom]. unfold separates, toggle. rewrite Hbr.
    rewrite (IH Hb), andb_false_r.
    destruct (tokensFrom s true). now autorewrite with str.
Qed.

Lemma bracket_not_white (q : ascii) :
  charIsBracket q = true -> isWhiteSpace q = false /\ Ascii.eqb q SPACE = false.
Proof.
  unfold charIsBracket. intros H. apply orb_true_iff in H as [H|H];
    apply Ascii.eqb_eq in H as ->; split; reflexivity.
Qed.

Lemma append_assoc (a b c : string) : (a +:+ b) +:+ c = a +:+ (b +:+ c).
Proof.
  induction a as [|x a IH]; autorewrite with str; [reflexivity|].
  now rewrite IH.
Qed.

Lemma tokensFrom_quoted (q : ascii) (body s : string) :
  charIsBracket q = true -> quoteFree body = true ->
  tokensFrom (quoted q body +:+ s) false
  = (let '(cur, later) := tokensFrom s false in
     (quoted q body +:+ cur, later)).
Proof.
  intros Hq Hb. destruct (bracket_not_white q Hq) as [_ Hsp].
  unfold quoted. autorewrite with str. rewrite !append_assoc.
  autorewrite with str.
  cbn [tokensFrom]. unfold separates at 1, toggle at 1 2. rewrite Hq, Hsp.
  cbn [negb andb]. rewrite (tokensFrom_inside _ _ Hb).
  cbn [tokensFrom]. unfold separates, toggle. rewrite Hq, Hsp.
  cbn [negb andb]. destruct (tokensFrom s false).
  autorewrite with str. rewrite append_assoc. now autorewrite with str.
Qed.

Lemma tokensFrom_typed (a : LineArgument) (s : string) :
  wellFormed a ->
  tokensFrom (typed a +:+ s) false
  = (let '(cur, later) := tokensFrom s false in (typed a +:+ cur, later)).
Proof.
  destruct a as [t|q body]; cbn [wellFormed typed].
  - intros [_ Ht]. now apply tokensFrom_plain.
  - intros [Hq Hb]. now apply tokensFrom_quoted.
Qed.

Lemma typed_head (a : LineArgument) :
  wellFormed a ->
  exists c rest, typed a = String c rest /\ isWhiteSpace c = false
                 /\ lastNotWhite (typed a) = true.
Proof.
  destruct a as [t|q body]; cbn [wellFormed typed].
  - intros [Hne Ht]. destruct t as [|c t]; [congruence|].
    exists c, t. split; [reflexivity|].
    pose proof Ht as Hc. cbn [plainChars] in Hc.
    apply andb_true_iff in Hc as [Hc _].
    apply andb_true_iff in Hc as [Hc _]. apply negb_true_iff in Hc.
    split; [exact Hc|]. clear Hc Hne. revert c Ht.
    induction t as [|d t IH]; intros c Ht; cbn [plainChars] in Ht.
    + cbn. now destruct (isWhiteSpace c); cbn in *.
    + cbn [lastNotWhite isEmpty]. apply IH.
      apply andb_true_iff in Ht as [_ Ht]. exact Ht.
  - intros [Hq _]. destruct (bracket_not_white q Hq) as [Hws _].
    unfold quoted. eexists _, _. split; [reflexivity|].
    split; [exact Hws|].
    cbn [lastNotWhite]. clear -Hws.
    assert (H : forall b, isEmpty (b +:+ String q EmptyString) = false
                          /\ lastNotWhite (b +:+ String q EmptyString) = true).
    { induction b as [|d b [IH1 IH2]]; autorewrite with str.
      - cbn. now rewrite Hws.
      - split; [reflexivity|]. cbn [lastNotWhite]. now rewrite IH1. }
    destruct (H body) as [-> ->]. reflexivity.
Qed.

Lemma lastNotWhite_append (a b : string) :
  isEmpty b = false -> lastNotWhite (a +:+ b) = lastNotWhite b.
Proof.
  intros Hb. induction a as [|c a IH]; autorewrite with str; [reflexivity|].
  cbn [lastNotWhite]. rewrite IH.
  destruct (a +:+ b) eqn:E; [|reflexivity].
  destruct a; autorewrite with str in E; [|discriminate].
  subst b. discriminate Hb.
Qed.

Lemma trimEnd_fixed (s : string) : lastNotWhite s = true -> trimEnd s = s.
Proof.
  induction s as [|c s IH]; [reflexivity|].
  cbn [lastNotWhite trimEnd]. destruct s as [|d s].
  - cbn. intros H. apply negb_true_iff in H. now rewrite H.
  - cbn [isEmpty]. intros H. rewrite (IH H). cbn [isEmpty].
    now rewrite andb_false_r.
Qed.

Lemma trim_fixed (c : ascii) (rest : string) :
  isWhiteSpace c = false -> lastNotWhite (String c rest) = true ->
  trim (String c rest) = String c rest.
Proof.
  intros Hc Hlast. unfold trim. cbn [trimStart]. rewrite Hc.
  now apply trimEnd_fixed.
Qed.

Lemma concat_cons2 (a b : string) (l : list string) :
  String.concat " " (a :: b :: l)
  = a +:+ String SPACE (String.concat " " (b :: l)).
Proof. reflexivity. Qed.

Lemma tokensFrom_line (a : LineArgument) (args : list LineArgument) :
  Forall wellFormed (a :: args) ->
  tokensFrom (String.concat " " (map typed (a :: args))) false
  = (typed a, map typed args)
  /\ lastNotWhite (String.concat " " (map typed (a :: args))) = true.
Proof.
  revert a. induction args as [|b args IH]; intros a Hall.
  - apply Forall_inv in Hall.
    destruct (typed_head a Hall) as (c & rest & _ & _ & Hlast).
    cbn [map String.concat]. split; [|exact Hlast].
    rewrite <- (append_empty_r (typed a)) at 1.
    rewrite (tokensFrom_typed _ _ Hall). cbn [tokensFrom].
    now rewrite append_empty_r.
  - pose proof (Forall_inv Hall) as Ha.
    apply Forall_inv_tail in Hall.
    destruct (IH b Hall) as [Htok Hlast].
    destruct (typed_head b (Forall_inv Hall)) as (c & rest & Hb & _ & _).
    change (map typed (a :: b :: args))
      with (typed a :: typed b :: map typed args).
    rewrite concat_cons2.
    change (typed b :: map typed args) with (map typed (b :: args)).
    split.
    + rewrite (tokensFrom_typed _ _ Ha). cbn [tokensFrom].
      change (toggle SPACE false) with false.
      change (separates SPACE false) with true.
      rewrite Htok. cbv iota.
      rewrite append_empty_r. unfold consNonEmpty. cbn [map].
      now rewrite Hb.
    + rewrite lastNotWhite_append; [|reflexivity].
      cbn [lastNotWhite]. rewrite Hlast.
      destruct (String.concat " " (map typed (b :: args))) eqn:E;
        [|reflexivity].
      cbn [map] in E. rewrite Hb in E.
      destruct (map typed args); cbn in E; discriminate E.
Qed.

Lemma get_append_last (q : ascii) (b s : string) :
  String.get (String.length b) (b +:+ String q s) = Some q.
Proof.
  induction b as [|c b IH]; autorewrite with str; [reflexivity|].
  exact IH.
Qed.

Lemma length_snoc (q : ascii) (b : string) :
  String.length (b +:+ String q EmptyString) = S (String.length b).
Proof.
  induction b as [|c b IH]; autorewrite with str; [reflexivity|].
  cbn [String.length]. now rewrite IH.
Qed.

Lemma substring_append (a b : string) :
  substring 0 (String.length a) (a +:+ b) = a.
Proof.
  induction a as [|c a IH]; autorewrite with str.
  - now destruct b.
  - cbn [String.length substring]. now rewrite IH.
Qed.

Lemma unbraketString_typed (a : LineArgument) :
  wellFormed a -> unbraketString (typed a) = meant a.
Proof.
  rewrite unbraketString_cases.
  destruct a as [t|q body]; cbn [wellFormed typed meant].
  - intros [Hne Ht]. destruct t as [|c t]; [congruence|].
    cbn [plainChars] in Ht. apply andb_true_iff in Ht as [Hc _].
    apply andb_true_iff in Hc as [_ Hc]. apply negb_true_iff in Hc.
    unfold wrappedInQuotes. now rewrite Hc.
  - intros [Hq _]. unfold quoted, wrappedInQuotes, withoutFirstAndLast.
    rewrite Hq. cbn [String.length]. rewrite length_snoc.
    cbn [Nat.sub String.get substring]. rewrite Nat.sub_0_r.
    rewrite get_append_last, substring_append.
    rewrite bool_decide_eq_true_2 by reflexivity. reflexivity.
Qed.

(** X20: arguments typed as words, or as quote-free text between two
    equal quotes (spaces allowed inside), and separated by single spaces
    are read back: the tokenizer returns the arguments as typed, and
    [unbraketString] turns each of them into the text it stands for. *)
Theorem X20_typed_arguments_are_read_back (args : list LineArgument) :
  Forall wellFormed args ->
  getCommandWithParameters (String.concat " " (map typed args))
  = map typed args
  /\ map unbraketString
       (getCommandWithParameters (String.concat " " (map typed args)))
     = map meant args.
Proof.
  intros Hall.
  assert (Htokens :
            getCommandWithParameters (String.concat " " (map typed args))
            = map typed args).
  { destruct args as [|a args]; [reflexivity|].
    rewrite getCommandWithParameters_split.
    destruct (tokensFrom_line a args Hall) as [Htok Hlast].
    destruct (typed_head a (Forall_inv Hall)) as (c & rest & Ha & Hc & _).
    assert (Hline : exists rest',
               String.concat " " (map typed (a :: args)) = String c rest').
    { cbn [map String.concat]. rewrite Ha.
      destruct (map typed args); autorewrite with str; eauto. }
    destruct Hline as [rest' Hline].
    rewrite Hline in Hlast. rewrite Hline at 1.
    rewrite (trim_fixed _ _ Hc Hlast), <- Hline.
    unfold splitOnUnquotedSpaces. rewrite Htok.
    unfold consNonEmpty. cbn [map].
    destruct (typed a); [discriminate Ha | reflexivity]. }
  split; [exact Htokens|]. rewrite Htokens. clear Htokens.
  induction Hall as [|a args Ha _ IH]; [reflexivity|].
  cbn [map]. now rewrite (unbraketString_typed _ Ha), IH.
Qed.

(** The line [cp 'a b.txt' c.txt] is read back. *)
Lemma X20_typed_arguments_are_read_back_witness :
  Forall wellFormed [Word "cp"; Quoted SQUOTE "a b.txt"; Word "c.txt"]
  /\ getCommandWithParameters "cp 'a b.txt' c.txt"
     = ["cp"; "'a b.txt'"; "c.txt"]
  /\ map unbraketString (getCommandWithParameters "cp 'a b.txt' c.txt")
     = ["cp"; "a b.txt"; "c.txt"].
Proof.
  assert (H : Forall wellFormed
                [Word "cp"; Quoted SQUOTE "a b.txt"; Word "c.txt"]).
  { repeat constructor; cbn; discriminate. }
  split; [exact H|].
  exact (X20_typed_arguments_are_read_back _ H).
Defined.

Lemma trimStart_allWhite (pad s : string) :
  allWhite pad = true -> trimStart (pad +:+ s) = trimStart s.
Proof.
  induction pad as [|c pad IH]; autorewrite with str; [reflexivity|].
  cbn [allWhite trimStart]. intros H. apply andb_true_iff in H as [-> H].
  auto.
Qed.

Lemma trimEnd_allWhite (pad : string) :
  allWhite pad = true -> trimEnd pad = EmptyString.
Proof.
  induction pad as [|c pad IH]; [reflexivity|].
  cbn [allWhite trimEnd]. intros H. apply andb_true_iff in H as [-> H].
  now rewrite (IH H).
Qed.

Lemma trimEnd_append_allWhite (s pad : string) :
  allWhite pad = true -> trimEnd (s +:+ pad) = trimEnd s.
Proof.
  intros H. induction s as [|c s IH]; autorewrite with str.
  - now apply trimEnd_allWhite.
  - cbn [trimEnd]. now rewrite IH.
Qed.

Lemma trim_append_allWhite (s pad : string) :
  allWhite pad = true -> trim (s +:+ pad) = trim s.
Proof.
  intros H. unfold trim.
  induction s as [|c s IH]; autorewrite with str.
  - cbn [trimStart]. rewrite <- (append_empty_r (trimStart pad)).
    rewrite <- (append_empty_r pad) at 1.
    rewrite (trimStart_allWhite _ _ H). reflexivity.
  - cbn [trimStart]. destruct (isWhiteSpace c); [exact IH|].
    now apply (trimEnd_append_allWhite (String c s)).
Qed.

(** X21: white space typed before and after a line does not change its
    tokens. *)
Theorem X21_outer_white_space_is_ignored (before line after : string) :
  allWhite before = true -> allWhite after = true ->
  getCommandWithParameters (before +:+ line +:+ after)
  = getCommandWithParameters line.
Proof.
  intros Hb Ha.
  assert (Htrim : trim (before +:+ line +:+ after) = trim line).
  { unfold trim at 1. rewrite (trimStart_allWhite _ _ Hb).
    now apply (trim_append_allWhite line after). }
  unfold getCommandWithParameters. rewrite Htrim.
  destruct (isEmpty (before +:+ line +:+ after)) eqn:E.
  - destruct before; autorewrite with str in E; [|discriminate E].
    destruct line; autorewrite with str in E; [reflexivity|discriminate E].
  - destruct line; reflexivity.
Qed.

Lemma X21_outer_white_space_is_ignored_witness :
  getCommandWithParameters "   cd  sub  " = getCommandWithParameters "cd  sub".
Proof.
  apply (X21_outer_white_space_is_ignored "   " "cd  sub" "  ");
    reflexivity.
Defined.

(** ** The system operations *)

Section SystemOperations.

Context {codec : Codec} {digest : Digest} {stream : ReadStream}.

Lemma dispatch_os (args : list string) :
  dispatch (COMMANDS.os :: args) = osCommand (COMMANDS.os :: args).
Proof.
  unfold dispatch.
  change ((COMMANDS.os :: args) !! 0%nat) with (Some COMMANDS.os).
  cbv zeta beta. decide_commands. reflexivity.
Qed.

Lemma getOSCommandParameter_one (p : string) :
  getOSCommandParameter [COMMANDS.os; p]
  = if bool_decide (p ∈ OS_COMMANDS.values) then Some p else None.
Proof. reflexivity. Qed.

(** X22: the [os] command only reports.  Whatever its arguments, it
    returns after writing one item and changes neither the session nor
    the file system; the item is the line "Invalid input" unless the
    command has one argument that is one of the five parameters;
    [--homedir] reports the root directory of the session and
    [--username] its user name. *)
Theorem X22_os_only_reports (st : State) (args : list string) :
  ignoreStdin (session st) = false ->
  exists out,
    dispatch (COMMANDS.os :: args) st = (appendTerminal st [out], Returned tt)
    /\ ((forall p, args = [p] -> ~ In p OS_COMMANDS.values) ->
        out = invalidInputLine)
    /\ (args = [OS_COMMANDS.getHomeDir] ->
        out = Written (outputStringOf (rootWorkDir (session st)) none true))
    /\ (args = [OS_COMMANDS.getUserName] ->
        out = Written (outputStringOf (userName (session st)) none true)).
Proof.
  intros Hin. rewrite dispatch_os. unfold osCommand.
  assert (Hinvalid :
            exists out,
              showInvalidInputMessage st
              = (appendTerminal st [out], Returned tt)
              /\ out = invalidInputLine).
  { eexists. split; [now apply showInvalidInputMessage_run | reflexivity]. }
  destruct args as [|p [|p' args]].
  - rewrite getOSCommandParameter_arity by (cbn; lia).
    destruct Hinvalid as (out & -> & ->). eexists. split; [reflexivity|].
    repeat split; auto; discriminate.
  - rewrite getOSCommandParameter_one.
    destruct (bool_decide_reflect (p ∈ OS_COMMANDS.values)) as [Hp|Hp].
    + unfold OS_COMMANDS.values in Hp.
      repeat (apply elem_of_cons in Hp as [->|Hp]);
        [.. | now apply elem_of_nil in Hp];
        cbn [String.eqb Ascii.eqb Bool.eqb OS_COMMANDS.getDefaultSystemEOL
               OS_COMMANDS.getSystemCPUsInfo OS_COMMANDS.getHomeDir
               OS_COMMANDS.getUserName OS_COMMANDS.getCPUArchitecture];
        unfold getEOL, getCPUsInfo, getHomeDir, getUserName,
          getCPUArchitecture, printTable, bind, getSession, getSystem, emit;
        cbn [fst snd]; try rewrite writeln_run by exact Hin;
        (eexists; split; [reflexivity|]);
        (split; [intros Hno; exfalso; apply (Hno _ eq_refl);
                 unfold OS_COMMANDS.values; cbn; tauto|]);
        split; intros [= ]; reflexivity.
    + destruct Hinvalid as (out & -> & ->). eexists. split; [reflexivity|].
      split; [reflexivity|].
      split; intros [= ->]; exfalso; apply Hp; unfold OS_COMMANDS.values;
        set_solver.
  - rewrite getOSCommandParameter_arity by (cbn; lia).
    destruct Hinvalid as (out & -> & ->). eexists. split; [reflexivity|].
    repeat split; auto; discriminate.
Qed.

End SystemOperations.

Lemma X22_os_only_reports_witness :
  exists out,
    @dispatch Sample.frameCodec Sample.lengthDigest Sample.flushingStream ["os"; "--homedir"]
      Sample.initial
    = (appendTerminal Sample.initial [out], Returned tt)
    /\ out = Written (outputStringOf "/home/user" none true).
Proof.
  destruct (@X22_os_only_reports Sample.frameCodec Sample.lengthDigest Sample.flushingStream
              Sample.initial ["--homedir"] eq_refl)
    as (out & Hrun & _ & Hhome & _).
  exists out. split; [exact Hrun | exact (Hhome eq_refl)].
Defined.

(** ** What the text streams keep *)

(** X23: the text a read stream decodes holds scalar values only, so
    that what a copy holds is copied exactly: recoding the content a
    second time changes nothing. *)
Theorem X23_a_copy_is_copied_exactly (bytes : list Z) :
  Forall (fun b => 0 <= b)%Z bytes ->
  Forall Utf8.isScalar (Utf8.decode bytes)
  /\ Utf8.recode (Utf8.recode bytes) = Utf8.recode bytes.
Proof.
  intros H. pose proof (Utf8Scalars.decode_scalar bytes H) as Hs.
  split; [exact Hs|].
  unfold Utf8.recode at 1 3. now apply Utf8Facts.recode_encode.
Qed.

(** The byte [0xFF] is copied as the replacement character, and the copy
    as itself. *)
Lemma X23_a_copy_is_copied_exactly_witness :
  Utf8.recode [255]%Z = [239; 191; 189]%Z
  /\ Utf8.recode [239; 191; 189]%Z = [239; 191; 189]%Z.
Proof.
  split; [reflexivity|].
  refine (proj2 (X23_a_copy_is_copied_exactly [255]%Z _)).
  repeat constructor. discriminate.
Defined.
